(** * Phone CRM front-end (src/src/App.jsx): client-state model

    A shallow embedding of the single React component [App] and of the two
    axios interceptors installed next to it.

    - JavaScript values reaching the component are [JSVal]s, rows and the
      stats snapshot are JS objects ([gmap string JSVal]).
    - The component's [useState] cells form the record [State]; everything
      around them that the code talks to (localStorage, the pending
      [setTimeout], the [IntersectionObserver], the requests in flight, the
      dialogs shown) lives in [World].
    - Every closure of the component reads the state cells of the render
      that created it.  Functions of the component therefore take the
      [State] of that render as their first argument ([snap]); state
      setters act on the current cells in [World].
    - One [Event] is one turn of the browser's event loop: a DOM event, a
      timer callback, an observer callback or the settling of a request.
      [step] runs the handler and then the renders and effects it causes:
      the state updates of one handler are applied together, an effect
      runs when one of its dependencies differs from the previous render,
      effects run in the order of their declaration.
    - An [async] function is cut at its [await]: the part before it runs
      in the event that calls the function, the part after it
      ([..._then]) in the event that settles the request. *)

From Stdlib Require Import ZArith List Bool Lia.
From stdpp Require Import base option list numbers strings pretty gmap fin_maps.

#[local] Open Scope string_scope.
#[local] Open Scope list_scope.
#[local] Open Scope Z_scope.

(** ** JavaScript values *)

Inductive JSVal : Type :=
  | JUndefined
  | JNull
  | JBool (b : bool)
  | JNum (n : Z)
  | JStr (s : string).

#[global] Instance JSVal_eq_dec : EqDecision JSVal.
Proof. solve_decision. Defined.

(** [a === b] on the values above (numbers are the integers the backend
    stores, so there is no NaN to compare). *)
Definition strict_eq (a b : JSVal) : bool := bool_decide (a = b).

Abbreviation JSObject := (gmap string JSVal).
Abbreviation Item := (gmap string JSVal).
Abbreviation Stats := (gmap string JSVal).

(** [o.k]: a missing property reads as [undefined]. *)
Definition prop (k : string) (o : JSObject) : JSVal :=
  default JUndefined (o !! k).

(** [{ ...o, [k]: v }] *)
Definition spread_set (o : JSObject) (k : string) (v : JSVal) : JSObject :=
  <[k := v]> o.

(** ** localStorage and the axios interceptors (App.jsx 7-24) *)

Abbreviation Storage := (gmap string string).

Definition getItem (k : string) (ls : Storage) : option string := ls !! k.
Definition setItem (k v : string) (ls : Storage) : Storage := <[k := v]> ls.
Definition removeItem (k : string) (ls : Storage) : Storage := delete k ls.

(** Truthiness of what [getItem] returns: [null] and the empty string are
    falsy. *)
Definition truthy (v : option string) : bool :=
  match v with
  | Some s => negb (bool_decide (s = ""))
  | None => false
  end.

(** Request interceptor: the [Authorization] header it attaches. *)
Definition request_interceptor (ls : Storage) : option string :=
  if truthy (getItem "token" ls)
  then Some ("Bearer " +:+ default "" (getItem "token" ls))
  else None.

(** What the network hands to axios for one request: no response at all,
    or a response with a status and (for the 2xx the backend contract
    describes) a payload of the endpoint's type. *)
Inductive HttpResult (A : Type) : Type :=
  | NetworkError
  | Response (status : nat) (data : A).
Arguments NetworkError {A}.
Arguments Response {A} status data.

(** axios' default [validateStatus]: 2xx resolves, anything else rejects. *)
Definition validateStatus (status : nat) : bool :=
  (200 <=? status)%nat && (status <? 300)%nat.

(** The [error] object of a rejected request: [error.response] is absent
    when no response arrived. *)
Record AxiosError := mkError { err_response : option nat }.

Definition settle {A} (r : HttpResult A) : A + AxiosError :=
  match r with
  | NetworkError => inr (mkError None)
  | Response status data =>
      if validateStatus status then inl data else inr (mkError (Some status))
  end.

(** The rejection handler of the response interceptor: the storage it
    leaves and whether it called [window.location.reload()].  The promise
    stays rejected in both cases. *)
Definition response_interceptor (e : AxiosError) (ls : Storage) : Storage * bool :=
  match err_response e with
  | Some status =>
      if bool_decide (status = 401%nat) || bool_decide (status = 403%nat)
      then (removeItem "isLoggedIn" (removeItem "token" ls), true)
      else (ls, false)
  | None => (ls, false)
  end.

(** ** Numbers (ECMA-262 6.1.6.1)

    The Number values [parseInt] can return: NaN, the infinities and the
    doubles whose value is an integer.  [Finite z] is the double of value
    [z]; [Finite 0] also stands for -0, which [addItems] cannot tell from
    0. *)
Inductive Number : Type :=
  | NaN
  | Finite (z : Z)
  | Infinity (negative : bool).

#[global] Instance Number_eq_dec : EqDecision Number.
Proof. solve_decision. Defined.

(** [isNaN(x)] *)
Definition isNaN (x : Number) : bool :=
  match x with NaN => true | _ => false end.

(** [x < y] and [x <= y]: both are false when an operand is NaN. *)
Definition Number_ltb (x y : Number) : bool :=
  match x, y with
  | Finite a, Finite b => a <? b
  | Infinity true, Finite _ | Infinity true, Infinity false => true
  | Finite _, Infinity false => true
  | _, _ => false
  end.

Definition Number_leb (x y : Number) : bool :=
  match x, y with
  | NaN, _ | _, NaN => false
  | _, _ => negb (Number_ltb y x)
  end.

(** The Number value for the integer [x]: the nearest double, the one with
    an even significand when two are equally near, an infinity from
    2^1024 - 2^970 on.  A double has 53 significant bits. *)
Definition Number_of_Z (x : Z) : Number :=
  let a := Z.abs x in
  let e := Z.log2 a in
  if e <? 53 then Finite x
  else
    let shift := e - 52 in
    let q := Z.shiftr a shift in
    let r := Z.land a (Z.ones shift) in
    let half := Z.shiftl 1 (shift - 1) in
    let m := if (half <? r) || ((r =? half) && Z.odd q) then q + 1 else q in
    let v := Z.shiftl m shift in
    if 2 ^ 1024 <=? v then Infinity (x <? 0) else Finite (Z.sgn x * v).

(** ** [Number::toString] (ECMA-262 6.1.6.1.20, radix 10)

    The digits printed are the fewest that convert back to the number, and
    among those the nearest to it; up to 21 digits before the decimal
    point they are padded with zeros, beyond that the exponent is
    written. *)

(** The number of decimal digits of a positive integer. *)
Definition decimal_length (a : Z) : Z := Z.of_nat (String.length (pretty a)).

(** For a double of positive integer value [a] with [D] decimal digits:
    the integer [s] for which [s * 10^(D-k)] is nearest to [a] among those
    that convert to [a], if there is one (of two equally near, the even
    one). *)
Definition nearest_digits (a D k : Z) : option Z :=
  let p := 10 ^ (D - k) in
  let lo := a / p in
  let hi := lo + 1 in
  let lo_ok := bool_decide (Number_of_Z (lo * p) = Finite a) in
  let hi_ok := bool_decide (Number_of_Z (hi * p) = Finite a) in
  let d_lo := a - lo * p in
  let d_hi := hi * p - a in
  if lo_ok && hi_ok then
    if d_lo <? d_hi then Some lo
    else if d_hi <? d_lo then Some hi
    else if Z.even lo then Some lo else Some hi
  else if lo_ok then Some lo
  else if hi_ok then Some hi
  else None.

(** The least number [k] of digits that has such an [s], tried from [k]
    upwards, with [s].  Seventeen digits tell any two doubles apart, and
    the [D] digits of [a] itself always do. *)
Fixpoint shortest_digits (fuel : nat) (a D k : Z) : Z * Z :=
  match fuel with
  | O => (D, a)
  | S fuel' =>
      if D <=? k then (D, a)
      else
        match nearest_digits a D k with
        | Some s => (k, s)
        | None => shortest_digits fuel' a D (k + 1)
        end
  end.

(** The [k] digits of [s] with the decimal point after the [n]-th: padded
    with zeros up to [n] = 21, in exponent notation beyond. *)
Definition digits_toString (s k n : Z) : string :=
  if n <=? 21 then pretty (s * 10 ^ (n - k))
  else
    match pretty s with
    | String d rest =>
        String d (if k =? 1 then "" else "." +:+ rest) +:+ "e+" +:+ pretty (n - 1)
    | EmptyString => ""
    end.

Definition Number_toString (x : Number) : string :=
  match x with
  | NaN => "NaN"
  | Infinity negative => if negative then "-Infinity" else "Infinity"
  | Finite z =>
      if z =? 0 then "0"
      else
        let a := Z.abs z in
        let D := decimal_length a in
        let '(k, s) := shortest_digits 17 a D 1 in
        (* rounded up to 10^k: one digit more before the point *)
        let '(s, n) := if s =? 10 ^ k then (10 ^ (k - 1), D + 1) else (s, D) in
        (if z <? 0 then "-" else "") +:+ digits_toString s k n
  end.

(** ** [parseInt(countStr)] (ECMA-262 19.2.5, radix omitted)

    The prompt's answer is a JS string, i.e. a sequence of UTF-16 code
    units.  The digits denote an integer and the result is the Number
    value for it: exact up to 2^53, the nearest double above, an infinity
    on overflow.  (The specification also lets an implementation read the
    digits after the twentieth as zeros; the engines convert exactly, as
    here.) *)

Definition StrWhiteSpaceChar (c : N) : bool :=
  bool_decide (c ∈ [9; 10; 11; 12; 13; 32; 160; 5760; 8192; 8193; 8194; 8195;
                    8196; 8197; 8198; 8199; 8200; 8201; 8202; 8232; 8233;
                    8239; 8287; 12288; 65279]%N).

Definition digit_value (c : N) : option Z :=
  if (48 <=? c)%N && (c <=? 57)%N then Some (Z.of_N c - 48)
  else if (97 <=? c)%N && (c <=? 122)%N then Some (Z.of_N c - 87)
  else if (65 <=? c)%N && (c <=? 90)%N then Some (Z.of_N c - 55)
  else None.

Definition radix_digit (R : Z) (c : N) : option Z :=
  match digit_value c with
  | Some d => if d <? R then Some d else None
  | None => None
  end.

Fixpoint skip_white (s : list N) : list N :=
  match s with
  | c :: t => if StrWhiteSpaceChar c then skip_white t else s
  | [] => []
  end.

(** The longest prefix of radix-[R] digits, as digit values. *)
Fixpoint digit_prefix (R : Z) (s : list N) : list Z :=
  match s with
  | c :: t =>
      match radix_digit R c with
      | Some d => d :: digit_prefix R t
      | None => []
      end
  | [] => []
  end.

Definition digits_value (R : Z) (ds : list Z) : Z :=
  fold_left (fun acc d => acc * R + d) ds 0.

Definition parseInt (input : list N) : Number :=
  let S1 := skip_white input in
  let '(sign, S2) :=
    match S1 with
    | 45%N :: t => (-1, t)
    | 43%N :: t => (1, t)
    | _ => (1, S1)
    end in
  let '(R, S3) :=
    match S2 with
    | 48%N :: 120%N :: t => (16, t)
    | 48%N :: 88%N :: t => (16, t)
    | _ => (10, S2)
    end in
  match digit_prefix R S3 with
  | [] => NaN
  | ds => Number_of_Z (sign * digits_value R ds)
  end.

(** Code units of a string literal (one unit per character below 256). *)
Fixpoint code_units (s : string) : list N :=
  match s with
  | EmptyString => []
  | String a t => Ascii.N_of_ascii a :: code_units t
  end.

(** ** The state cells of [App] (App.jsx 27-40) *)

Record State := mkState {
  isLoggedIn : bool;
  username : string;
  password : string;
  loginError : string;
  activeTab : string;
  items : list Item;
  stats : Stats;
  search : string;
  loading : bool;
  page : nat;
  hasMore : bool
}.

Definition setIsLoggedIn (v : bool) (s : State) : State :=
  mkState v (username s) (password s) (loginError s) (activeTab s) (items s)
    (stats s) (search s) (loading s) (page s) (hasMore s).
Definition setUsername (v : string) (s : State) : State :=
  mkState (isLoggedIn s) v (password s) (loginError s) (activeTab s) (items s)
    (stats s) (search s) (loading s) (page s) (hasMore s).
Definition setPassword (v : string) (s : State) : State :=
  mkState (isLoggedIn s) (username s) v (loginError s) (activeTab s) (items s)
    (stats s) (search s) (loading s) (page s) (hasMore s).
Definition setLoginError (v : string) (s : State) : State :=
  mkState (isLoggedIn s) (username s) (password s) v (activeTab s) (items s)
    (stats s) (search s) (loading s) (page s) (hasMore s).
Definition setActiveTab (v : string) (s : State) : State :=
  mkState (isLoggedIn s) (username s) (password s) (loginError s) v (items s)
    (stats s) (search s) (loading s) (page s) (hasMore s).
(** [setItems] and [setPage] take an updater [prev => ...]; a plain value
    [v] is the constant updater. *)
Definition setItems (f : list Item -> list Item) (s : State) : State :=
  mkState (isLoggedIn s) (username s) (password s) (loginError s) (activeTab s)
    (f (items s)) (stats s) (search s) (loading s) (page s) (hasMore s).
Definition setStats (v : Stats) (s : State) : State :=
  mkState (isLoggedIn s) (username s) (password s) (loginError s) (activeTab s)
    (items s) v (search s) (loading s) (page s) (hasMore s).
Definition setSearch (v : string) (s : State) : State :=
  mkState (isLoggedIn s) (username s) (password s) (loginError s) (activeTab s)
    (items s) (stats s) v (loading s) (page s) (hasMore s).
Definition setLoading (v : bool) (s : State) : State :=
  mkState (isLoggedIn s) (username s) (password s) (loginError s) (activeTab s)
    (items s) (stats s) (search s) v (page s) (hasMore s).
Definition setPage (f : nat -> nat) (s : State) : State :=
  mkState (isLoggedIn s) (username s) (password s) (loginError s) (activeTab s)
    (items s) (stats s) (search s) (loading s) (f (page s)) (hasMore s).
Definition setHasMore (v : bool) (s : State) : State :=
  mkState (isLoggedIn s) (username s) (password s) (loginError s) (activeTab s)
    (items s) (stats s) (search s) (loading s) (page s) v.

(** [useState(!!localStorage.getItem('token'))] and the other initial
    values. *)
Definition initial_state (ls : Storage) : State :=
  mkState (truthy (getItem "token" ls)) "" "" "" "yangi" [] ∅ "" false 0%nat true.

(** Which of the two [return (...)] of [App] a render takes (App.jsx 211). *)
Inductive View := LoginView | MainView.

Definition view (s : State) : View :=
  if isLoggedIn s then MainView else LoginView.

(** ** Requests, continuations, observable effects *)

Inductive Request : Type :=
  | PostLogin (user pass : string)
  | GetItems (tab : string) (limit offset : nat) (search : string)
  | GetStats (tab : string)
  | PostItem (tab : string)
  | PutItem (id : JSVal) (field : string) (value : JSVal)
  | DeleteItem (id : JSVal)
  | PostReturn (id : JSVal).

(** The code after an [await], with the variables of its closure that it
    still reads ([fetchStats] reads [activeTab]). *)
Inductive Kont : Type :=
  | KLogin
  | KFetchItems (reset : bool)
  | KFetchStats
  | KAddItems (batch : nat)
  | KUpdateItem (tab field : string)
  | KDeleteItem (tab : string) (id : JSVal)
  | KReturnItem (tab : string) (id : JSVal).

Inductive Effect : Type :=
  | ERequest (rid : nat) (authorization : option string) (req : Request)
  | EPrompt (message default : string)
  | EAlert (message : string)
  | EConfirm (message : string)
  | EConsoleError
  | EReload.

(** One [Promise.all(promises)] of [addItems]: the requests it waits for in
    the order of [promises], the rows received so far, and whether it has
    already resolved or rejected. *)
Record Batch := mkBatch {
  batch_tab : string;
  batch_requests : list nat;
  batch_results : gmap nat Item;
  batch_settled : bool
}.

Record World := mkWorld {
  st : State;
  storage : Storage;
  clock : nat;                       (* milliseconds since mount *)
  timer : option (nat * State);      (* pending debounce: due time, closure *)
  observer : option State;           (* IntersectionObserver: its closure *)
  inflight : gmap nat Kont;
  batches : gmap nat Batch;
  next_id : nat;
  log : list Effect
}.

Definition setState (f : State -> State) (w : World) : World :=
  mkWorld (f (st w)) (storage w) (clock w) (timer w) (observer w) (inflight w)
    (batches w) (next_id w) (log w).
Definition set_storage (ls : Storage) (w : World) : World :=
  mkWorld (st w) ls (clock w) (timer w) (observer w) (inflight w)
    (batches w) (next_id w) (log w).
Definition set_clock (t : nat) (w : World) : World :=
  mkWorld (st w) (storage w) t (timer w) (observer w) (inflight w)
    (batches w) (next_id w) (log w).
Definition set_timer (t : option (nat * State)) (w : World) : World :=
  mkWorld (st w) (storage w) (clock w) t (observer w) (inflight w)
    (batches w) (next_id w) (log w).
Definition set_observer (o : option State) (w : World) : World :=
  mkWorld (st w) (storage w) (clock w) (timer w) o (inflight w)
    (batches w) (next_id w) (log w).
Definition set_inflight (m : gmap nat Kont) (w : World) : World :=
  mkWorld (st w) (storage w) (clock w) (timer w) (observer w) m
    (batches w) (next_id w) (log w).
Definition set_batches (m : gmap nat Batch) (w : World) : World :=
  mkWorld (st w) (storage w) (clock w) (timer w) (observer w) (inflight w)
    m (next_id w) (log w).
Definition emit (e : Effect) (w : World) : World :=
  mkWorld (st w) (storage w) (clock w) (timer w) (observer w) (inflight w)
    (batches w) (next_id w) (log w ++ [e]).

(** [axios.get/post/put/delete(...)]: the request leaves with the header
    of the request interceptor and its promise is pending. *)
Definition axios (req : Request) (k : Kont) (w : World) : World :=
  mkWorld (st w) (storage w) (clock w) (timer w) (observer w)
    (<[next_id w := k]> (inflight w)) (batches w) (S (next_id w))
    (log w ++ [ERequest (next_id w) (request_interceptor (storage w)) req]).

(** A settled promise passes the response interceptor first. *)
Definition intercept {A} (r : A + AxiosError) (w : World) : World :=
  match r with
  | inl _ => w
  | inr e =>
      let '(ls, reload) := response_interceptor e (storage w) in
      let w := set_storage ls w in
      if reload then emit EReload w else w
  end.

(** ** The functions of the component

    [snap] is the state of the render whose closure is called. *)

Definition limit : nat := 500.

(** [fetchItems] up to its [await] (App.jsx 114-122). *)
Definition fetchItems (snap : State) (pageNum : nat) (reset : bool) (w : World) : World :=
  if loading snap then w
  else
    let w := setState (setLoading true) w in
    axios (GetItems (activeTab snap) limit (pageNum * limit) (search snap))
      (KFetchItems reset) w.

(** ... and after it (App.jsx 124-131). *)
Definition fetchItems_then (reset : bool) (res : list Item + AxiosError) (w : World) : World :=
  let w :=
    match res with
    | inl data =>
        let w := if (length data <? limit)%nat
                 then setState (setHasMore false) w else w in
        setState (setItems (fun prev => if reset then data else prev ++ data)) w
    | inr _ => emit EConsoleError w
    end in
  setState (setLoading false) w.

(** [fetchStats] (App.jsx 134-139); it reads only [activeTab]. *)
Definition fetchStats (tab : string) (w : World) : World :=
  axios (GetStats tab) KFetchStats w.

Definition fetchStats_then (res : Stats + AxiosError) (w : World) : World :=
  match res with
  | inl data => setState (setStats data) w
  | inr _ => emit EConsoleError w
  end.

(** [handleLogin] (App.jsx 92-112). *)
Definition handleLogin (snap : State) (w : World) : World :=
  axios (PostLogin (username snap) (password snap)) KLogin w.

Definition handleLogin_then (res : string + AxiosError) (w : World) : World :=
  match res with
  | inl token =>
      let w := set_storage (setItem "isLoggedIn" "true"
                              (setItem "token" token (storage w))) w in
      let w := setState (setIsLoggedIn true) w in
      let w := setState (setLoginError "") w in
      emit EReload w
  | inr _ =>
      let w := emit EConsoleError w in
      setState (setLoginError "Login yoki parol noto'g'ri!") w
  end.

(** [handleLogout] (App.jsx 243-248). *)
Definition handleLogout (w : World) : World :=
  let w := set_storage (removeItem "isLoggedIn" (removeItem "token" (storage w))) w in
  let w := setState (setIsLoggedIn false) w in
  emit EReload w.

Definition prompt_message : string := "Nechta qator qo'shmoqchisiz?".
Definition invalid_count_message : string := "Iltimos, to'g'ri son kiriting!".
Definition failure_message : string := "Xatolik yuz berdi!".
(** [`${count} ta qator ...`]: the template prints [count] as
    [Number::toString] does. *)
Definition confirm_message (count : Number) : string :=
  Number_toString count +:+ " ta qator qo'shish biroz vaqt olishi mumkin. Davom etaymi?".

(** [n] times [axios.post(`${API_URL}/items`, { tab: activeTab })], the
    requests of batch [batch]. *)
Fixpoint post_items (tab : string) (batch : nat) (count : nat) (w : World) : World :=
  match count with
  | O => w
  | S n => post_items tab batch n (axios (PostItem tab) (KAddItems batch) w)
  end.

(** An array holds at most 2^32 - 1 elements.  The [push] that would make
    [promises] longer throws a RangeError when it sets the length
    (ECMA-262, Array.prototype.push and ArraySetLength); its argument, the
    POST, has been evaluated by then.  Memory apart, this is what ends the
    loop for a count that large. *)
Definition max_array_length : Z := 2 ^ 32 - 1.

(** [for (let i = 0; i < count; i++) promises.push(axios.post(...))]
    (App.jsx 162-164): whether a [push] throws, and the number of POSTs
    started, the one whose [push] throws included. *)
Definition loop_throws (count : Number) : bool :=
  Number_ltb (Finite max_array_length) count.

Definition loop_posts (count : Number) : nat :=
  match count with
  | Finite n => Z.to_nat (Z.min n (max_array_length + 1))
  | Infinity false => Z.to_nat (max_array_length + 1)
  | _ => 0%nat
  end.

(** The [try] block of [addItems] up to [await Promise.all(promises)]
    (App.jsx 158-166).  The batch is filed under the id of its first
    request.  When a [push] throws, [Promise.all] is never reached: the
    [catch] and the [finally] run at once (App.jsx 172-177), and the batch
    is filed as settled, since nothing waits for its POSTs. *)
Definition addItems_try (snap : State) (count : Number) (w : World) : World :=
  let w := setState (setLoading true) w in
  let b := next_id w in
  let n := loop_posts count in
  if loop_throws count then
    let w := set_batches
               (<[b := mkBatch (activeTab snap) (seq b n) ∅ true]> (batches w)) w in
    let w := post_items (activeTab snap) b n w in
    let w := emit EConsoleError w in
    let w := emit (EAlert failure_message) w in
    setState (setLoading false) w
  else
    let w := set_batches
               (<[b := mkBatch (activeTab snap) (seq b n) ∅ false]> (batches w)) w in
    post_items (activeTab snap) b n w.

(** [addItems] up to [await Promise.all(promises)] (App.jsx 142-166).
    [answer] is what [prompt] returns ([None] for null), [ok] what
    [window.confirm] returns if it is shown. *)
Definition addItems (snap : State) (answer : option (list N)) (ok : bool) (w : World) : World :=
  let w := emit (EPrompt prompt_message "1") w in
  match answer with
  | None => w
  | Some countStr =>
      let count := parseInt countStr in
      if isNaN count || Number_leb count (Finite 0)
      then emit (EAlert invalid_count_message) w
      else if Number_ltb (Finite 100) count
      then
        let w := emit (EConfirm (confirm_message count)) w in
        if ok then addItems_try snap count w else w
      else addItems_try snap count w
  end.

(** One of the POSTs of batch [b] settles: what [Promise.all] and the code
    after the [await] do with it (App.jsx 166-177).  [Promise.all] rejects
    with the first rejection and resolves once every request has a row; a
    settled promise ignores whatever arrives later. *)
Definition addItems_then (b rid : nat) (res : Item + AxiosError) (w : World) : World :=
  match batches w !! b with
  | None => w
  | Some B =>
      if batch_settled B then w
      else
        match res with
        | inl data =>
            let results := <[rid := data]> (batch_results B) in
            match mapM (fun i => results !! i) (batch_requests B) with
            | Some newItems =>
                let w := set_batches
                           (<[b := mkBatch (batch_tab B) (batch_requests B) results true]>
                              (batches w)) w in
                let w := setState (setItems (fun prev => prev ++ newItems)) w in
                let w := fetchStats (batch_tab B) w in
                setState (setLoading false) w
            | None =>
                set_batches
                  (<[b := mkBatch (batch_tab B) (batch_requests B) results false]>
                     (batches w)) w
            end
        | inr _ =>
            let w := set_batches
                       (<[b := mkBatch (batch_tab B) (batch_requests B)
                                 (batch_results B) true]> (batches w)) w in
            let w := emit EConsoleError w in
            let w := emit (EAlert failure_message) w in
            setState (setLoading false) w
        end
  end.

Definition stats_fields : list string := ["purchase_price"; "sale_price"; "sold_date"].

(** [updateItem] (App.jsx 180-190). *)
Definition updateItem (snap : State) (id : JSVal) (field : string) (value : JSVal)
    (w : World) : World :=
  let newItems :=
    map (fun item => if strict_eq (prop "id" item) id
                     then spread_set item field value else item) (items snap) in
  let w := setState (setItems (fun _ => newItems)) w in
  axios (PutItem id field value) (KUpdateItem (activeTab snap) field) w.

Definition updateItem_then (tab field : string) (res : unit + AxiosError) (w : World) : World :=
  match res with
  | inl _ => if bool_decide (field ∈ stats_fields) then fetchStats tab w else w
  | inr _ => emit EConsoleError w
  end.

(** [deleteItem] (App.jsx 192-199). *)
Definition deleteItem (snap : State) (id : JSVal) (ok : bool) (w : World) : World :=
  let w := emit (EConfirm "Delete this row?") w in
  if ok then axios (DeleteItem id) (KDeleteItem (activeTab snap) id) w else w.

Definition deleteItem_then (tab : string) (id : JSVal) (res : unit + AxiosError)
    (w : World) : World :=
  match res with
  | inl _ =>
      let w := setState (setItems (fun prev => filter (fun i => prop "id" i ≠ id) prev)) w in
      fetchStats tab w
  | inr _ => emit EConsoleError w
  end.

(** [returnItem] (App.jsx 201-208). *)
Definition returnItem (snap : State) (id : JSVal) (ok : bool) (w : World) : World :=
  let w := emit (EConfirm "Return this item?") w in
  if ok then axios (PostReturn id) (KReturnItem (activeTab snap) id) w else w.

Definition returnItem_then (tab : string) (id : JSVal) (res : Item + AxiosError)
    (w : World) : World :=
  match res with
  | inl data =>
      let w := setState (setItems (fun prev =>
                 map (fun i => if strict_eq (prop "id" i) id then data else i) prev)) w in
      fetchStats tab w
  | inr _ => emit EConsoleError w
  end.

(** ** The four effects (App.jsx 44-90) *)

Definition debounce_ms : nat := 500.

(** Tab effect, dependencies [activeTab, isLoggedIn]. *)
Definition effect_tab (snap : State) (w : World) : World :=
  if isLoggedIn snap then
    let w := setState (setItems (fun _ => [])) w in
    let w := setState (setPage (fun _ => 0%nat)) w in
    let w := setState (setHasMore true) w in
    let w := fetchItems snap 0 true w in
    fetchStats (activeTab snap) w
  else w.

(** The function handed to [setTimeout] by the search effect. *)
Definition debounce_callback (snap : State) (w : World) : World :=
  let w := setState (setItems (fun _ => [])) w in
  let w := setState (setPage (fun _ => 0%nat)) w in
  let w := setState (setHasMore true) w in
  fetchItems snap 0 true w.

(** Search effect, dependencies [search]: the cleanup of its previous run
    clears the old timer, then a new one is armed. *)
Definition effect_search (snap : State) (w : World) : World :=
  let w := set_timer None w in
  if isLoggedIn snap
  then set_timer (Some ((clock w + debounce_ms)%nat, snap)) w
  else w.

(** Infinite-scroll effect, dependencies [hasMore, loading, isLoggedIn]:
    the old observer is disconnected, the new one watches the loader row. *)
Definition effect_observer (snap : State) (w : World) : World :=
  set_observer (if isLoggedIn snap then Some snap else None) w.

Definition observer_callback (snap : State) (isIntersecting : bool) (w : World) : World :=
  if isIntersecting && hasMore snap && negb (loading snap)
  then setState (setPage (fun prev => S prev)) w
  else w.

(** Page effect, dependencies [page]. *)
Definition effect_page (snap : State) (w : World) : World :=
  if (0 <? page snap)%nat && isLoggedIn snap
  then fetchItems snap (page snap) false w
  else w.

Definition tab_deps_same (a b : State) : bool :=
  bool_decide (activeTab a = activeTab b) && bool_decide (isLoggedIn a = isLoggedIn b).
Definition search_deps_same (a b : State) : bool :=
  bool_decide (search a = search b).
Definition observer_deps_same (a b : State) : bool :=
  bool_decide (hasMore a = hasMore b) && bool_decide (loading a = loading b)
  && bool_decide (isLoggedIn a = isLoggedIn b).
Definition page_deps_same (a b : State) : bool :=
  bool_decide (page a = page b).

(** The effects of the render of [snap], the previous render being
    [prev]: those whose dependencies changed, in the order of their
    declaration, every one reading [snap]. *)
Definition run_effects (prev snap : State) (w : World) : World :=
  let w := if tab_deps_same prev snap then w else effect_tab snap w in
  let w := if search_deps_same prev snap then w else effect_search snap w in
  let w := if observer_deps_same prev snap then w else effect_observer snap w in
  if page_deps_same prev snap then w else effect_page snap w.

Definition deps_same (a b : State) : bool :=
  tab_deps_same a b && search_deps_same a b && observer_deps_same a b
  && page_deps_same a b.

(** Render until no effect has anything left to do.  [prev] is the state
    of the last render whose effects ran.  A render that changes no
    dependency runs no effect and ends the loop. *)
Fixpoint render_loop (fuel : nat) (prev : State) (w : World) : World :=
  match fuel with
  | O => w
  | S fuel' =>
      if deps_same prev (st w) then w
      else render_loop fuel' (st w) (run_effects prev (st w) w)
  end.

(** Three rounds are always enough, see [render_loop_settles]. *)
Definition commit (prev : State) (w : World) : World := render_loop 3 prev w.

(** First render: every effect runs once. *)
Definition mount (ls : Storage) : World :=
  let s0 := initial_state ls in
  let w := mkWorld s0 ls 0%nat None None ∅ ∅ 0%nat [] in
  let w := effect_tab s0 w in
  let w := effect_search s0 w in
  let w := effect_observer s0 w in
  let w := effect_page s0 w in
  commit s0 w.

(** ** Events *)

(** Modelled from the spec: the backend is not part of the repository.
    The payload of a 2xx reply has the type the REST contract (section 6)
    gives its endpoint: a token for the login, rows for the list, an object
    for the stats, the row for a create or a return, nothing for an update
    or a delete. *)
Inductive Event : Type :=
  | EvTick (ms : nat)                                   (* time passes *)
  | EvUsername (text : string)
  | EvPassword (text : string)
  | EvSubmitLogin
  | EvLogout
  | EvSetActiveTab (tab : string)                       (* a tab button *)
  | EvSetSearch (text : string)                         (* the search box *)
  | EvIntersection (isIntersecting : bool)              (* observer callback *)
  | EvTimeout                                           (* the debounce timer *)
  | EvAddItems (answer : option (list N)) (ok : bool)
  | EvUpdateItem (id : JSVal) (field : string) (value : JSVal)
  | EvDeleteItem (id : JSVal) (ok : bool)
  | EvReturnItem (id : JSVal) (ok : bool)
  | EvLoginReply (rid : nat) (r : HttpResult string)
  | EvItemsReply (rid : nat) (r : HttpResult (list Item))
  | EvStatsReply (rid : nat) (r : HttpResult Stats)
  | EvCreateReply (rid : nat) (r : HttpResult Item)
  | EvUpdateReply (rid : nat) (r : HttpResult unit)
  | EvDeleteReply (rid : nat) (r : HttpResult unit)
  | EvReturnReply (rid : nat) (r : HttpResult Item).

(** The promise of request [rid] settles with [res]: it leaves the pending
    set and passes the response interceptor. *)
Definition settled {A} (rid : nat) (res : A + AxiosError) (w : World) : World :=
  intercept res (set_inflight (delete rid (inflight w)) w).

(** The handler of an event, run against the closures of the last render.
    A timer that is not due, an observer that does not exist and a reply
    to a request that is not pending (or of another endpoint) cannot
    happen and leave the world as it is. *)
Definition handle (e : Event) (w : World) : World :=
  let snap := st w in
  match e with
  | EvTick ms => set_clock (clock w + ms)%nat w
  | EvUsername text => setState (setUsername text) w
  | EvPassword text => setState (setPassword text) w
  | EvSubmitLogin => handleLogin snap w
  | EvLogout => handleLogout w
  | EvSetActiveTab tab => setState (setActiveTab tab) w
  | EvSetSearch text => setState (setSearch text) w
  | EvIntersection b =>
      match observer w with
      | Some osnap => observer_callback osnap b w
      | None => w
      end
  | EvTimeout =>
      match timer w with
      | Some (due, tsnap) =>
          if (due <=? clock w)%nat
          then debounce_callback tsnap (set_timer None w)
          else w
      | None => w
      end
  | EvAddItems answer ok => addItems snap answer ok w
  | EvUpdateItem id field value => updateItem snap id field value w
  | EvDeleteItem id ok => deleteItem snap id ok w
  | EvReturnItem id ok => returnItem snap id ok w
  | EvLoginReply rid r =>
      match inflight w !! rid with
      | Some KLogin => handleLogin_then (settle r) (settled rid (settle r) w)
      | _ => w
      end
  | EvItemsReply rid r =>
      match inflight w !! rid with
      | Some (KFetchItems reset) =>
          fetchItems_then reset (settle r) (settled rid (settle r) w)
      | _ => w
      end
  | EvStatsReply rid r =>
      match inflight w !! rid with
      | Some KFetchStats => fetchStats_then (settle r) (settled rid (settle r) w)
      | _ => w
      end
  | EvCreateReply rid r =>
      match inflight w !! rid with
      | Some (KAddItems b) => addItems_then b rid (settle r) (settled rid (settle r) w)
      | _ => w
      end
  | EvUpdateReply rid r =>
      match inflight w !! rid with
      | Some (KUpdateItem tab field) =>
          updateItem_then tab field (settle r) (settled rid (settle r) w)
      | _ => w
      end
  | EvDeleteReply rid r =>
      match inflight w !! rid with
      | Some (KDeleteItem tab id) =>
          deleteItem_then tab id (settle r) (settled rid (settle r) w)
      | _ => w
      end
  | EvReturnReply rid r =>
      match inflight w !! rid with
      | Some (KReturnItem tab id) =>
          returnItem_then tab id (settle r) (settled rid (settle r) w)
      | _ => w
      end
  end.

Definition step (e : Event) (w : World) : World :=
  commit (st w) (handle e w).

Definition run (es : list Event) (w : World) : World :=
  fold_left (fun w e => step e w) es w.

(** ** Reading the world *)

Definition is_list_request (e : Effect) : bool :=
  match e with ERequest _ _ (GetItems _ _ _ _) => true | _ => false end.
Definition is_stats_request (e : Effect) : bool :=
  match e with ERequest _ _ (GetStats _) => true | _ => false end.
Definition is_request (e : Effect) : bool :=
  match e with ERequest _ _ _ => true | _ => false end.

Definition is_list_kont (k : Kont) : bool :=
  match k with KFetchItems _ => true | _ => false end.

(** The list fetches in flight. *)
Definition list_fetches_in_flight (w : World) : nat :=
  length (List.filter (fun p => is_list_kont (snd p)) (map_to_list (inflight w))).

(** A token is stored and nothing has been typed or fetched yet. *)
Definition logged_in_storage : Storage := {[ "token" := "t0k3n" ]}.

(** The status of the reply an event delivers. *)
Definition reply_status (e : Event) : option nat :=
  let status {A} (r : HttpResult A) : option nat :=
    match r with Response s _ => Some s | NetworkError => None end in
  match e with
  | EvLoginReply _ r => status r
  | EvItemsReply _ r => status r
  | EvStatsReply _ r => status r
  | EvCreateReply _ r => status r
  | EvUpdateReply _ r => status r
  | EvDeleteReply _ r => status r
  | EvReturnReply _ r => status r
  | _ => None
  end.

(** The reply answers a request that is in flight, on its own endpoint. *)
Definition answers_request (e : Event) (w : World) : bool :=
  match e with
  | EvLoginReply rid _ =>
      match inflight w !! rid with Some KLogin => true | _ => false end
  | EvItemsReply rid _ =>
      match inflight w !! rid with Some (KFetchItems _) => true | _ => false end
  | EvStatsReply rid _ =>
      match inflight w !! rid with Some KFetchStats => true | _ => false end
  | EvCreateReply rid _ =>
      match inflight w !! rid with Some (KAddItems _) => true | _ => false end
  | EvUpdateReply rid _ =>
      match inflight w !! rid with Some (KUpdateItem _ _) => true | _ => false end
  | EvDeleteReply rid _ =>
      match inflight w !! rid with Some (KDeleteItem _ _) => true | _ => false end
  | EvReturnReply rid _ =>
      match inflight w !! rid with Some (KReturnItem _ _) => true | _ => false end
  | _ => false
  end.

(** ** Reading the log between two worlds *)

(** What was emitted on the way from [w] to [w']. *)
Definition log_since (w w' : World) : list Effect :=
  drop (length (log w)) (log w').

Definition requests_since (w w' : World) : list Effect :=
  List.filter is_request (log_since w w').

Definition succeeded {A} (r : HttpResult A) : bool :=
  match settle r with inl _ => true | inr _ => false end.

(** A page showing one unsold row, nothing in flight. *)
Definition one_row : Item :=
  {[ "id" := JNum 1; "fio" := JStr ""; "purchase_price" := JNum 0 ]}.

Definition one_row_world : World :=
  run [EvItemsReply 0 (Response 200 [one_row]); EvStatsReply 1 (Response 200 ∅)]
      (mount logged_in_storage).

(** The requests the loop of [addItems] sends from [w]. *)
Definition post_requests (tab : string) (w : World) (count : nat) : list Effect :=
  map (fun i => ERequest (next_id w + i)%nat (request_interceptor (storage w)) (PostItem tab))
      (seq 0 count).


(** ** Worlds the page can be in *)

Definition reachable (w : World) : Prop := ∃ ls es, w = run es (mount ls).

(** The observer's closure agrees with the state [s] on what its callback
    reads, and there is an observer exactly when [s] is logged in. *)
Definition observer_matches (s : State) (w : World) : Prop :=
  match observer w with
  | Some o => isLoggedIn s = true ∧ hasMore o = hasMore s ∧ loading o = loading s
  | None => isLoggedIn s = false
  end.

Definition observer_fresh (w : World) : Prop := observer_matches (st w) w.

(** The events that can run the body of the tab effect or the debounce
    callback, the two places that set [hasMore] to true: a tab button, a
    successful login, the debounce timer. *)
Definition runs_reset (e : Event) : bool :=
  match e with
  | EvSetActiveTab _ | EvLoginReply _ _ | EvTimeout => true
  | _ => false
  end.

Definition is_tab_or_search_change (e : Event) : bool :=
  match e with
  | EvSetActiveTab _ | EvSetSearch _ => true
  | _ => false
  end.

Definition list_requests (w : World) : list Effect :=
  List.filter is_list_request (log w).

(** ** The debounce timer *)

(** The timer exists and its delay has elapsed: the browser may run its
    callback now. *)
Definition timer_due (w : World) : bool :=
  match timer w with
  | Some (due, _) => (due <=? clock w)%nat
  | None => false
  end.

Definition is_search_input (e : Event) : bool :=
  match e with EvSetSearch _ => true | _ => false end.

(** ** Replies to the POSTs of [addItems] *)

Definition is_alert (e : Effect) : bool :=
  match e with EAlert _ => true | _ => false end.

Definition create_replies (rs : list (nat * HttpResult Item)) : list Event :=
  map (fun p => EvCreateReply (fst p) (snd p)) rs.

(** A page with one row on which "3" was answered to the prompt of
    [addItems]: POSTs 2, 3 and 4 are in flight. *)
Definition adding_three : World :=
  step (EvAddItems (Some (code_units "3")) true) one_row_world.

Definition new_row (id : Z) : Item := {[ "id" := JNum id ]}.

(** What the response interceptor adds to the log. *)
Definition reload_log {A} (res : A + AxiosError) (ls : Storage) : list Effect :=
  match res with
  | inr e => if snd (response_interceptor e ls) then [EReload] else []
  | inl _ => []
  end.

(** ** Rows as the handlers rewrite them *)

(** The row [updateItem(id, field, value)] makes of [item]. *)
Definition patched (id : JSVal) (field : string) (value : JSVal) (item : Item) : Item :=
  if strict_eq (prop "id" item) id then spread_set item field value else item.

(** The row [returnItem(id)] makes of [i] once the server answered [data]. *)
Definition returned (id : JSVal) (data : Item) (i : Item) : Item :=
  if strict_eq (prop "id" i) id then data else i.

(** ** Events by what they can touch *)

Definition is_stats_reply (e : Event) : bool :=
  match e with EvStatsReply _ _ => true | _ => false end.

(** The reply carries status 401 or 403. *)
Definition unauthorized {A} (r : HttpResult A) : bool :=
  match r with
  | Response status _ => bool_decide (status = 401%nat) || bool_decide (status = 403%nat)
  | NetworkError => false
  end.

(** The events after which localStorage can differ: a logout, a login
    that succeeded, any reply with status 401 or 403. *)
Definition touches_credentials (e : Event) : bool :=
  match e with
  | EvLogout => true
  | EvLoginReply _ r => succeeded r || unauthorized r
  | EvItemsReply _ r => unauthorized r
  | EvStatsReply _ r => unauthorized r
  | EvCreateReply _ r => unauthorized r
  | EvUpdateReply _ r => unauthorized r
  | EvDeleteReply _ r => unauthorized r
  | EvReturnReply _ r => unauthorized r
  | _ => false
  end.

Definition is_reload (e : Effect) : bool :=
  match e with EReload => true | _ => false end.

Definition reloads (w : World) : list Effect := List.filter is_reload (log w).

(** ** What [loading] stands for *)

(** A list request is in flight. *)
Definition list_fetch_pending (w : World) : Prop :=
  ∃ rid reset, inflight w !! rid = Some (KFetchItems reset).

(** A [Promise.all] of [addItems] is pending and one of its POSTs, not
    answered yet, is in flight. *)
Definition batch_waiting (w : World) : Prop :=
  ∃ b B rid,
    batches w !! b = Some B ∧ batch_settled B = false
    ∧ rid ∈ batch_requests B ∧ batch_results B !! rid = None
    ∧ inflight w !! rid = Some (KAddItems b).

(** The bookkeeping every reachable world keeps: request ids are fresh,
    the unanswered POSTs of a pending batch are in flight and there is at
    least one, and [loading] is only set while a list request or a batch
    is pending. *)
Record bookkeeping (w : World) : Prop := mkBookkeeping {
  ids_fresh : ∀ rid k, inflight w !! rid = Some k → (rid < next_id w)%nat;
  batch_in_flight : ∀ b B rid,
    batches w !! b = Some B → batch_settled B = false →
    rid ∈ batch_requests B → batch_results B !! rid = None →
    inflight w !! rid = Some (KAddItems b);
  batch_open : ∀ b B,
    batches w !! b = Some B → batch_settled B = false →
    ∃ rid, rid ∈ batch_requests B ∧ batch_results B !! rid = None;
  loading_pending :
    loading (st w) = true →
    list_fetch_pending w ∨ ∃ b B, batches w !! b = Some B ∧ batch_settled B = false
}.

(** * Properties *)

(** ** [parseInt] on some answers *)

Example parseInt_0 : parseInt (code_units "0") = Finite 0.
Proof. reflexivity. Qed.
Example parseInt_neg3 : parseInt (code_units "-3") = Finite (-3).
Proof. reflexivity. Qed.
Example parseInt_abc : parseInt (code_units "abc") = NaN.
Proof. reflexivity. Qed.
Example parseInt_empty : parseInt (code_units "") = NaN.
Proof. reflexivity. Qed.
Example parseInt_12px : parseInt (code_units "  12px") = Finite 12.
Proof. reflexivity. Qed.
Example parseInt_hex : parseInt (code_units "0x1F") = Finite 31.
Proof. reflexivity. Qed.
Example parseInt_250 : parseInt (code_units "250") = Finite 250.
Proof. reflexivity. Qed.

(** Above 2^53 the count is the nearest double, and the template prints
    the shortest digits that denote it. *)
Example parseInt_2_53_plus_1 :
  parseInt (code_units "9007199254740993") = Finite 9007199254740992.
Proof. vm_compute. reflexivity. Qed.
Example parseInt_tie_to_even :
  parseInt (code_units "9007199254740995") = Finite 9007199254740996.
Proof. vm_compute. reflexivity. Qed.
Example parseInt_20_digits :
  parseInt (code_units "12345678901234567890") = Finite 12345678901234567168
  ∧ Number_toString (Finite 12345678901234567168) = "12345678901234567000".
Proof. split; vm_compute; reflexivity. Qed.
Example parseInt_10_21 :
  parseInt (code_units "1000000000000000000000") = Finite (10 ^ 21)
  ∧ Number_toString (Finite (10 ^ 21)) = "1e+21".
Proof. split; vm_compute; reflexivity. Qed.
Example toString_2_70 :
  Number_toString (Number_of_Z (2 ^ 70)) = "1.1805916207174113e+21".
Proof. vm_compute. reflexivity. Qed.
Example toString_largest :
  Number_toString (Number_of_Z (2 ^ 1024 - 2 ^ 970 - 1)) = "1.7976931348623157e+308".
Proof. vm_compute. reflexivity. Qed.
Example Number_of_Z_overflow :
  Number_of_Z (2 ^ 1024 - 2 ^ 970) = Infinity false
  ∧ Number_of_Z (- 10 ^ 309) = Infinity true.
Proof. split; vm_compute; reflexivity. Qed.
Example toString_small : Number_toString (Finite 101) = "101".
Proof. vm_compute. reflexivity. Qed.

#[global] Arguments Number_toString : simpl never.
#[global] Arguments confirm_message : simpl never.
#[global] Arguments max_array_length : simpl never.
#[global] Arguments loop_posts : simpl never.
#[global] Arguments loop_throws : simpl never.

(** ** Unfolding hints

    [autounfold with effects] opens the four effects, [autounfold with
    handlers] the code that runs when an event arrives. *)

Create HintDb effects.
Create HintDb handlers.

#[local] Hint Unfold run_effects effect_tab effect_search effect_observer
  effect_page fetchItems fetchStats : effects.

#[local] Hint Unfold handleLogin_then fetchItems_then fetchStats_then
  addItems_then updateItem_then deleteItem_then returnItem_then settled
  intercept observer_callback debounce_callback fetchItems addItems
  deleteItem returnItem fetchStats : handlers.

(** ** The render loop *)

Lemma run_effects_frame prev snap w :
  isLoggedIn (st (run_effects prev snap w)) = isLoggedIn (st w)
  ∧ activeTab (st (run_effects prev snap w)) = activeTab (st w)
  ∧ search (st (run_effects prev snap w)) = search (st w)
  ∧ (page (st (run_effects prev snap w)) = page (st w)
     ∨ page (st (run_effects prev snap w)) = 0%nat).
Proof.
  autounfold with effects.
  repeat case_match; cbn; auto.
Qed.

Lemma deps_same_refl s : deps_same s s = true.
Proof.
  unfold deps_same, tab_deps_same, search_deps_same, observer_deps_same, page_deps_same.
  rewrite !bool_decide_eq_true_2; done.
Qed.

Lemma run_effects_second_round prev s w :
  let w1 := run_effects prev s w in
  s = st w →
  st (run_effects s (st w1) w1) = st w1.
Proof.
  intros w1 Hs.
  destruct (run_effects_frame prev s w) as (Hl & Ht & Hq & Hp).
  fold w1 in Hl, Ht, Hq, Hp. rewrite <- Hs in *.
  unfold run_effects at 1.
  unfold tab_deps_same, search_deps_same, page_deps_same.
  rewrite Hl, Ht, Hq.
  rewrite (bool_decide_eq_true_2 (activeTab s = activeTab s)) by done.
  rewrite (bool_decide_eq_true_2 (isLoggedIn s = isLoggedIn s)) by done.
  rewrite (bool_decide_eq_true_2 (search s = search s)) by done.
  cbn [andb].
  assert (Ho : ∀ x, st (if observer_deps_same s (st w1) then x else effect_observer (st w1) x) = st x)
    by (intros x; unfold effect_observer; destruct (observer_deps_same s (st w1)); reflexivity).
  case_bool_decide as Hpg; [by rewrite Ho|].
  unfold effect_page. destruct Hp as [Hp|Hp]; [congruence|].
  rewrite Hp. cbn. by rewrite Ho.
Qed.

Lemma render_loop_settles n prev w :
  render_loop (3 + n) prev w = render_loop 3 prev w.
Proof.
  cbn [Nat.add render_loop].
  destruct (deps_same prev (st w)); [done|].
  destruct (deps_same (st w) (st (run_effects prev (st w) w))); [done|].
  rewrite (run_effects_second_round prev (st w) w eq_refl), deps_same_refl.
  destruct n; cbn [render_loop]; by rewrite ?deps_same_refl.
Qed.

(** After the effects of a render have run, the next render can only find
    the observer's dependencies changed (a page change made by an effect
    is a change to 0, where the page effect does nothing). *)
Lemma run_effects_again prev w :
  let w1 := run_effects prev (st w) w in
  run_effects (st w) (st w1) w1
  = if observer_deps_same (st w) (st w1) then w1 else effect_observer (st w1) w1.
Proof.
  intros w1.
  destruct (run_effects_frame prev (st w) w) as (Hl & Ht & Hq & Hp).
  fold w1 in Hl, Ht, Hq, Hp.
  unfold run_effects at 1.
  unfold tab_deps_same, search_deps_same, page_deps_same.
  rewrite Hl, Ht, Hq.
  rewrite (bool_decide_eq_true_2 (activeTab (st w) = activeTab (st w))) by done.
  rewrite (bool_decide_eq_true_2 (isLoggedIn (st w) = isLoggedIn (st w))) by done.
  rewrite (bool_decide_eq_true_2 (search (st w) = search (st w))) by done.
  cbn [andb].
  case_bool_decide as Hpg; [done|].
  destruct Hp as [Hp|Hp]; [congruence|].
  unfold effect_page. rewrite Hp. cbn.
  unfold effect_observer. by destruct (observer_deps_same (st w) (st w1)).
Qed.

(** [commit] in closed form: at most one round of effects, then at most a
    new observer. *)
Lemma commit_unfold prev w :
  commit prev w =
  if deps_same prev (st w) then w
  else
    let w1 := run_effects prev (st w) w in
    if observer_deps_same (st w) (st w1) then w1 else effect_observer (st w1) w1.
Proof.
  unfold commit. cbn [render_loop].
  destruct (deps_same prev (st w)); [done|]. cbn zeta.
  pose proof (run_effects_again prev w) as Hag. cbn zeta in Hag.
  pose proof (run_effects_second_round prev (st w) w eq_refl) as Hst. cbn zeta in Hst.
  rewrite Hst, deps_same_refl, Hag.
  destruct (deps_same (st w) (st (run_effects prev (st w) w))) eqn:Hd; [|done].
  unfold deps_same in Hd.
  destruct (observer_deps_same (st w) (st (run_effects prev (st w) w))); [done|].
  by rewrite !andb_false_r in Hd.
Qed.
(** ** The response interceptor *)

Lemma response_interceptor_401_403 status ls :
  status = 401%nat ∨ status = 403%nat →
  response_interceptor (mkError (Some status)) ls
  = (removeItem "isLoggedIn" (removeItem "token" ls), true).
Proof. intros [->| ->]; reflexivity. Qed.

Lemma settle_401_403 {A} status (data : A) :
  status = 401%nat ∨ status = 403%nat →
  settle (Response status data) = inr (mkError (Some status)).
Proof. intros [->| ->]; reflexivity. Qed.

Lemma storage_commit prev w : storage (commit prev w) = storage w.
Proof.
  rewrite commit_unfold.
  autounfold with effects.
  repeat case_match; reflexivity.
Qed.

Lemma log_commit_prefix prev w : ∃ l, log (commit prev w) = log w ++ l.
Proof.
  rewrite commit_unfold.
  autounfold with effects.
  repeat case_match; cbn; rewrite <- ?app_assoc; eauto using app_nil_r.
  all: by exists [].
Qed.

Lemma view_mount_logged_out ls :
  getItem "token" ls = None → view (st (mount ls)) = LoginView.
Proof.
  intros H. unfold mount, initial_state. rewrite H. reflexivity.
Qed.

(** C1.  Whatever request a response with status 401 or 403 answers, its
    settling removes the token and the login flag from localStorage and
    calls [window.location.reload()]; the reloaded page, mounted on the
    storage left behind, shows the login view. *)
Theorem unauthorized_reply_logs_out (e : Event) (w : World) (status : nat) :
  answers_request e w = true →
  reply_status e = Some status →
  status = 401%nat ∨ status = 403%nat →
  let w' := step e w in
  getItem "token" (storage w') = None
  ∧ getItem "isLoggedIn" (storage w') = None
  ∧ EReload ∈ log w'
  ∧ view (st (mount (storage w'))) = LoginView.
Proof.
  intros Ha Hs Hcode w'.
  assert (Hsto : storage w' = removeItem "isLoggedIn" (removeItem "token" (storage w))
                 ∧ EReload ∈ log (handle e w)).
  { unfold w', step. rewrite storage_commit.
    destruct e; try discriminate Ha; cbn in Ha, Hs;
      destruct r as [|s d]; try discriminate Hs; injection Hs as ->;
      cbn [handle]; destruct (inflight w !! rid) as [[]|]; try discriminate Ha;
      rewrite (settle_401_403 status _ Hcode);
      unfold settled, intercept; rewrite (response_interceptor_401_403 status _ Hcode);
      unfold addItems_then; cbn; repeat case_match; cbn;
      (split; [reflexivity|]);
      rewrite ?elem_of_app, ?list_elem_of_singleton; tauto. }
  destruct Hsto as [Hsto Hlog].
  assert (Htok : getItem "token" (storage w') = None).
  { rewrite Hsto. unfold getItem, removeItem.
    rewrite lookup_delete_ne by done. apply lookup_delete_eq. }
  repeat split.
  - exact Htok.
  - rewrite Hsto. apply lookup_delete_eq.
  - unfold w', step. destruct (log_commit_prefix (st w) (handle e w)) as [l ->].
    apply elem_of_app. by left.
  - by apply view_mount_logged_out.
Qed.

Lemma unauthorized_reply_logs_out_witness :
  let w' := step (EvItemsReply 0 (Response 401 [])) (mount logged_in_storage) in
  getItem "token" (storage w') = None
  ∧ getItem "isLoggedIn" (storage w') = None
  ∧ EReload ∈ log w'
  ∧ view (st (mount (storage w'))) = LoginView.
Proof.
  apply (unauthorized_reply_logs_out _ _ 401);
    [vm_compute; reflexivity | reflexivity | left; reflexivity].
Defined.

(** ** Handlers that touch no dependency of an effect *)

Lemma commit_same prev w : deps_same prev (st w) = true → commit prev w = w.
Proof. intros H. rewrite commit_unfold. by rewrite H. Qed.

Lemma log_since_app w w' l : log w' = log w ++ l → log_since w w' = l.
Proof. intros H. unfold log_since. rewrite H. apply drop_app_length. Qed.

Lemma deps_same_intro a b :
  activeTab a = activeTab b → isLoggedIn a = isLoggedIn b → search a = search b →
  hasMore a = hasMore b → loading a = loading b → page a = page b →
  deps_same a b = true.
Proof.
  intros. unfold deps_same, tab_deps_same, search_deps_same, observer_deps_same,
    page_deps_same.
  repeat (rewrite bool_decide_eq_true_2 by assumption). reflexivity.
Qed.

(** Closes [deps_same a b = true] when [b] is [a] with other cells set. *)
Ltac same_deps := apply deps_same_intro; reflexivity.

(** Rewrites [log_since w w'] to [l] when the log of [w'] computes to the
    log of [w] followed by [l]. *)
Ltac since l :=
  rewrite (log_since_app _ _ l)
    by (cbn; rewrite <- ?app_assoc, ?app_nil_r; reflexivity).

(** ** [updateItem] *)

Lemma step_updateItem w id field value :
  step (EvUpdateItem id field value) w = updateItem (st w) id field value w.
Proof. unfold step. apply commit_same. same_deps. Qed.

Lemma step_update_reply w rid tab field r :
  inflight w !! rid = Some (KUpdateItem tab field) →
  step (EvUpdateReply rid r) w
  = updateItem_then tab field (settle r) (settled rid (settle r) w).
Proof.
  intros H. unfold step. cbn [handle]. rewrite H.
  apply commit_same.
  unfold updateItem_then, settled, intercept, fetchStats.
  repeat case_match; same_deps.
Qed.

(** C3 (amended).  [updateItem(id, field, value)] patches the rows whose id
    matches at once, while its PUT is still pending.  When the PUT settles,
    exactly one request follows, the stats refetch, if the PUT succeeded
    and the field is a price or the sold date; otherwise none follows. *)
Theorem updateItem_patch_and_stats :
  (∀ w id field value,
     let w1 := step (EvUpdateItem id field value) w in
     items (st w1)
     = map (fun item => if strict_eq (prop "id" item) id
                        then spread_set item field value else item) (items (st w))
     ∧ log_since w w1
       = [ERequest (next_id w) (request_interceptor (storage w)) (PutItem id field value)]
     ∧ inflight w1 !! next_id w = Some (KUpdateItem (activeTab (st w)) field))
  ∧ (∀ w rid tab field r,
       inflight w !! rid = Some (KUpdateItem tab field) →
       let w2 := step (EvUpdateReply rid r) w in
       items (st w2) = items (st w)
       ∧ requests_since w w2
         = if succeeded r && bool_decide (field ∈ stats_fields)
           then [ERequest (next_id w) (request_interceptor (storage w)) (GetStats tab)]
           else []).
Proof.
  split.
  - intros w id field value w1. unfold w1. rewrite step_updateItem.
    unfold updateItem. cbn. repeat split.
    + by since [ERequest (next_id w) (request_interceptor (storage w))
                  (PutItem id field value)].
    + apply lookup_insert_eq.
  - intros w rid tab field r Hin w2. unfold w2.
    rewrite (step_update_reply _ _ _ _ _ Hin).
    unfold requests_since, succeeded, updateItem_then, settled, intercept, fetchStats.
    destruct (settle r) as [[]|e]; cbn [andb].
    + case_bool_decide; cbn.
      * split; [done|].
        by since [ERequest (next_id w) (request_interceptor (storage w)) (GetStats tab)].
      * split; [done|]. by since (@nil Effect).
    + cbn. destruct (response_interceptor e (storage w)) as [ls [|]]; cbn.
      * split; [done|].
        by since [EReload; EConsoleError].
      * split; [done|]. by since [EConsoleError].
Qed.

Lemma updateItem_patch_and_stats_witness :
  let w := step (EvUpdateItem (JNum 1) "sale_price" (JStr "7")) one_row_world in
  let w2 := step (EvUpdateReply 2 (Response 200 ())) w in
  items (st w2) = items (st w)
  ∧ requests_since w w2
    = if succeeded (Response 200 ()) && bool_decide ("sale_price" ∈ stats_fields)
      then [ERequest (next_id w) (request_interceptor (storage w)) (GetStats "yangi")]
      else [].
Proof.
  apply (proj2 updateItem_patch_and_stats). vm_compute. reflexivity.
Defined.

(** C3 as stated fails: the PUT of a price edit is rejected, and no stats
    refetch follows although the field is a price. *)
Lemma updateItem_failed_put_no_stats :
  let w := step (EvUpdateItem (JNum 1) "purchase_price" (JStr "500000")) one_row_world in
  let w2 := step (EvUpdateReply 2 NetworkError) w in
  "purchase_price" ∈ stats_fields
  ∧ inflight w !! 2%nat = Some (KUpdateItem "yangi" "purchase_price")
  ∧ List.filter is_stats_request (log_since one_row_world w2) = [].
Proof.
  split; [apply list_elem_of_here|]. split; vm_compute; reflexivity.
Qed.

(** ** [deleteItem] *)

Lemma step_deleteItem w id ok :
  step (EvDeleteItem id ok) w = deleteItem (st w) id ok w.
Proof.
  unfold step. apply commit_same. cbn. unfold deleteItem. destruct ok; same_deps.
Qed.

Lemma step_delete_reply w rid tab id r :
  inflight w !! rid = Some (KDeleteItem tab id) →
  step (EvDeleteReply rid r) w
  = deleteItem_then tab id (settle r) (settled rid (settle r) w).
Proof.
  intros H. unfold step. cbn [handle]. rewrite H.
  apply commit_same.
  unfold deleteItem_then, settled, intercept, fetchStats.
  repeat case_match; same_deps.
Qed.

(** C9.  Once the DELETE that a confirmed [deleteItem(id)] sent has
    succeeded, the list is the previous list without the rows whose id is
    [id]: the rows kept are exactly the others, each as it was and in the
    order they had. *)
Theorem deleteItem_removes_matching_rows w rid tab id r :
  inflight w !! rid = Some (KDeleteItem tab id) →
  succeeded r = true →
  let before := items (st w) in
  let after := items (st (step (EvDeleteReply rid r) w)) in
  after = filter (fun i => prop "id" i ≠ id) before
  ∧ (∀ i, i ∈ after ↔ i ∈ before ∧ prop "id" i ≠ id)
  ∧ sublist after before
  ∧ inflight (step (EvDeleteItem id true) w) !! next_id w
    = Some (KDeleteItem (activeTab (st w)) id).
Proof.
  intros Hin Hok before after.
  assert (Hafter : after = filter (fun i => prop "id" i ≠ id) before).
  { unfold after. rewrite (step_delete_reply _ _ _ _ _ Hin).
    unfold succeeded in Hok. destruct (settle r) as [[]|]; [|discriminate].
    reflexivity. }
  rewrite Hafter. split; [reflexivity|]. split; [|split].
  - intros i. rewrite list_elem_of_filter. tauto.
  - apply sublist_filter.
  - rewrite step_deleteItem. cbn. apply lookup_insert_eq.
Qed.

Lemma deleteItem_removes_matching_rows_witness :
  let w := step (EvDeleteItem (JNum 1) true) one_row_world in
  let before := items (st w) in
  let after := items (st (step (EvDeleteReply 2 (Response 200 ())) w)) in
  after = filter (fun i => prop "id" i ≠ JNum 1) before
  ∧ (∀ i, i ∈ after ↔ i ∈ before ∧ prop "id" i ≠ JNum 1)
  ∧ sublist after before
  ∧ inflight (step (EvDeleteItem (JNum 1) true) w) !! next_id w
    = Some (KDeleteItem (activeTab (st w)) (JNum 1)).
Proof.
  apply (deleteItem_removes_matching_rows _ 2 "yangi" (JNum 1) (Response 200 ()));
    vm_compute; reflexivity.
Defined.

Example deleteItem_one_row :
  items (st (run [EvDeleteItem (JNum 1) true; EvDeleteReply 2 (Response 204 ())]
               one_row_world)) = [].
Proof. vm_compute. reflexivity. Qed.

(** ** Renders that only move the observer *)

Lemma observer_deps_same_refl s : observer_deps_same s s = true.
Proof.
  unfold observer_deps_same. by rewrite !bool_decide_eq_true_2.
Qed.

(** When neither the tab, the login state, the search text nor the page
    changed, the only effect that can run is the observer's. *)
Lemma commit_observer_only prev w :
  tab_deps_same prev (st w) = true →
  search_deps_same prev (st w) = true →
  page_deps_same prev (st w) = true →
  commit prev w
  = if observer_deps_same prev (st w) then w else effect_observer (st w) w.
Proof.
  intros Ht Hs Hp. rewrite commit_unfold. unfold deps_same, run_effects.
  rewrite Ht, Hs, Hp. cbn [andb]. rewrite andb_true_r.
  destruct (observer_deps_same prev (st w)); [done|].
  cbn. by rewrite observer_deps_same_refl.
Qed.

(** Closes the three side conditions of [commit_observer_only] when the
    handler leaves those cells alone. *)
Ltac quiet_deps :=
  unfold tab_deps_same, search_deps_same, page_deps_same; cbn;
  repeat (rewrite bool_decide_eq_true_2 by reflexivity); reflexivity.

(** ** [fetchItems] *)

Lemma fetchItems_guard snap pageNum reset w :
  loading snap = true → fetchItems snap pageNum reset w = w.
Proof. intros H. unfold fetchItems. by rewrite H. Qed.

Lemma fetchItems_passes snap pageNum reset w :
  loading snap = false →
  fetchItems snap pageNum reset w
  = axios (GetItems (activeTab snap) limit (pageNum * limit) (search snap))
      (KFetchItems reset) (setState (setLoading true) w).
Proof. intros H. unfold fetchItems. by rewrite H. Qed.

Lemma step_items_reply w rid reset r :
  inflight w !! rid = Some (KFetchItems reset) →
  let w1 := fetchItems_then reset (settle r) (settled rid (settle r) w) in
  step (EvItemsReply rid r) w
  = if observer_deps_same (st w) (st w1) then w1 else effect_observer (st w1) w1.
Proof.
  intros H w1. unfold step. cbn [handle]. rewrite H. fold w1.
  apply commit_observer_only; unfold w1, fetchItems_then, settled, intercept;
    repeat case_match; quiet_deps.
Qed.

(** The [finally] of [fetchItems].  A call that passes the guard leaves a
    pending list request behind.  When that request settles, with rows,
    with an error status or with no response at all, [loading] is false
    again, and a [fetchItems] call of the component as then rendered
    passes the guard and sends its request. *)
Lemma fetchItems_releases_guard :
  (∀ snap pageNum reset w,
     loading snap = false →
     inflight (fetchItems snap pageNum reset w) !! next_id w = Some (KFetchItems reset)
     ∧ loading (st (fetchItems snap pageNum reset w)) = true)
  ∧ (∀ w rid reset (r : HttpResult (list Item)),
       inflight w !! rid = Some (KFetchItems reset) →
       let w' := step (EvItemsReply rid r) w in
       loading (st w') = false
       ∧ ∀ pageNum reset',
           log_since w' (fetchItems (st w') pageNum reset' w')
           = [ERequest (next_id w') (request_interceptor (storage w'))
                (GetItems (activeTab (st w')) limit (pageNum * limit) (search (st w')))]).
Proof.
  split.
  - intros snap pageNum reset w Hl. rewrite fetchItems_passes by done. cbn.
    split; [apply lookup_insert_eq | reflexivity].
  - intros w rid reset r Hin w'.
    assert (Hl : loading (st w') = false).
    { unfold w'. rewrite (step_items_reply _ _ _ _ Hin).
      unfold fetchItems_then, effect_observer. repeat case_match; reflexivity. }
    split; [exact Hl|]. intros pageNum reset'.
    rewrite fetchItems_passes by done.
    by since [ERequest (next_id w') (request_interceptor (storage w'))
                (GetItems (activeTab (st w')) limit (pageNum * limit) (search (st w')))].
Qed.

(** C10 (defect).  The [finally] of [fetchItems] clears the [loading]
    cell, but the guard of a closure created while the request was
    pending still reads true.  "ali" is typed while the first list fetch
    is pending, which arms the debounce timer with the closure of that
    render; the fetch then fails, [loading] is false and no list fetch is
    in flight.  When the timer fires, its callback empties the list and
    its [fetchItems] call returns at the guard: nothing is fetched for
    "ali", although nothing is pending. *)
Theorem failed_fetch_still_blocks_debounce :
  let w0 := mount logged_in_storage in
  let w1 := step (EvSetSearch "ali") w0 in
  let w2 := step (EvItemsReply 0 (Response 500 [])) w1 in
  let w3 := step (EvTick 500) w2 in
  let w4 := step EvTimeout w3 in
  loading (st w1) = true
  ∧ loading (st w2) = false
  ∧ list_fetches_in_flight w2 = 0%nat
  ∧ timer_due w3 = true
  ∧ log_since w3 w4 = []
  ∧ timer w4 = None
  ∧ search (st w4) = "ali"
  ∧ items (st w4) = []
  ∧ loading (st w4) = false
  ∧ list_fetches_in_flight w4 = 0%nat.
Proof. repeat split; vm_compute; reflexivity. Qed.

(** The same text, typed after the failure, is fetched. *)
Example search_after_failure_is_fetched :
  let w2 := run [EvItemsReply 0 (Response 500 []); EvSetSearch "ali"; EvTick 500]
              (mount logged_in_storage) in
  requests_since w2 (step EvTimeout w2)
  = [ERequest 2 (Some "Bearer t0k3n") (GetItems "yangi" 500 0 "ali")].
Proof. vm_compute. reflexivity. Qed.

(** A failed first fetch does not block the one the debounce sends. *)
Example fetch_after_failure :
  requests_since (mount logged_in_storage)
    (run [EvItemsReply 0 (Response 500 []); EvTick 500; EvTimeout]
       (mount logged_in_storage))
  = [ERequest 2 (Some "Bearer t0k3n") (GetItems "yangi" 500 0 "")].
Proof. vm_compute. reflexivity. Qed.

(** ** [addItems]: the prompt *)

Lemma post_items_spec tab b count w :
  let w' := post_items tab b count w in
  st w' = st w ∧ storage w' = storage w ∧ batches w' = batches w
  ∧ clock w' = clock w ∧ timer w' = timer w ∧ observer w' = observer w
  ∧ next_id w' = (next_id w + count)%nat
  ∧ log w' = log w ++ post_requests tab w count.
Proof.
  revert w. induction count as [|n IH]; intros w; cbn zeta.
  - cbn. rewrite Nat.add_0_r, app_nil_r. done.
  - cbn [post_items].
    destruct (IH (axios (PostItem tab) (KAddItems b) w))
      as (Hst & Hsto & Hb & Hc & Ht & Ho & Hn & Hl).
    rewrite Hst, Hsto, Hb, Hc, Ht, Ho, Hn, Hl. cbn.
    repeat (split; [reflexivity|]). split; [lia|].
    rewrite <- app_assoc. f_equal. unfold post_requests. cbn [seq map].
    rewrite Nat.add_0_r. cbn [app]. f_equal.
    rewrite <- seq_shift, map_map. apply map_ext. intros i. cbn.
    f_equal. lia.
Qed.

(** What the [try] block of [addItems] leaves behind. *)
Lemma addItems_try_spec snap count w :
  let w' := addItems_try snap count w in
  st w' = setLoading (negb (loop_throws count)) (st w)
  ∧ storage w' = storage w
  ∧ clock w' = clock w ∧ timer w' = timer w ∧ observer w' = observer w
  ∧ next_id w' = (next_id w + loop_posts count)%nat
  ∧ batches w'
    = <[next_id w := mkBatch (activeTab snap) (seq (next_id w) (loop_posts count)) ∅
                       (loop_throws count)]> (batches w)
  ∧ log w' = log w ++ post_requests (activeTab snap) w (loop_posts count)
               ++ (if loop_throws count then [EConsoleError; EAlert failure_message] else []).
Proof.
  unfold addItems_try. cbn zeta.
  replace (next_id (setState (setLoading true) w)) with (next_id w) by reflexivity.
  replace (batches (setState (setLoading true) w)) with (batches w) by reflexivity.
  destruct (loop_throws count);
    match goal with
    | |- context [post_items ?t ?b ?c ?w0] =>
        destruct (post_items_spec t b c w0) as (Hst & Hsto & Hb & Hc & Ht & Ho & Hn & Hl);
        set (wp := post_items t b c w0) in *
    end;
    cbn [st storage clock timer observer next_id batches log setState emit set_batches negb];
    rewrite ?Hst, ?Hsto, ?Hb, ?Hc, ?Ht, ?Ho, ?Hn, ?Hl;
    cbn [st storage clock timer observer next_id batches log setState emit set_batches];
    repeat (split; [reflexivity|]);
    unfold post_requests;
    cbn [st storage clock timer observer next_id batches log setState emit set_batches];
    rewrite <- ?app_assoc, ?app_nil_r; reflexivity.
Qed.

Lemma st_addItems_try snap count w :
  st (addItems_try snap count w) = setLoading (negb (loop_throws count)) (st w).
Proof. by destruct (addItems_try_spec snap count w) as (-> & _). Qed.

Lemma step_addItems w answer ok :
  let w1 := addItems (st w) answer ok w in
  step (EvAddItems answer ok) w
  = if observer_deps_same (st w) (st w1) then w1 else effect_observer (st w1) w1.
Proof.
  intros w1. unfold step. cbn [handle]. fold w1.
  assert (Hst : st w1 = st w ∨ ∃ b, st w1 = setLoading b (st w)).
  { unfold w1, addItems. repeat case_match; rewrite ?st_addItems_try; cbn; eauto. }
  apply commit_observer_only; destruct Hst as [-> | (b & ->)]; quiet_deps.
Qed.

(** The part of the world [addItems] leaves alone when it sends nothing. *)
Lemma addItems_rejected_input snap countStr ok w :
  (parseInt countStr = NaN
   ∨ (∃ n, parseInt countStr = Finite n ∧ n <= 0)
   ∨ parseInt countStr = Infinity true) →
  addItems snap (Some countStr) ok w
  = emit (EAlert invalid_count_message) (emit (EPrompt prompt_message "1") w).
Proof.
  intros [H | [(n & H & Hn) | H]]; unfold addItems; rewrite H; [done| |done].
  cbn. by rewrite (proj2 (Z.ltb_ge 0 n) Hn).
Qed.

(** Up to the largest array length the loop makes [n] turns and ends
    normally. *)
Lemma loop_in_range n :
  n <= max_array_length →
  loop_throws (Finite n) = false ∧ loop_posts (Finite n) = Z.to_nat n.
Proof.
  change max_array_length with 4294967295. intros Hn.
  unfold loop_throws, loop_posts, Number_ltb.
  change max_array_length with 4294967295.
  split; [apply Z.ltb_ge; lia | f_equal; lia].
Qed.

(** An answer above 100 is confirmed first. *)
Lemma addItems_large_count snap countStr ok w :
  ((∃ n, parseInt countStr = Finite n ∧ 100 < n) ∨ parseInt countStr = Infinity false) →
  addItems snap (Some countStr) ok w
  = let w1 := emit (EConfirm (confirm_message (parseInt countStr)))
                (emit (EPrompt prompt_message "1") w) in
    if ok then addItems_try snap (parseInt countStr) w1 else w1.
Proof.
  intros [(n & H & Hn) | H]; unfold addItems; rewrite H; [|done].
  cbn. rewrite (proj2 (Z.ltb_lt 100 n) Hn).
  by rewrite (proj2 (Z.ltb_lt 0 n)) by lia.
Qed.

(** What an accepted [addItems] logs for a count above 100, whatever the
    count: the prompt, the confirmation, one POST per turn of the loop
    and, when the array of promises overflows, the failure alert of the
    [catch]. *)
Lemma addItems_large_count_log w countStr :
  let count := parseInt countStr in
  ((∃ n, count = Finite n ∧ 100 < n) ∨ count = Infinity false) →
  log_since w (step (EvAddItems (Some countStr) true) w)
  = [EPrompt prompt_message "1"; EConfirm (confirm_message count)]
    ++ post_requests (activeTab (st w)) w (loop_posts count)
    ++ (if loop_throws count then [EConsoleError; EAlert failure_message] else []).
Proof.
  intros count Hbig. unfold count. rewrite step_addItems.
  rewrite (addItems_large_count _ _ _ _ Hbig). cbn zeta.
  set (w1 := emit _ (emit _ w)).
  destruct (addItems_try_spec (st w) (parseInt countStr) w1)
    as (_ & _ & _ & _ & _ & _ & _ & Hl).
  apply log_since_app.
  match goal with
  | |- log (if ?c then ?a else ?b) = _ =>
      assert (Hlog : log (if c then a else b) = log a)
        by (destruct c; reflexivity); rewrite Hlog
  end.
  rewrite Hl. unfold w1, post_requests. cbn [log emit next_id storage].
  rewrite <- !app_assoc. reflexivity.
Qed.

(** C8.  An answer to the prompt that [parseInt] turns into NaN or into a
    number that is not positive gets the validation alert and nothing
    else: no request leaves and no state cell changes.  For a count above
    100, Infinity included, the confirmation is what follows the prompt,
    with the count printed as the Number it is: no request comes before
    it.  A declined confirmation ends [addItems] there, with the requests
    in flight and the state as they were; after an accepted one, up to
    the largest array length, exactly [count] POSTs leave. *)
Theorem addItems_validates_count w countStr ok :
  let w' := step (EvAddItems (Some countStr) ok) w in
  let count := parseInt countStr in
  ((count = NaN ∨ (∃ n, count = Finite n ∧ n <= 0) ∨ count = Infinity true) →
   log_since w w' = [EPrompt prompt_message "1"; EAlert invalid_count_message]
   ∧ inflight w' = inflight w
   ∧ st w' = st w)
  ∧ (((∃ n, count = Finite n ∧ 100 < n) ∨ count = Infinity false) →
     take 2 (log_since w w')
     = [EPrompt prompt_message "1"; EConfirm (confirm_message count)]
     ∧ (ok = false →
        log_since w w' = [EPrompt prompt_message "1"; EConfirm (confirm_message count)]
        ∧ inflight w' = inflight w
        ∧ st w' = st w)
     ∧ (ok = true →
        ∀ n, count = Finite n → n <= max_array_length →
             log_since w w'
             = [EPrompt prompt_message "1"; EConfirm (confirm_message count)]
               ++ post_requests (activeTab (st w)) w (Z.to_nat n))).
Proof.
  intros w' count. unfold w', count. split.
  - intros Hbad. rewrite step_addItems, (addItems_rejected_input _ _ _ _ Hbad). cbn.
    rewrite observer_deps_same_refl.
    split; [|done].
    by since [EPrompt prompt_message "1"; EAlert invalid_count_message].
  - intros Hbig.
    assert (Hno : ok = false →
              log_since w (step (EvAddItems (Some countStr) ok) w)
              = [EPrompt prompt_message "1"; EConfirm (confirm_message (parseInt countStr))]
              ∧ inflight (step (EvAddItems (Some countStr) ok) w) = inflight w
              ∧ st (step (EvAddItems (Some countStr) ok) w) = st w).
    { intros ->. rewrite step_addItems, (addItems_large_count _ _ _ _ Hbig). cbn.
      rewrite observer_deps_same_refl. split; [|done].
      by since [EPrompt prompt_message "1";
                EConfirm (confirm_message (parseInt countStr))]. }
    split; [|split; [exact Hno|]].
    + destruct ok.
      * by rewrite (addItems_large_count_log w countStr Hbig).
      * by rewrite (proj1 (Hno eq_refl)).
    + intros -> n Hn Hmax.
      rewrite (addItems_large_count_log w countStr Hbig). cbn zeta. rewrite Hn.
      destruct (loop_in_range n Hmax) as [-> ->]. by rewrite app_nil_r.
Qed.

Lemma addItems_validates_count_witness :
  let w := one_row_world in
  (let w' := step (EvAddItems (Some (code_units "-3")) true) w in
   log_since w w' = [EPrompt prompt_message "1"; EAlert invalid_count_message]
   ∧ inflight w' = inflight w
   ∧ st w' = st w)
  ∧ (let w' := step (EvAddItems (Some (code_units "101")) true) w in
     log_since w w'
     = [EPrompt prompt_message "1"; EConfirm (confirm_message (Finite 101))]
       ++ post_requests (activeTab (st w)) w (Z.to_nat 101)).
Proof.
  split.
  - apply (proj1 (addItems_validates_count one_row_world (code_units "-3") true)).
    right. left. exists (-3). split; [reflexivity | lia].
  - apply (proj2 (proj2 (proj2 (addItems_validates_count one_row_world
                                  (code_units "101") true)
                           (or_introl (ex_intro _ 101 (conj eq_refl eq_refl)))))
             eq_refl 101 eq_refl).
    change max_array_length with 4294967295. lia.
Defined.

Example addItems_zero :
  log_since one_row_world (step (EvAddItems (Some (code_units "0")) true) one_row_world)
  = [EPrompt prompt_message "1"; EAlert invalid_count_message].
Proof. vm_compute. reflexivity. Qed.

Example addItems_not_a_number :
  log_since one_row_world (step (EvAddItems (Some (code_units "ten")) true) one_row_world)
  = [EPrompt prompt_message "1"; EAlert invalid_count_message].
Proof. vm_compute. reflexivity. Qed.

Example addItems_101_declined :
  log_since one_row_world (step (EvAddItems (Some (code_units "101")) false) one_row_world)
  = [EPrompt prompt_message "1";
     EConfirm "101 ta qator qo'shish biroz vaqt olishi mumkin. Davom etaymi?"].
Proof. vm_compute. reflexivity. Qed.

(** The count shown is the double: 2^53 + 1 is shown as 2^53, 10^21 with
    an exponent, more than 308 digits as Infinity. *)
Example addItems_2_53_plus_1_declined :
  log_since one_row_world
    (step (EvAddItems (Some (code_units "9007199254740993")) false) one_row_world)
  = [EPrompt prompt_message "1";
     EConfirm "9007199254740992 ta qator qo'shish biroz vaqt olishi mumkin. Davom etaymi?"].
Proof. vm_compute. reflexivity. Qed.

Example addItems_10_21_declined :
  log_since one_row_world
    (step (EvAddItems (Some (code_units "1000000000000000000000")) false) one_row_world)
  = [EPrompt prompt_message "1";
     EConfirm "1e+21 ta qator qo'shish biroz vaqt olishi mumkin. Davom etaymi?"].
Proof. vm_compute. reflexivity. Qed.

Example addItems_Infinity_declined :
  log_since one_row_world
    (step (EvAddItems (Some (code_units ("1" +:+ String.concat "" (replicate 309 "0")))) false)
       one_row_world)
  = [EPrompt prompt_message "1";
     EConfirm "Infinity ta qator qo'shish biroz vaqt olishi mumkin. Davom etaymi?"].
Proof. vm_compute. reflexivity. Qed.

(** The loop ends normally up to 2^32 - 1 turns. *)
Example loop_throws_from_2_32 :
  loop_throws (Finite (2 ^ 32 - 1)) = false
  ∧ loop_throws (Finite (2 ^ 32)) = true
  ∧ loop_throws (Infinity false) = true.
Proof. repeat split. Qed.

Example addItems_2_no_confirmation :
  log_since one_row_world (step (EvAddItems (Some (code_units "2")) false) one_row_world)
  = [EPrompt prompt_message "1";
     ERequest 2 (Some "Bearer t0k3n") (PostItem "yangi");
     ERequest 3 (Some "Bearer t0k3n") (PostItem "yangi")].
Proof. vm_compute. reflexivity. Qed.

(** ** The single-flight guard and the debounce timer *)

(** C2 (defect).  The guard of [fetchItems] reads the [loading] of the
    render that created the closure.  The debounce timer armed at mount
    holds the closure of the first render, where [loading] was false: when
    it fires while the first list fetch is still pending, with the
    [loading] cell true, a second list request leaves and two list fetches
    are in flight. *)
Theorem debounce_fetch_bypasses_guard :
  let w1 := step (EvTick 500) (mount logged_in_storage) in
  let w2 := step EvTimeout w1 in
  loading (st w1) = true
  ∧ list_fetches_in_flight w1 = 1%nat
  ∧ log_since w1 w2 = [ERequest 2 (Some "Bearer t0k3n") (GetItems "yangi" 500 0 "")]
  ∧ list_fetches_in_flight w2 = 2%nat.
Proof. vm_compute. done. Qed.

(** ** Changing the tab *)

Lemma step_setActiveTab w tab :
  isLoggedIn (st w) = true →
  tab ≠ activeTab (st w) →
  let snap := setActiveTab tab (st w) in
  let w1 := effect_tab snap (setState (setActiveTab tab) w) in
  step (EvSetActiveTab tab) w
  = if observer_deps_same snap (st w1) then w1 else effect_observer (st w1) w1.
Proof.
  intros Hin Hne snap w1. unfold step. cbn [handle]. rewrite commit_unfold.
  cbn [st setState]. fold snap.
  assert (Htab : tab_deps_same (st w) snap = false).
  { unfold tab_deps_same. cbn. rewrite bool_decide_eq_false_2; [done|congruence]. }
  unfold deps_same, run_effects. rewrite Htab. cbn [andb].
  assert (Hs : search_deps_same (st w) snap = true) by quiet_deps.
  assert (Hp : page_deps_same (st w) snap = true) by quiet_deps.
  assert (Ho : observer_deps_same (st w) snap = true).
  { unfold observer_deps_same. cbn.
    repeat (rewrite bool_decide_eq_true_2 by reflexivity). reflexivity. }
  rewrite Hs, Hp, Ho. reflexivity.
Qed.

(** C5 (amended).  A change of tab while logged in empties the list, puts
    the page back to 0 and [hasMore] back to true, and always sends the
    stats request of the new tab.  The page-0 list request of the new tab
    is sent before it when [loading] is false; when [loading] is true the
    guard of [fetchItems] drops it and the stats request leaves alone. *)
Theorem tab_change_resets_and_refetches w tab :
  isLoggedIn (st w) = true →
  tab ≠ activeTab (st w) →
  let w' := step (EvSetActiveTab tab) w in
  let hdr := request_interceptor (storage w) in
  activeTab (st w') = tab
  ∧ items (st w') = []
  ∧ page (st w') = 0%nat
  ∧ hasMore (st w') = true
  ∧ log_since w w'
    = if loading (st w)
      then [ERequest (next_id w) hdr (GetStats tab)]
      else [ERequest (next_id w) hdr (GetItems tab limit 0 (search (st w)));
            ERequest (S (next_id w)) hdr (GetStats tab)].
Proof.
  intros Hin Hne w' hdr. unfold w'. rewrite (step_setActiveTab _ _ Hin Hne).
  unfold effect_tab, fetchItems, fetchStats, effect_observer. cbn. rewrite Hin.
  destruct (loading (st w)) eqn:Hl; cbn.
  - repeat case_match; cbn; repeat (split; [reflexivity|]);
      by since [ERequest (next_id w) hdr (GetStats tab)].
  - repeat case_match; cbn; repeat (split; [reflexivity|]);
      by since [ERequest (next_id w) hdr (GetItems tab limit 0 (search (st w)));
                ERequest (S (next_id w)) hdr (GetStats tab)].
Qed.

Lemma tab_change_resets_and_refetches_witness :
  let w := one_row_world in
  let w' := step (EvSetActiveTab "koreyskiy") w in
  let hdr := request_interceptor (storage w) in
  activeTab (st w') = "koreyskiy"
  ∧ items (st w') = []
  ∧ page (st w') = 0%nat
  ∧ hasMore (st w') = true
  ∧ log_since w w'
    = if loading (st w)
      then [ERequest (next_id w) hdr (GetStats "koreyskiy")]
      else [ERequest (next_id w) hdr (GetItems "koreyskiy" limit 0 (search (st w)));
            ERequest (S (next_id w)) hdr (GetStats "koreyskiy")].
Proof.
  apply (tab_change_resets_and_refetches one_row_world "koreyskiy");
    [vm_compute; reflexivity | vm_compute; discriminate].
Defined.

(** C5 as stated fails: the tab is changed while the first list fetch is
    pending; the stats request of the new tab leaves, a list request does
    not. *)
Lemma tab_change_while_loading_sends_no_list_request :
  let w := mount logged_in_storage in
  let w' := step (EvSetActiveTab "koreyskiy") w in
  isLoggedIn (st w) = true
  ∧ activeTab (st w) = "yangi"
  ∧ loading (st w) = true
  ∧ log_since w w' = [ERequest 2 (Some "Bearer t0k3n") (GetStats "koreyskiy")]
  ∧ List.filter is_list_request (log_since w w') = [].
Proof. vm_compute. done. Qed.

(** ** The observer never lags behind *)

Lemma observer_deps_same_true a b :
  observer_deps_same a b = true ↔
  hasMore a = hasMore b ∧ loading a = loading b ∧ isLoggedIn a = isLoggedIn b.
Proof.
  unfold observer_deps_same.
  rewrite !andb_true_iff, !bool_decide_eq_true. tauto.
Qed.

Lemma observer_run_effects prev snap w :
  observer (run_effects prev snap w)
  = if observer_deps_same prev snap then observer w
    else if isLoggedIn snap then Some snap else None.
Proof.
  autounfold with effects.
  repeat case_match; reflexivity.
Qed.

Lemma commit_fresh prev w :
  observer_matches prev w → observer_fresh (commit prev w).
Proof.
  unfold observer_fresh, observer_matches. intros Hm. rewrite commit_unfold.
  destruct (deps_same prev (st w)) eqn:Hd.
  - unfold deps_same in Hd. rewrite !andb_true_iff in Hd.
    destruct Hd as [[[_ _] Ho] _]. apply observer_deps_same_true in Ho as (H1 & H2 & H3).
    destruct (observer w); [rewrite <- H1, <- H2, <- H3|rewrite <- H3]; done.
  - cbn zeta. set (w1 := run_effects prev (st w) w).
    assert (Hm1 : match observer w1 with
                  | Some o => isLoggedIn (st w) = true ∧ hasMore o = hasMore (st w)
                              ∧ loading o = loading (st w)
                  | None => isLoggedIn (st w) = false
                  end).
    { unfold w1. rewrite observer_run_effects.
      destruct (observer_deps_same prev (st w)) eqn:Ho.
      - apply observer_deps_same_true in Ho as (H1 & H2 & H3).
        destruct (observer w); [rewrite <- H1, <- H2, <- H3|rewrite <- H3]; done.
      - destruct (isLoggedIn (st w)); done. }
    destruct (observer_deps_same (st w) (st w1)) eqn:Ho.
    + apply observer_deps_same_true in Ho as (H1 & H2 & H3).
      destruct (observer w1); [rewrite <- H1, <- H2, <- H3|rewrite <- H3]; done.
    + unfold effect_observer. cbn. destruct (isLoggedIn (st w1)); done.
Qed.

Lemma addItems_try_observer snap count w :
  observer (addItems_try snap count w) = observer w.
Proof. by destruct (addItems_try_spec snap count w) as (_ & _ & _ & _ & -> & _). Qed.

Lemma observer_handle e w : observer (handle e w) = observer w.
Proof.
  destruct e; cbn [handle]; try reflexivity;
    autounfold with handlers;
    repeat case_match; rewrite ?addItems_try_observer; cbn;
    first [reflexivity | congruence].
Qed.

Lemma step_fresh e w : observer_fresh w → observer_fresh (step e w).
Proof.
  intros H. unfold step. apply commit_fresh.
  unfold observer_matches. rewrite observer_handle. exact H.
Qed.

Lemma mount_fresh ls : observer_fresh (mount ls).
Proof.
  unfold mount. apply commit_fresh. unfold observer_matches, initial_state.
  destruct (truthy (getItem "token" ls)); cbn; done.
Qed.

Lemma run_fresh es w : observer_fresh w → observer_fresh (run es w).
Proof.
  revert w. induction es as [|e es IH]; intros w H; [done|].
  cbn. apply IH. by apply step_fresh.
Qed.

Lemma reachable_fresh w : reachable w → observer_fresh w.
Proof. intros (ls & es & ->). apply run_fresh, mount_fresh. Qed.

Lemma reachable_step e w : reachable w → reachable (step e w).
Proof.
  intros (ls & es & ->). exists ls, (es ++ [e]).
  unfold run. by rewrite fold_left_app.
Qed.

Lemma reachable_run es w : reachable w → reachable (run es w).
Proof.
  revert w. induction es as [|e es IH]; intros w H; [done|].
  cbn. apply IH. by apply reachable_step.
Qed.

(** ** Between two resets *)

(** A render in which the body of the tab effect does not run and the page
    did not change leaves the state cells and the log alone. *)
Lemma commit_quiet prev w :
  tab_deps_same prev (st w) = true ∨ isLoggedIn (st w) = false →
  page_deps_same prev (st w) = true →
  st (commit prev w) = st w ∧ log (commit prev w) = log w.
Proof.
  intros Ht Hp. rewrite commit_unfold.
  destruct (deps_same prev (st w)); [done|]. cbn zeta.
  assert (Hr : st (run_effects prev (st w) w) = st w
               ∧ log (run_effects prev (st w) w) = log w).
  { unfold run_effects. rewrite Hp.
    unfold effect_tab, effect_search, effect_observer.
    destruct Ht as [-> | ->]; repeat case_match; done. }
  destruct Hr as [Hs Hl]. rewrite Hs, observer_deps_same_refl. done.
Qed.


Lemma filter_post_requests (f : Effect → bool) tab w count :
  (∀ rid auth, f (ERequest rid auth (PostItem tab)) = false) →
  List.filter f (post_requests tab w count) = [].
Proof.
  intros Hf. unfold post_requests. generalize (seq 0 count). intros l.
  induction l as [|i l IH]; cbn; [done|]. by rewrite Hf.
Qed.

Lemma list_requests_addItems_try snap count w :
  list_requests (addItems_try snap count w) = list_requests w.
Proof.
  unfold list_requests.
  destruct (addItems_try_spec snap count w) as (_ & _ & _ & _ & _ & _ & _ & ->).
  rewrite !List.filter_app, filter_post_requests by done.
  destruct (loop_throws count); cbn; by rewrite app_nil_r.
Qed.

(** Simplifies [list_requests] of a world built by a handler. *)
Ltac list_requests_tac :=
  unfold list_requests; cbn;
  rewrite ?List.filter_app; cbn; rewrite ?app_nil_r; try reflexivity.

Lemma handle_between_resets e w :
  observer_fresh w →
  hasMore (st w) = false →
  runs_reset e = false →
  let h := handle e w in
  hasMore (st h) = false
  ∧ page (st h) = page (st w)
  ∧ activeTab (st h) = activeTab (st w)
  ∧ (isLoggedIn (st h) = isLoggedIn (st w) ∨ isLoggedIn (st h) = false)
  ∧ list_requests h = list_requests w.
Proof.
  intros Hf Hm He h. unfold h.
  destruct e; try discriminate He; cbn [handle].
  all: try (cbn; rewrite Hm; repeat split; auto; list_requests_tac; fail).
  - (* observer callback *)
    unfold observer_fresh, observer_matches in Hf.
    destruct (observer w) as [o|]; [|by repeat split; auto].
    destruct Hf as (_ & Ho & _). unfold observer_callback.
    rewrite Ho, Hm, andb_false_r. cbn. by repeat split; auto.
  - (* addItems *)
    unfold addItems.
    repeat case_match; rewrite ?st_addItems_try, ?list_requests_addItems_try;
      cbn; rewrite ?Hm; repeat split; auto; list_requests_tac.
  - unfold deleteItem. destruct ok; cbn; rewrite Hm; repeat split; auto; list_requests_tac.
  - unfold returnItem. destruct ok; cbn; rewrite Hm; repeat split; auto; list_requests_tac.
  - (* list reply *)
    unfold fetchItems_then, settled, intercept.
    repeat case_match; cbn; rewrite ?Hm; repeat split; auto; list_requests_tac.
  - unfold fetchStats_then, settled, intercept.
    repeat case_match; cbn; rewrite ?Hm; repeat split; auto; list_requests_tac.
  - unfold addItems_then, settled, intercept, fetchStats.
    repeat case_match; cbn; rewrite ?Hm; repeat split; auto; list_requests_tac.
  - unfold updateItem_then, settled, intercept, fetchStats.
    repeat case_match; cbn; rewrite ?Hm; repeat split; auto; list_requests_tac.
  - unfold deleteItem_then, settled, intercept, fetchStats.
    repeat case_match; cbn; rewrite ?Hm; repeat split; auto; list_requests_tac.
  - unfold returnItem_then, settled, intercept, fetchStats.
    repeat case_match; cbn; rewrite ?Hm; repeat split; auto; list_requests_tac.
Qed.

Lemma step_between_resets e w :
  observer_fresh w →
  hasMore (st w) = false →
  runs_reset e = false →
  hasMore (st (step e w)) = false
  ∧ page (st (step e w)) = page (st w)
  ∧ list_requests (step e w) = list_requests w.
Proof.
  intros Hf Hm He.
  destruct (handle_between_resets e w Hf Hm He) as (H1 & H2 & H3 & H4 & H5).
  unfold step.
  destruct (commit_quiet (st w) (handle e w)) as [Hs Hl].
  - destruct H4 as [H4|H4]; [left|by right].
    unfold tab_deps_same. by rewrite H3, H4, !bool_decide_eq_true_2.
  - unfold page_deps_same. by rewrite H2, bool_decide_eq_true_2.
  - unfold list_requests in *. rewrite Hs, Hl. done.
Qed.

Lemma run_between_resets es w :
  observer_fresh w →
  hasMore (st w) = false →
  forallb (fun e => negb (runs_reset e)) es = true →
  hasMore (st (run es w)) = false
  ∧ page (st (run es w)) = page (st w)
  ∧ list_requests (run es w) = list_requests w.
Proof.
  revert w. induction es as [|e es IH]; intros w Hf Hm Hes; [done|].
  cbn in Hes. apply andb_true_iff in Hes as [He Hes].
  apply negb_true_iff in He.
  destruct (step_between_resets e w Hf Hm He) as (H1 & H2 & H3).
  cbn [run fold_left]. fold (run es (step e w)).
  destruct (IH (step e w) (step_fresh e w Hf) H1 Hes) as (I1 & I2 & I3).
  rewrite I1, I2, I3, H2, H3. done.
Qed.

(** C4 (amended).  When a list fetch returns fewer than 500 rows,
    [hasMore] becomes false; from then on, as long as neither the tab
    effect (tab button, login) nor the debounce callback runs, whatever
    else happens, [hasMore] stays false, the page is not incremented and no
    list request is sent. *)
Theorem short_page_stops_pagination w rid reset r rows es :
  reachable w →
  inflight w !! rid = Some (KFetchItems reset) →
  settle r = inl rows →
  (length rows < limit)%nat →
  forallb (fun e => negb (runs_reset e)) es = true →
  let w1 := step (EvItemsReply rid r) w in
  let w2 := run es w1 in
  hasMore (st w1) = false
  ∧ hasMore (st w2) = false
  ∧ page (st w2) = page (st w1)
  ∧ list_requests w2 = list_requests w1.
Proof.
  intros Hr Hin Hset Hlen Hes w1 w2.
  assert (H1 : hasMore (st w1) = false).
  { unfold w1. rewrite (step_items_reply _ _ _ _ Hin). rewrite Hset.
    unfold fetchItems_then. rewrite (proj2 (Nat.ltb_lt _ _) Hlen).
    unfold effect_observer. by case_match. }
  split; [exact H1|].
  apply run_between_resets; [|exact H1|exact Hes].
  apply reachable_fresh. by apply reachable_step.
Qed.

Lemma short_page_stops_pagination_witness :
  let w1 := step (EvItemsReply 0 (Response 200 [one_row])) (mount logged_in_storage) in
  let w2 := run [EvTick 100; EvIntersection true; EvSetSearch "a"; EvIntersection true] w1 in
  hasMore (st w1) = false
  ∧ hasMore (st w2) = false
  ∧ page (st w2) = page (st w1)
  ∧ list_requests w2 = list_requests w1.
Proof.
  apply (short_page_stops_pagination (mount logged_in_storage) 0 true
           (Response 200 [one_row]) [one_row]).
  - exists logged_in_storage, []. reflexivity.
  - vm_compute. reflexivity.
  - reflexivity.
  - vm_compute. lia.
  - reflexivity.
Defined.

(** C4 as stated fails: the first fetch returns one row, the debounce
    timer armed at mount fires and its refetch gets no response; the next
    observer callback increments the page and page 1 is fetched, with no
    tab or search change anywhere. *)
Lemma page_fetch_without_tab_or_search_change :
  let w1 := step (EvItemsReply 0 (Response 200 [one_row])) (mount logged_in_storage) in
  let es := [EvTick 500; EvTimeout; EvItemsReply 2 NetworkError; EvIntersection true] in
  let w2 := run es w1 in
  hasMore (st w1) = false
  ∧ page (st w1) = 0%nat
  ∧ forallb (fun e => negb (is_tab_or_search_change e)) es = true
  ∧ page (st w2) = 1%nat
  ∧ List.filter is_list_request (log_since w1 w2)
    = [ERequest 2 (Some "Bearer t0k3n") (GetItems "yangi" 500 0 "");
       ERequest 3 (Some "Bearer t0k3n") (GetItems "yangi" 500 500 "")].
Proof. vm_compute. done. Qed.

(** ** The debounce timer *)

Lemma timer_clock_commit prev w :
  clock (commit prev w) = clock w
  ∧ (search_deps_same prev (st w) = true → timer (commit prev w) = timer w).
Proof.
  rewrite commit_unfold.
  autounfold with effects.
  split; [repeat case_match; reflexivity|].
  intros Hs. unfold deps_same. rewrite Hs.
  repeat case_match; reflexivity.
Qed.


Lemma addItems_try_timer_clock snap count w :
  timer (addItems_try snap count w) = timer w
  ∧ clock (addItems_try snap count w) = clock w.
Proof.
  by destruct (addItems_try_spec snap count w) as (_ & _ & -> & -> & _).
Qed.

Lemma handle_timer_clock e w :
  is_search_input e = false →
  let h := handle e w in
  search (st h) = search (st w)
  ∧ (timer h = timer w ∨ timer h = None)
  ∧ (clock w <= clock h)%nat.
Proof.
  intros He h. unfold h.
  destruct e; try discriminate He; cbn [handle].
  all: try (cbn; repeat split; auto; lia).
  all: autounfold with handlers.
  all: repeat case_match;
    rewrite ?st_addItems_try, ?(proj1 (addItems_try_timer_clock _ _ _)),
      ?(proj2 (addItems_try_timer_clock _ _ _)); cbn;
    repeat split; auto; try lia; try congruence.
Qed.

Lemma step_timer_clock e w :
  is_search_input e = false →
  (timer (step e w) = timer w ∨ timer (step e w) = None)
  ∧ (clock w <= clock (step e w))%nat.
Proof.
  intros He. destruct (handle_timer_clock e w He) as (Hs & Ht & Hc).
  unfold step. destruct (timer_clock_commit (st w) (handle e w)) as [-> Htc].
  rewrite Htc; [done|].
  unfold search_deps_same. by rewrite Hs, bool_decide_eq_true_2.
Qed.

Lemma run_timer_clock es w :
  forallb (fun e => negb (is_search_input e)) es = true →
  (timer (run es w) = timer w ∨ timer (run es w) = None)
  ∧ (clock w <= clock (run es w))%nat.
Proof.
  revert w. induction es as [|e es IH]; intros w Hes; [by auto|].
  cbn in Hes. apply andb_true_iff in Hes as [He Hes]. apply negb_true_iff in He.
  cbn [run fold_left]. fold (run es (step e w)).
  destruct (IH (step e w) Hes) as [It Ic].
  destruct (step_timer_clock e w He) as [St Sc].
  split; [|lia].
  destruct It as [-> | ->]; auto.
Qed.

Lemma step_setSearch w text :
  isLoggedIn (st w) = true →
  text ≠ search (st w) →
  step (EvSetSearch text) w
  = set_timer (Some ((clock w + debounce_ms)%nat, setSearch text (st w)))
      (setState (setSearch text) w).
Proof.
  intros Hin Hne. unfold step. cbn [handle]. rewrite commit_unfold.
  cbn [st setState].
  assert (Hs : search_deps_same (st w) (setSearch text (st w)) = false).
  { unfold search_deps_same. cbn. rewrite bool_decide_eq_false_2; [done|congruence]. }
  unfold deps_same, run_effects. rewrite Hs.
  assert (Ht : tab_deps_same (st w) (setSearch text (st w)) = true).
  { unfold tab_deps_same. cbn. by rewrite !bool_decide_eq_true_2. }
  assert (Hp : page_deps_same (st w) (setSearch text (st w)) = true) by quiet_deps.
  assert (Ho : observer_deps_same (st w) (setSearch text (st w)) = true).
  { apply observer_deps_same_true. done. }
  rewrite Ht, Hp, Ho. cbn [andb]. cbn zeta.
  unfold effect_search. cbn. rewrite Hin. cbn.
  rewrite observer_deps_same_refl. reflexivity.
Qed.

(** A render in which the body of the tab effect does not run and the
    page, if it changed, changed to 0. *)
Lemma commit_quiet_page0 prev w :
  tab_deps_same prev (st w) = true →
  page_deps_same prev (st w) = true ∨ page (st w) = 0%nat →
  st (commit prev w) = st w ∧ log (commit prev w) = log w.
Proof.
  intros Ht Hp. rewrite commit_unfold.
  destruct (deps_same prev (st w)); [done|]. cbn zeta.
  assert (Hr : st (run_effects prev (st w) w) = st w
               ∧ log (run_effects prev (st w) w) = log w).
  { unfold run_effects. rewrite Ht.
    unfold effect_search, effect_observer, effect_page.
    destruct Hp as [-> | ->]; repeat case_match; done. }
  destruct Hr as [Hs Hl]. rewrite Hs, observer_deps_same_refl. done.
Qed.

Lemma step_timeout_due w due snap :
  timer w = Some (due, snap) →
  (due <= clock w)%nat →
  let h := debounce_callback snap (set_timer None w) in
  st (step EvTimeout w) = st h ∧ log (step EvTimeout w) = log h.
Proof.
  intros Ht Hd h. unfold step. cbn [handle]. rewrite Ht.
  rewrite (proj2 (Nat.leb_le _ _) Hd). fold h.
  apply commit_quiet_page0; unfold h, debounce_callback, fetchItems.
  - unfold tab_deps_same. case_match; cbn; by rewrite !bool_decide_eq_true_2.
  - right. by case_match.
Qed.

Lemma step_timeout_not_due w : timer_due w = false → step EvTimeout w = w.
Proof.
  intros H. unfold step, timer_due in *. cbn [handle].
  destruct (timer w) as [[due snap]|]; rewrite ?H; apply commit_same, deps_same_refl.
Qed.

(** What the debounce callback does when it runs in [w1] with the closure
    of the render of [snap]: the request it sends is decided by [snap]. *)
Lemma debounce_callback_runs w1 due snap :
  timer w1 = Some (due, snap) →
  (due <= clock w1)%nat →
  let w2 := step EvTimeout w1 in
  items (st w2) = [] ∧ page (st w2) = 0%nat ∧ hasMore (st w2) = true
  ∧ log_since w1 w2
    = if loading snap then []
      else [ERequest (next_id w1) (request_interceptor (storage w1))
              (GetItems (activeTab snap) limit 0 (search snap))].
Proof.
  intros Ht Hd w2.
  destruct (step_timeout_due w1 due snap Ht Hd) as [Hs Hl]. cbn zeta in Hs, Hl.
  unfold w2, log_since. rewrite Hs, Hl.
  unfold debounce_callback, fetchItems.
  destruct (loading snap); cbn.
  - repeat (split; [reflexivity|]). by rewrite drop_all.
  - repeat (split; [reflexivity|]). by rewrite drop_app_length.
Qed.

(** C7 (amended).  After a keystroke that changes the search text, as long
    as no further keystroke follows, the debounce callback cannot run
    before 500 ms have passed.  When it runs it empties the list, puts the
    page back to 0 and [hasMore] back to true and sends no stats request.
    It sends the page-0 list request for the typed text when [loading] was
    false at the keystroke and is false now (and the tab is the same);
    when [loading] was true at the keystroke and is true now, the guard of
    [fetchItems] drops the request and nothing is sent. *)
Theorem search_debounce w text es :
  isLoggedIn (st w) = true →
  text ≠ search (st w) →
  forallb (fun e => negb (is_search_input e)) es = true →
  let w1 := run es (step (EvSetSearch text) w) in
  let w2 := step EvTimeout w1 in
  (timer_due w1 = false → w2 = w1)
  ∧ (timer_due w1 = true →
     (clock w + debounce_ms <= clock w1)%nat
     ∧ items (st w2) = [] ∧ page (st w2) = 0%nat ∧ hasMore (st w2) = true
     ∧ List.filter is_stats_request (log_since w1 w2) = []
     ∧ (loading (st w) = false → loading (st w1) = false →
        activeTab (st w1) = activeTab (st w) →
        log_since w1 w2
        = [ERequest (next_id w1) (request_interceptor (storage w1))
             (GetItems (activeTab (st w1)) limit 0 text)])
     ∧ (loading (st w) = true → loading (st w1) = true → log_since w1 w2 = [])).
Proof.
  intros Hin Hne Hes w1 w2. split; [apply step_timeout_not_due|].
  intros Hdue.
  pose proof (step_setSearch w text Hin Hne) as H0.
  destruct (run_timer_clock es (step (EvSetSearch text) w) Hes) as [Ht Hc].
  fold w1 in Ht, Hc. rewrite H0 in Ht, Hc. cbn in Ht, Hc.
  unfold timer_due in Hdue.
  destruct Ht as [Ht|Ht]; rewrite Ht in Hdue; [|discriminate].
  apply Nat.leb_le in Hdue.
  destruct (debounce_callback_runs w1 _ _ Ht Hdue) as (Hi & Hp & Hm & Hl).
  fold w2 in Hi, Hp, Hm, Hl. cbn [search loading activeTab setSearch] in Hl.
  split; [exact Hdue|]. repeat (split; [assumption|]).
  split; [|split].
  - rewrite Hl. by destruct (loading (st w)).
  - intros Hl0 _ Htab. by rewrite Hl, Hl0, Htab.
  - intros Hl0 _. by rewrite Hl, Hl0.
Qed.

Lemma search_debounce_witness :
  let w := one_row_world in
  let w1 := run [EvTick 200; EvIntersection false; EvTick 300]
              (step (EvSetSearch "ali") w) in
  let w2 := step EvTimeout w1 in
  (timer_due w1 = false → w2 = w1)
  ∧ (timer_due w1 = true →
     (clock w + debounce_ms <= clock w1)%nat
     ∧ items (st w2) = [] ∧ page (st w2) = 0%nat ∧ hasMore (st w2) = true
     ∧ List.filter is_stats_request (log_since w1 w2) = []
     ∧ (loading (st w) = false → loading (st w1) = false →
        activeTab (st w1) = activeTab (st w) →
        log_since w1 w2
        = [ERequest (next_id w1) (request_interceptor (storage w1))
             (GetItems (activeTab (st w1)) limit 0 "ali")])
     ∧ (loading (st w) = true → loading (st w1) = true → log_since w1 w2 = [])).
Proof.
  apply (search_debounce one_row_world "ali"
           [EvTick 200; EvIntersection false; EvTick 300]).
  - vm_compute. reflexivity.
  - vm_compute. discriminate.
  - reflexivity.
Defined.

Example search_debounce_fires :
  let w1 := run [EvSetSearch "a"; EvTick 100; EvSetSearch "al"; EvTick 499] one_row_world in
  let w1' := step (EvTick 1) w1 in
  step EvTimeout w1 = w1
  ∧ log_since w1' (step EvTimeout w1')
    = [ERequest 2 (Some "Bearer t0k3n") (GetItems "yangi" 500 0 "al")].
Proof. vm_compute. done. Qed.

(** C7 as stated fails: a character is typed while the first list fetch
    is pending; 500 ms later that fetch is still pending, the callback
    runs, empties the list, and no list request is sent. *)
Lemma debounce_while_loading_sends_no_request :
  let w := mount logged_in_storage in
  let w1 := run [EvSetSearch "a"; EvTick 500] w in
  let w2 := step EvTimeout w1 in
  loading (st w) = true
  ∧ loading (st w1) = true
  ∧ timer_due w1 = true
  ∧ items (st w2) = []
  ∧ log_since w1 w2 = [].
Proof. vm_compute. done. Qed.

(** ** [addItems]: the replies *)

Lemma commit_observer_only_fields prev w :
  tab_deps_same prev (st w) = true →
  search_deps_same prev (st w) = true →
  page_deps_same prev (st w) = true →
  st (commit prev w) = st w ∧ log (commit prev w) = log w
  ∧ inflight (commit prev w) = inflight w ∧ batches (commit prev w) = batches w.
Proof.
  intros Ht Hs Hp. rewrite (commit_observer_only _ _ Ht Hs Hp).
  unfold effect_observer. by case_match.
Qed.

Lemma step_create_reply w rid b r :
  inflight w !! rid = Some (KAddItems b) →
  let h := addItems_then b rid (settle r) (settled rid (settle r) w) in
  st (step (EvCreateReply rid r) w) = st h
  ∧ log (step (EvCreateReply rid r) w) = log h
  ∧ inflight (step (EvCreateReply rid r) w) = inflight h
  ∧ batches (step (EvCreateReply rid r) w) = batches h.
Proof.
  intros Hin h. unfold step. cbn [handle]. rewrite Hin. fold h.
  apply commit_observer_only_fields;
    unfold h, addItems_then, settled, intercept, fetchStats;
    repeat case_match; quiet_deps.
Qed.

Lemma settled_spec {A} rid (res : A + AxiosError) w :
  st (settled rid res w) = st w
  ∧ log (settled rid res w) = log w ++ reload_log res (storage w)
  ∧ inflight (settled rid res w) = delete rid (inflight w)
  ∧ batches (settled rid res w) = batches w.
Proof.
  unfold settled, intercept, reload_log. destruct res as [a|e]; cbn.
  - by rewrite app_nil_r.
  - destruct (response_interceptor e (storage w)) as [ls [|]]; cbn;
      by rewrite ?app_nil_r.
Qed.

Lemma reload_log_quiet {A} (res : A + AxiosError) ls :
  List.filter is_alert (reload_log res ls) = []
  ∧ List.filter is_stats_request (reload_log res ls) = [].
Proof. unfold reload_log. by repeat case_match. Qed.

(** A reply to a POST of a batch that has already resolved or rejected:
    only the interceptor sees it. *)
Lemma create_reply_after_settled w rid b B r :
  inflight w !! rid = Some (KAddItems b) →
  batches w !! b = Some B →
  batch_settled B = true →
  let w' := step (EvCreateReply rid r) w in
  st w' = st w
  ∧ log w' = log w ++ reload_log (settle r) (storage w)
  ∧ inflight w' = delete rid (inflight w)
  ∧ batches w' = batches w.
Proof.
  intros Hin Hb Hs w'.
  destruct (step_create_reply w rid b r Hin) as (H1 & H2 & H3 & H4).
  destruct (settled_spec rid (settle r) w) as (S1 & S2 & S3 & S4).
  unfold w'. rewrite H1, H2, H3, H4. unfold addItems_then.
  rewrite S4, Hb, Hs. done.
Qed.

(** The first rejection: [Promise.all] rejects, the [catch] and the
    [finally] run. *)
Lemma create_reply_rejects w rid b B r e :
  inflight w !! rid = Some (KAddItems b) →
  batches w !! b = Some B →
  batch_settled B = false →
  settle r = inr e →
  let w' := step (EvCreateReply rid r) w in
  items (st w') = items (st w)
  ∧ loading (st w') = false
  ∧ log w' = log w ++ reload_log (settle r) (storage w)
               ++ [EConsoleError; EAlert failure_message]
  ∧ inflight w' = delete rid (inflight w)
  ∧ batches w'
    = <[b := mkBatch (batch_tab B) (batch_requests B) (batch_results B) true]> (batches w).
Proof.
  intros Hin Hb Hs He w'.
  destruct (step_create_reply w rid b r Hin) as (H1 & H2 & H3 & H4).
  destruct (settled_spec rid (settle r) w) as (S1 & S2 & S3 & S4).
  unfold w'. rewrite H1, H2, H3, H4. unfold addItems_then.
  rewrite S4, Hb, Hs. rewrite He in *. cbn -[settled reload_log].
  rewrite ?S1, ?S2, ?S3, ?S4. rewrite <- !app_assoc. done.
Qed.

(** A row arrives while another POST of the batch has none yet:
    [Promise.all] keeps waiting and nothing is shown. *)
Lemma create_reply_waits w rid b B r data other :
  inflight w !! rid = Some (KAddItems b) →
  batches w !! b = Some B →
  batch_settled B = false →
  settle r = inl data →
  other ∈ batch_requests B → other ≠ rid → batch_results B !! other = None →
  let w' := step (EvCreateReply rid r) w in
  st w' = st w
  ∧ log w' = log w
  ∧ inflight w' = delete rid (inflight w)
  ∧ batches w'
    = <[b := mkBatch (batch_tab B) (batch_requests B)
              (<[rid := data]> (batch_results B)) false]> (batches w).
Proof.
  intros Hin Hb Hs He Hel Hne Hno w'.
  destruct (step_create_reply w rid b r Hin) as (H1 & H2 & H3 & H4).
  destruct (settled_spec rid (settle r) w) as (S1 & S2 & S3 & S4).
  unfold w'. rewrite H1, H2, H3, H4. unfold addItems_then.
  rewrite S4, Hb, Hs. rewrite He in *. cbn in S2. rewrite app_nil_r in S2.
  destruct (mapM _ (batch_requests B)) as [rows|] eqn:Hm.
  - exfalso. apply mapM_Some_1 in Hm.
    apply list_elem_of_lookup in Hel as [i Hi].
    destruct (Forall2_lookup_l _ _ _ _ _ Hm Hi) as (y & _ & Hy).
    rewrite lookup_insert_ne in Hy by done. congruence.
  - cbn -[settled]. rewrite ?S1, ?S2, ?S3, ?S4. done.
Qed.

Lemma run_cons e es w : run (e :: es) w = run es (step e w).
Proof. reflexivity. Qed.

(** The replies of this section all answer POSTs of one batch, [b]. *)
Section BatchReplies.

Context (b : nat).

Lemma replies_after_settled rs : ∀ w B,
  batches w !! b = Some B →
  batch_settled B = true →
  NoDup rs.*1 →
  (∀ rid, rid ∈ rs.*1 → inflight w !! rid = Some (KAddItems b)) →
  let w' := run (create_replies rs) w in
  st w' = st w
  ∧ ∃ l, log w' = log w ++ l
         ∧ List.filter is_alert l = [] ∧ List.filter is_stats_request l = [].
Proof.
  induction rs as [|[rid r] rs IH]; intros w B Hb Hs Hnd Hin; cbn zeta.
  - split; [done|]. exists []. by rewrite app_nil_r.
  - cbn [create_replies map fst snd]. rewrite run_cons.
    cbn in Hnd. apply NoDup_cons in Hnd as [Hnotin Hnd].
    destruct (create_reply_after_settled w rid b B r) as (H1 & H2 & H3 & H4);
      [apply Hin; cbn; apply list_elem_of_here | done | done |].
    remember (step (EvCreateReply rid r) w) as w1 eqn:Hw1; clear Hw1.
    destruct (IH w1 B) as (I1 & l & I2 & I3 & I4);
      [by rewrite H4 | done | done | |].
    { intros rid' Hel. rewrite H3, lookup_delete_ne by (intros ->; done).
      apply Hin. cbn. by apply list_elem_of_further. }
    fold (create_replies rs). split; [by rewrite I1, H1|].
    exists (reload_log (settle r) (storage w) ++ l).
    rewrite I2, H2, <- app_assoc. split; [done|].
    rewrite !List.filter_app, I3, I4.
    by destruct (reload_log_quiet (settle r) (storage w)) as [-> ->].
Qed.

Lemma replies_with_failure rs : ∀ w B,
  batches w !! b = Some B →
  batch_settled B = false →
  NoDup rs.*1 →
  (∀ rid, rid ∈ rs.*1 →
     rid ∈ batch_requests B
     ∧ inflight w !! rid = Some (KAddItems b)
     ∧ batch_results B !! rid = None) →
  (∃ rid r, (rid, r) ∈ rs ∧ succeeded r = false) →
  let w' := run (create_replies rs) w in
  items (st w') = items (st w)
  ∧ loading (st w') = false
  ∧ ∃ l, log w' = log w ++ l
         ∧ List.filter is_alert l = [EAlert failure_message]
         ∧ List.filter is_stats_request l = [].
Proof.
  induction rs as [|[rid r] rs IH]; intros w B Hb Hs Hnd Hin Hfail; cbn zeta.
  - destruct Hfail as (? & ? & Hel & _). by apply elem_of_nil in Hel.
  - cbn [create_replies map fst snd]. rewrite run_cons. fold (create_replies rs).
    cbn in Hnd. apply NoDup_cons in Hnd as [Hnotin Hnd].
    destruct (Hin rid) as (Hreq & Hfl & Hres); [cbn; apply list_elem_of_here|].
    assert (Hother : ∀ rid', rid' ∈ rs.*1 → rid' ≠ rid) by (intros ? ? ->; done).
    destruct (settle r) as [data|e] eqn:Hset.
    + (* a row: the failing reply is still to come *)
      assert (Hfail' : ∃ rid' r', (rid', r') ∈ rs ∧ succeeded r' = false).
      { destruct Hfail as (rf & r' & Hel & Hf).
        apply elem_of_cons in Hel as [Heq|Hel]; [|by eauto].
        injection Heq as -> ->. unfold succeeded in Hf. by rewrite Hset in Hf. }
      destruct Hfail' as (rf & r' & Hel & Hf).
      assert (Hrf : rf ∈ rs.*1).
      { apply list_elem_of_fmap. by exists (rf, r'). }
      destruct (Hin rf) as (Hrfreq & _ & Hrfres); [cbn; by apply list_elem_of_further|].
      destruct (create_reply_waits w rid b B r data rf)
        as (H1 & H2 & H3 & H4); try done; [by apply Hother|].
      remember (step (EvCreateReply rid r) w) as w1 eqn:Hw1; clear Hw1.
      destruct (IH w1 (mkBatch (batch_tab B) (batch_requests B)
                         (<[rid := data]> (batch_results B)) false))
        as (I1 & I2 & l & I3 & I4 & I5); try done.
      { rewrite H4. apply lookup_insert_eq. }
      { intros rid' Hel'. pose proof (Hother rid' Hel') as Hne.
        destruct (Hin rid') as (? & ? & ?); [cbn; by apply list_elem_of_further|].
        cbn. rewrite H3, !lookup_delete_ne, lookup_insert_ne by done. done. }
      { by eauto. }
      rewrite I1, I2, H1. repeat (split; [done|]).
      exists l. by rewrite I3, H2.
    + (* the first rejection *)
      destruct (create_reply_rejects w rid b B r e)
        as (H1 & H2 & H3 & H4 & H5); try done.
      remember (step (EvCreateReply rid r) w) as w1 eqn:Hw1; clear Hw1.
      destruct (replies_after_settled rs w1
                  (mkBatch (batch_tab B) (batch_requests B) (batch_results B) true))
        as (I1 & l & I2 & I3 & I4); try done.
      { rewrite H5. apply lookup_insert_eq. }
      { intros rid' Hel'. pose proof (Hother rid' Hel') as Hne.
        destruct (Hin rid') as (? & ? & ?); [cbn; by apply list_elem_of_further|].
        by rewrite H4, lookup_delete_ne. }
      rewrite I1, H1, H2. repeat (split; [done|]).
      exists ((@reload_log Item (inr e) (storage w) ++ [EConsoleError; EAlert failure_message]) ++ l).
      rewrite I2, H3, Hset, <- !app_assoc. split; [done|].
      rewrite !List.filter_app, I3, I4.
      by destruct (reload_log_quiet (@inr Item _ e) (storage w)) as [-> ->].
Qed.

End BatchReplies.

(** C6.  The replies in [rs] answer requests of one pending
    [Promise.all] of [addItems], each request at most once and none of
    them answered before.  If one of the replies is a failure, then after
    all of them the list is what it was, whatever rows the other replies
    carried; the failure alert was shown, once; no stats request was sent;
    [loading] is false. *)
Theorem addItems_any_failure_discards_all w b B rs :
  batches w !! b = Some B →
  batch_settled B = false →
  NoDup rs.*1 →
  (∀ rid, rid ∈ rs.*1 →
     rid ∈ batch_requests B
     ∧ inflight w !! rid = Some (KAddItems b)
     ∧ batch_results B !! rid = None) →
  (∃ rid r, (rid, r) ∈ rs ∧ succeeded r = false) →
  let w' := run (create_replies rs) w in
  items (st w') = items (st w)
  ∧ List.filter is_alert (log_since w w') = [EAlert failure_message]
  ∧ List.filter is_stats_request (log_since w w') = []
  ∧ loading (st w') = false.
Proof.
  intros Hb Hs Hnd Hin Hfail w'.
  destruct (replies_with_failure b rs w B Hb Hs Hnd Hin Hfail)
    as (H1 & H2 & l & H3 & H4 & H5).
  fold w' in H1, H2, H3. rewrite (log_since_app _ _ _ H3). done.
Qed.

Lemma addItems_any_failure_discards_all_witness :
  let rs := [(2%nat, Response 201 (new_row 10)); (3%nat, Response 500 ∅);
             (4%nat, Response 201 (new_row 12))] in
  let w' := run (create_replies rs) adding_three in
  items (st w') = items (st adding_three)
  ∧ List.filter is_alert (log_since adding_three w') = [EAlert failure_message]
  ∧ List.filter is_stats_request (log_since adding_three w') = []
  ∧ loading (st w') = false.
Proof.
  apply (addItems_any_failure_discards_all adding_three 2
           (mkBatch "yangi" [2; 3; 4]%nat ∅ false)).
  - vm_compute. reflexivity.
  - reflexivity.
  - apply (bool_decide_unpack _). vm_compute. reflexivity.
  - intros rid Hel. cbn in Hel.
    rewrite !elem_of_cons in Hel.
    destruct Hel as [-> | [-> | [-> | Hel]]]; [| | |by apply elem_of_nil in Hel].
    all: split; [apply (bool_decide_unpack _); vm_compute; reflexivity|].
    all: split; vm_compute; reflexivity.
  - exists 3%nat, (Response 500 ∅). split; [|reflexivity].
    apply list_elem_of_further, list_elem_of_here.
Defined.

(** The batch that an accepted [addItems] opens satisfies the
    assumptions of the theorem above for all of its requests. *)
Lemma post_items_keeps tab b count : ∀ w rid,
  (rid < next_id w)%nat →
  inflight (post_items tab b count w) !! rid = inflight w !! rid.
Proof.
  induction count as [|n IH]; intros w rid Hr; [done|].
  cbn [post_items]. rewrite IH by (cbn; lia).
  cbn. apply lookup_insert_ne. lia.
Qed.

Lemma post_items_inflight tab b count : ∀ w rid,
  (next_id w <= rid < next_id w + count)%nat →
  inflight (post_items tab b count w) !! rid = Some (KAddItems b).
Proof.
  induction count as [|n IH]; intros w rid Hr; [lia|].
  cbn [post_items].
  destruct (decide (rid = next_id w)) as [->|Hne].
  - rewrite post_items_keeps by (cbn; lia). apply lookup_insert_eq.
  - apply IH. cbn. lia.
Qed.


Lemma addItems_try_inflight snap count w rid :
  (next_id w <= rid < next_id w + loop_posts count)%nat →
  inflight (addItems_try snap count w) !! rid = Some (KAddItems (next_id w)).
Proof.
  intros Hr. unfold addItems_try.
  destruct (loop_throws count); cbn [inflight setState emit];
    apply post_items_inflight; cbn; lia.
Qed.

Lemma addItems_opens_batch w countStr ok n :
  parseInt countStr = Finite n →
  0 < n <= max_array_length →
  n <= 100 ∨ ok = true →
  let w1 := step (EvAddItems (Some countStr) ok) w in
  let b := next_id w in
  batches w1 !! b = Some (mkBatch (activeTab (st w)) (seq b (Z.to_nat n)) ∅ false)
  ∧ ∀ rid, rid ∈ seq b (Z.to_nat n) → inflight w1 !! rid = Some (KAddItems b).
Proof.
  intros Hp Hpos Hok w1 b. unfold w1. rewrite step_addItems.
  set (h := addItems (st w) (Some countStr) ok w).
  destruct (loop_in_range n) as [Hthrow Hposts]; [lia|].
  assert (Hh : batches h !! b
               = Some (mkBatch (activeTab (st w)) (seq b (Z.to_nat n)) ∅ false)
               ∧ ∀ rid, rid ∈ seq b (Z.to_nat n) → inflight h !! rid = Some (KAddItems b)).
  { assert (Hgo : ∀ w0, next_id w0 = b →
              let w2 := addItems_try (st w) (Finite n) w0 in
              batches w2 !! b
              = Some (mkBatch (activeTab (st w)) (seq b (Z.to_nat n)) ∅ false)
              ∧ ∀ rid, rid ∈ seq b (Z.to_nat n) → inflight w2 !! rid = Some (KAddItems b)).
    { intros w0 Hw0 w2. unfold w2. split.
      - destruct (addItems_try_spec (st w) (Finite n) w0) as (_ & _ & _ & _ & _ & _ & -> & _).
        rewrite Hthrow, Hposts, Hw0. apply lookup_insert_eq.
      - intros rid Hel. apply elem_of_seq in Hel.
        rewrite <- Hw0. apply addItems_try_inflight. rewrite Hposts, Hw0. lia. }
    unfold h, addItems. rewrite Hp. cbn [isNaN Number_leb Number_ltb orb negb].
    rewrite (proj2 (Z.ltb_lt 0 n)) by lia. cbn [negb].
    destruct (100 <? n) eqn:Hbig.
    - destruct Hok as [Hle | ->]; [apply Z.ltb_lt in Hbig; lia|].
      by apply Hgo.
    - by apply Hgo. }
  destruct Hh as [H1 H2].
  unfold effect_observer. by case_match.
Qed.

Example addItems_second_of_three_fails :
  let w := run [EvCreateReply 2 (Response 201 (new_row 10));
                EvCreateReply 3 (Response 500 ∅);
                EvCreateReply 4 (Response 201 (new_row 12))] adding_three in
  items (st w) = [one_row]
  ∧ log_since adding_three w = [EConsoleError; EAlert failure_message].
Proof. split; vm_compute; reflexivity. Qed.

Example addItems_all_three_succeed :
  let w := run [EvCreateReply 3 (Response 201 (new_row 11));
                EvCreateReply 2 (Response 201 (new_row 10));
                EvCreateReply 4 (Response 201 (new_row 12))] adding_three in
  items (st w) = [one_row; new_row 10; new_row 11; new_row 12]
  ∧ log_since adding_three w = [ERequest 5 (Some "Bearer t0k3n") (GetStats "yangi")].
Proof. split; vm_compute; reflexivity. Qed.

(** * Further properties of the component *)

(** ** List replies (App.jsx 124-131) *)

(** X1.  A reply to a pending list request never moves the page.  With
    rows it replaces the list when the request was a reset and appends to
    the list as it is now otherwise; [hasMore] is cleared by fewer than 500
    rows and left alone by 500 or more.  A failed reply changes neither the
    list nor [hasMore] and sends nothing.  In both cases the request is no
    longer pending. *)
Theorem list_reply_replaces_or_appends w rid reset (r : HttpResult (list Item)) :
  inflight w !! rid = Some (KFetchItems reset) →
  let w' := step (EvItemsReply rid r) w in
  page (st w') = page (st w)
  ∧ inflight w' !! rid = None
  ∧ requests_since w w' = []
  ∧ match settle r with
    | inl rows =>
        items (st w') = (if reset then rows else items (st w) ++ rows)
        ∧ hasMore (st w') = (if (length rows <? limit)%nat then false else hasMore (st w))
    | inr _ =>
        items (st w') = items (st w) ∧ hasMore (st w') = hasMore (st w)
    end.
Proof.
  intros Hin w'. unfold w'. rewrite (step_items_reply _ _ _ _ Hin).
  unfold requests_since.
  match goal with
  | |- context [if ?c then ?a else effect_observer ?s ?a] =>
      assert (Hw : st (if c then a else effect_observer s a) = st a
                   ∧ inflight (if c then a else effect_observer s a) = inflight a
                   ∧ log (if c then a else effect_observer s a) = log a)
        by (destruct c; done);
      destruct Hw as (Hs & Hi & Hl);
      rewrite Hs, Hi; unfold log_since; rewrite Hl
  end.
  destruct (settled_spec rid (settle r) w) as (S1 & S2 & S3 & S4).
  unfold fetchItems_then. destruct (settle r) as [rows|e].
  - cbn in S2. rewrite app_nil_r in S2.
    destruct (length rows <? limit)%nat; cbn -[settled]; rewrite ?S1, ?S2, ?S3;
      rewrite lookup_delete_eq, drop_all; done.
  - cbn -[settled reload_log]. rewrite S1, S2, S3, lookup_delete_eq.
    repeat (split; [done|]). split; [|done].
    rewrite <- app_assoc, drop_app_length, List.filter_app.
    unfold reload_log. by repeat case_match.
Qed.

Lemma list_reply_replaces_or_appends_witness :
  let w := run [EvItemsReply 0 (@NetworkError (list Item));
                EvIntersection true] (mount logged_in_storage) in
  let w' := step (EvItemsReply 2 (Response 200 [new_row 7])) w in
  page (st w') = page (st w)
  ∧ inflight w' !! 2%nat = None
  ∧ requests_since w w' = []
  ∧ match settle (Response 200 [new_row 7]) with
    | inl rows =>
        items (st w') = (if false then rows else items (st w) ++ rows)
        ∧ hasMore (st w') = (if (length rows <? limit)%nat then false else hasMore (st w))
    | inr _ =>
        items (st w') = items (st w) ∧ hasMore (st w') = hasMore (st w)
    end.
Proof.
  apply (list_reply_replaces_or_appends _ 2 false (Response 200 [new_row 7])).
  vm_compute. reflexivity.
Defined.

(** ** [returnItem] (App.jsx 201-208) *)

Lemma settled_inl {A} rid (a : A) w :
  settled rid (inl a) w = set_inflight (delete rid (inflight w)) w.
Proof. reflexivity. Qed.

Lemma next_id_settled {A} rid (res : A + AxiosError) w :
  next_id (settled rid res w) = next_id w.
Proof. unfold settled, intercept. by repeat case_match. Qed.

Lemma step_returnItem w id ok :
  step (EvReturnItem id ok) w = returnItem (st w) id ok w.
Proof.
  unfold step. apply commit_same. cbn. unfold returnItem. destruct ok; same_deps.
Qed.

Lemma step_return_reply w rid tab id r :
  inflight w !! rid = Some (KReturnItem tab id) →
  step (EvReturnReply rid r) w
  = returnItem_then tab id (settle r) (settled rid (settle r) w).
Proof.
  intros H. unfold step. cbn [handle]. rewrite H.
  apply commit_same.
  unfold returnItem_then, settled, intercept, fetchStats.
  repeat case_match; same_deps.
Qed.

(** X2.  [returnItem(id)] sends nothing when the confirmation is declined.
    When its POST succeeds, every row with that id becomes the row the
    server returned, every other row stays where and what it was, and the
    stats of the tab the button was clicked on are refetched; when it
    fails the list is untouched and nothing is sent. *)
Theorem returnItem_replaces_row :
  (∀ w id,
     let w' := step (EvReturnItem id false) w in
     st w' = st w ∧ inflight w' = inflight w ∧ requests_since w w' = [])
  ∧ (∀ w id,
       let w' := step (EvReturnItem id true) w in
       st w' = st w
       ∧ inflight w' !! next_id w = Some (KReturnItem (activeTab (st w)) id)
       ∧ requests_since w w'
         = [ERequest (next_id w) (request_interceptor (storage w)) (PostReturn id)])
  ∧ (∀ w rid tab id (r : HttpResult Item),
       inflight w !! rid = Some (KReturnItem tab id) →
       let w' := step (EvReturnReply rid r) w in
       match settle r with
       | inl data =>
           items (st w') = map (returned id data) (items (st w))
           ∧ length (items (st w')) = length (items (st w))
           ∧ (∀ k row, items (st w) !! k = Some row → prop "id" row ≠ id →
                       items (st w') !! k = Some row)
           ∧ (∀ k row, items (st w) !! k = Some row → prop "id" row = id →
                       items (st w') !! k = Some data)
           ∧ requests_since w w'
             = [ERequest (next_id w) (request_interceptor (storage w)) (GetStats tab)]
       | inr _ =>
           items (st w') = items (st w) ∧ requests_since w w' = []
       end).
Proof.
  split; [|split].
  - intros w id w'. unfold w'. rewrite step_returnItem. unfold returnItem, requests_since.
    cbn. repeat (split; [done|]). by since [EConfirm "Return this item?"].
  - intros w id w'. unfold w'. rewrite step_returnItem. unfold returnItem, requests_since.
    cbn. split; [done|]. split; [apply lookup_insert_eq|].
    by since [EConfirm "Return this item?";
              ERequest (next_id w) (request_interceptor (storage w)) (PostReturn id)].
  - intros w rid tab id r Hin w'. unfold w'.
    rewrite (step_return_reply _ _ _ _ _ Hin).
    destruct (settled_spec rid (settle r) w) as (S1 & S2 & S3 & S4).
    unfold returnItem_then, requests_since, fetchStats.
    destruct (settle r) as [data|e].
    + rewrite settled_inl. cbn.
      split; [done|]. split; [by rewrite length_map|]. split; [|split].
      * intros k row Hk Hne. rewrite list_lookup_fmap, Hk. cbn.
        unfold strict_eq. by rewrite bool_decide_eq_false_2.
      * intros k row Hk He. rewrite list_lookup_fmap, Hk. cbn.
        unfold strict_eq. by rewrite bool_decide_eq_true_2.
      * by since [ERequest (next_id w) (request_interceptor (storage w)) (GetStats tab)].
    + cbn -[settled reload_log]. rewrite S1. split; [done|].
      unfold log_since. cbn -[settled reload_log]. rewrite S2, <- app_assoc, drop_app_length.
      rewrite List.filter_app. unfold reload_log. by repeat case_match.
Qed.

Lemma returnItem_replaces_row_witness :
  let w := step (EvReturnItem (JNum 1) true) one_row_world in
  let w' := step (EvReturnReply 2 (Response 200 (new_row 1))) w in
  match settle (Response 200 (new_row 1)) with
  | inl data =>
      items (st w') = map (returned (JNum 1) data) (items (st w))
      ∧ length (items (st w')) = length (items (st w))
      ∧ (∀ k row, items (st w) !! k = Some row → prop "id" row ≠ JNum 1 →
                  items (st w') !! k = Some row)
      ∧ (∀ k row, items (st w) !! k = Some row → prop "id" row = JNum 1 →
                  items (st w') !! k = Some data)
      ∧ requests_since w w'
        = [ERequest (next_id w) (request_interceptor (storage w)) (GetStats "yangi")]
  | inr _ =>
      items (st w') = items (st w) ∧ requests_since w w' = []
  end.
Proof.
  apply (proj2 (proj2 returnItem_replaces_row) _ 2%nat "yangi" (JNum 1)
           (Response 200 (new_row 1))).
  vm_compute. reflexivity.
Defined.

(** ** [deleteItem]: when nothing is removed (App.jsx 192-199) *)

(** X3.  [deleteItem(id)] sends nothing when the confirmation is declined.
    A failed DELETE leaves the list as it is and refetches nothing.  A
    successful DELETE of an id that no row of the list carries also leaves
    the list as it is, but the stats are refetched all the same. *)
Theorem deleteItem_leaves_list_alone :
  (∀ w id,
     let w' := step (EvDeleteItem id false) w in
     st w' = st w ∧ inflight w' = inflight w ∧ requests_since w w' = [])
  ∧ (∀ w rid tab id (r : HttpResult unit),
       inflight w !! rid = Some (KDeleteItem tab id) →
       succeeded r = false →
       let w' := step (EvDeleteReply rid r) w in
       items (st w') = items (st w) ∧ requests_since w w' = [])
  ∧ (∀ w rid tab id (r : HttpResult unit),
       inflight w !! rid = Some (KDeleteItem tab id) →
       succeeded r = true →
       (∀ row, row ∈ items (st w) → prop "id" row ≠ id) →
       let w' := step (EvDeleteReply rid r) w in
       items (st w') = items (st w)
       ∧ requests_since w w'
         = [ERequest (next_id w) (request_interceptor (storage w)) (GetStats tab)]).
Proof.
  split; [|split].
  - intros w id w'. unfold w'. rewrite step_deleteItem. unfold deleteItem, requests_since.
    cbn. repeat (split; [done|]). by since [EConfirm "Delete this row?"].
  - intros w rid tab id r Hin Hr w'. unfold w'.
    rewrite (step_delete_reply _ _ _ _ _ Hin).
    destruct (settled_spec rid (settle r) w) as (S1 & S2 & S3 & S4).
    unfold succeeded in Hr. unfold deleteItem_then, requests_since.
    destruct (settle r) as [[]|e]; [discriminate|].
    cbn -[settled reload_log]. rewrite S1. split; [done|].
    unfold log_since. cbn -[settled reload_log]. rewrite S2, <- app_assoc, drop_app_length.
    rewrite List.filter_app. unfold reload_log. by repeat case_match.
  - intros w rid tab id r Hin Hr Habs w'. unfold w'.
    rewrite (step_delete_reply _ _ _ _ _ Hin).
    unfold succeeded in Hr. unfold deleteItem_then, requests_since, fetchStats.
    destruct (settle r) as [[]|e]; [|discriminate].
    rewrite settled_inl. cbn. split.
    + clear Hin. induction (items (st w)) as [|row l IH]; [done|].
      rewrite filter_cons_True by (apply Habs, list_elem_of_here).
      f_equal. apply IH. intros row' Hel. by apply Habs, list_elem_of_further.
    + by since [ERequest (next_id w) (request_interceptor (storage w)) (GetStats tab)].
Qed.

Lemma deleteItem_leaves_list_alone_witness :
  let w := step (EvDeleteItem (JNum 99) true) one_row_world in
  let w' := step (EvDeleteReply 2 (Response 200 ())) w in
  items (st w') = items (st w)
  ∧ requests_since w w'
    = [ERequest (next_id w) (request_interceptor (storage w)) (GetStats "yangi")].
Proof.
  apply (proj2 (proj2 deleteItem_leaves_list_alone) _ 2%nat "yangi" (JNum 99)
           (Response 200 ())).
  - vm_compute. reflexivity.
  - reflexivity.
  - intros row Hel. vm_compute in Hel.
    apply list_elem_of_singleton in Hel. subst row. vm_compute. discriminate.
Defined.

(** ** [updateItem]: the patch (App.jsx 180-182) *)

Lemma patched_idempotent id field value item :
  patched id field value (patched id field value item) = patched id field value item.
Proof.
  unfold patched, spread_set, strict_eq.
  destruct (bool_decide (prop "id" item = id)) eqn:H1; [|by rewrite H1].
  destruct (bool_decide (prop "id" (<[field:=value]> item) = id)); [|done].
  apply insert_insert_eq.
Qed.

(** X4.  [updateItem(id, field, value)] keeps the number of rows, leaves
    every row with another id as it was, and in a row with that id sets
    [field] to [value] and no other property.  Making the same edit again
    changes nothing, and whatever the PUT answers, an error included, the
    edit stays in the list: there is no rollback. *)
Theorem updateItem_patch_reads_back w id field value :
  let w1 := step (EvUpdateItem id field value) w in
  length (items (st w1)) = length (items (st w))
  ∧ (∀ k row, items (st w) !! k = Some row → prop "id" row ≠ id →
              items (st w1) !! k = Some row)
  ∧ (∀ k row, items (st w) !! k = Some row → prop "id" row = id →
       ∃ row', items (st w1) !! k = Some row'
               ∧ prop field row' = value
               ∧ ∀ f, f ≠ field → prop f row' = prop f row)
  ∧ items (st (step (EvUpdateItem id field value) w1)) = items (st w1)
  ∧ ∀ r, items (st (step (EvUpdateReply (next_id w) r) w1)) = items (st w1).
Proof.
  intros w1.
  assert (Hitems : items (st w1) = map (patched id field value) (items (st w))).
  { unfold w1. rewrite step_updateItem. reflexivity. }
  assert (Hin : inflight w1 !! next_id w = Some (KUpdateItem (activeTab (st w)) field)).
  { unfold w1. rewrite step_updateItem. cbn. apply lookup_insert_eq. }
  clearbody w1.
  split; [by rewrite Hitems, length_map|]. split; [|split; [|split]].
  - intros k row Hk Hne. rewrite Hitems, list_lookup_fmap, Hk. cbn.
    unfold patched, strict_eq. by rewrite bool_decide_eq_false_2.
  - intros k row Hk He. exists (spread_set row field value).
    rewrite Hitems, list_lookup_fmap, Hk. cbn.
    unfold patched, strict_eq. rewrite bool_decide_eq_true_2 by done.
    split; [done|]. unfold prop, spread_set. split.
    + by rewrite lookup_insert_eq.
    + intros f Hf. by rewrite lookup_insert_ne.
  - rewrite step_updateItem.
    change (items (st (updateItem (st w1) id field value w1)))
      with (map (patched id field value) (items (st w1))).
    rewrite Hitems, map_map. apply map_ext. intros. apply patched_idempotent.
  - intros r.
    rewrite (step_update_reply _ _ _ _ _ Hin).
    destruct (settled_spec (next_id w) (settle r) w1) as (S1 & _).
    unfold updateItem_then, fetchStats. destruct (settle r) as [[]|e].
    + rewrite settled_inl. by case_bool_decide.
    + cbn -[settled]. by rewrite S1.
Qed.

Lemma updateItem_patch_reads_back_witness :
  let w := one_row_world in
  let id := JNum 1 in
  let w1 := step (EvUpdateItem id "fio" (JStr "Ali")) w in
  length (items (st w1)) = length (items (st w))
  ∧ (∀ k row, items (st w) !! k = Some row → prop "id" row ≠ id →
              items (st w1) !! k = Some row)
  ∧ (∀ k row, items (st w) !! k = Some row → prop "id" row = id →
       ∃ row', items (st w1) !! k = Some row'
               ∧ prop "fio" row' = JStr "Ali"
               ∧ ∀ f, f ≠ "fio" → prop f row' = prop f row)
  ∧ items (st (step (EvUpdateItem id "fio" (JStr "Ali")) w1)) = items (st w1)
  ∧ ∀ r, items (st (step (EvUpdateReply (next_id w) r) w1)) = items (st w1).
Proof.
  exact (updateItem_patch_reads_back one_row_world (JNum 1) "fio" (JStr "Ali")).
Defined.

(** ** [addItems]: cancelled prompt, small counts (App.jsx 142-164) *)

(** X5.  A cancelled prompt ends [addItems] with no alert, no request and
    no state change.  A count from 1 to 100 is not confirmed: right after
    the prompt exactly [count] POSTs for the active tab leave, [loading]
    is set and the list is not touched until they settle. *)
Theorem addItems_cancel_and_small_counts w ok :
  (let w' := step (EvAddItems None ok) w in
   st w' = st w ∧ inflight w' = inflight w
   ∧ log_since w w' = [EPrompt prompt_message "1"])
  ∧ (∀ countStr n,
       parseInt countStr = Finite n → 0 < n <= 100 →
       let w' := step (EvAddItems (Some countStr) ok) w in
       log_since w w'
       = EPrompt prompt_message "1" :: post_requests (activeTab (st w)) w (Z.to_nat n)
       ∧ length (requests_since w w') = Z.to_nat n
       ∧ loading (st w') = true
       ∧ items (st w') = items (st w)).
Proof.
  split.
  - cbn zeta. rewrite step_addItems. unfold addItems. cbn.
    rewrite observer_deps_same_refl. repeat (split; [done|]).
    by since [EPrompt prompt_message "1"].
  - intros countStr n Hn Hrange w'. unfold w'. rewrite step_addItems.
    unfold addItems. rewrite Hn. cbn [isNaN Number_leb Number_ltb orb negb].
    rewrite (proj2 (Z.ltb_lt 0 n)) by lia.
    rewrite (proj2 (Z.ltb_ge 100 n)) by lia. cbn [negb].
    destruct (loop_in_range n) as [Hthrow Hposts];
      [change max_array_length with 4294967295; lia|].
    match goal with
    | |- context [addItems_try ?s0 ?c ?w0] =>
        pose proof (addItems_try_spec s0 c w0) as Hp; cbn zeta in Hp;
        set (wp := addItems_try s0 c w0) in *
    end.
    destruct Hp as (Hst & _ & _ & _ & _ & _ & _ & Hl). clearbody wp.
    rewrite Hthrow in Hst. rewrite Hthrow, Hposts in Hl. unfold post_requests in Hl.
    cbn [st log emit next_id storage negb] in Hst, Hl. rewrite app_nil_r in Hl.
    fold (post_requests (activeTab (st w)) w (Z.to_nat n)) in Hl.
    match goal with
    | |- context [if ?c then wp else ?b] =>
        assert (Hw : st (if c then wp else b) = st wp ∧ log (if c then wp else b) = log wp)
          by (destruct c; done);
        destruct Hw as [Hw1 Hw2]
    end.
    assert (Hlog : log_since w (if observer_deps_same (st w) (st wp) then wp
                                else effect_observer (st wp) wp)
                   = EPrompt prompt_message "1"
                     :: post_requests (activeTab (st w)) w (Z.to_nat n)).
    { apply log_since_app. rewrite Hw2, Hl, <- app_assoc. reflexivity. }
    split; [exact Hlog|]. unfold requests_since. rewrite Hlog, Hw1, Hst.
    split; [|done]. cbn. unfold post_requests.
    assert (Hall : ∀ l, List.filter is_request
                     (map (fun i => ERequest (next_id w + i)%nat
                             (request_interceptor (storage w))
                             (PostItem (activeTab (st w)))) l)
                   = map (fun i => ERequest (next_id w + i)%nat
                            (request_interceptor (storage w))
                            (PostItem (activeTab (st w)))) l).
    { induction l as [|i l IH]; [done|]. cbn. by rewrite IH. }
    by rewrite Hall, length_map, length_seq.
Qed.

Lemma addItems_cancel_and_small_counts_witness :
  let w := one_row_world in
  let w' := step (EvAddItems (Some (code_units " 3 rows")) false) w in
  log_since w w'
  = EPrompt prompt_message "1" :: post_requests (activeTab (st w)) w (Z.to_nat 3)
  ∧ length (requests_since w w') = Z.to_nat 3
  ∧ loading (st w') = true
  ∧ items (st w') = items (st w).
Proof.
  apply (proj2 (addItems_cancel_and_small_counts one_row_world false)
           (code_units " 3 rows") 3); [reflexivity | lia].
Defined.

(** ** [addItems]: every POST succeeds (App.jsx 166-171) *)

Lemma step_create_reply_fields w rid b r :
  inflight w !! rid = Some (KAddItems b) →
  let h := addItems_then b rid (settle r) (settled rid (settle r) w) in
  next_id (step (EvCreateReply rid r) w) = next_id h
  ∧ storage (step (EvCreateReply rid r) w) = storage h.
Proof.
  intros Hin h. unfold step. cbn [handle]. rewrite Hin. fold h.
  rewrite commit_observer_only;
    [unfold effect_observer; by case_match | | |];
    unfold h, addItems_then, settled, intercept, fetchStats;
    repeat case_match; quiet_deps.
Qed.

(** The last row arrives: [Promise.all] resolves and the code after the
    [await] runs. *)
Lemma create_reply_completes w rid b B r data rows :
  inflight w !! rid = Some (KAddItems b) →
  batches w !! b = Some B →
  batch_settled B = false →
  settle r = inl data →
  mapM (fun i => <[rid := data]> (batch_results B) !! i) (batch_requests B) = Some rows →
  let w' := step (EvCreateReply rid r) w in
  items (st w') = items (st w) ++ rows
  ∧ loading (st w') = false
  ∧ log w' = log w ++ [ERequest (next_id w) (request_interceptor (storage w))
                         (GetStats (batch_tab B))].
Proof.
  intros Hin Hb Hs He Hm w'.
  destruct (step_create_reply w rid b r Hin) as (H1 & H2 & _).
  unfold w'. rewrite H1, H2. rewrite He, settled_inl. unfold addItems_then.
  cbn [batches set_inflight]. rewrite Hb, Hs, Hm. cbn. done.
Qed.

Lemma create_reply_waits_fields w rid b B r data other :
  inflight w !! rid = Some (KAddItems b) →
  batches w !! b = Some B →
  batch_settled B = false →
  settle r = inl data →
  other ∈ batch_requests B → other ≠ rid → batch_results B !! other = None →
  next_id (step (EvCreateReply rid r) w) = next_id w
  ∧ storage (step (EvCreateReply rid r) w) = storage w.
Proof.
  intros Hin Hb Hs He Hel Hne Hno.
  destruct (step_create_reply_fields w rid b r Hin) as [-> ->].
  rewrite He, settled_inl. unfold addItems_then.
  cbn [batches set_inflight]. rewrite Hb, Hs.
  destruct (mapM _ (batch_requests B)) as [rows|] eqn:Hm; [|done].
  exfalso. apply mapM_Some_1 in Hm.
  apply list_elem_of_lookup in Hel as [i Hi].
  destruct (Forall2_lookup_l _ _ _ _ _ Hm Hi) as (y & _ & Hy).
  rewrite lookup_insert_ne in Hy by done. congruence.
Qed.

Section BatchCompletes.

Context (b : nat) (P : nat → Item → Prop).

Lemma replies_all_succeed rs : ∀ w B,
  batches w !! b = Some B →
  batch_settled B = false →
  rs ≠ [] →
  NoDup rs.*1 →
  (∀ rid, rid ∈ rs.*1 →
     rid ∈ batch_requests B
     ∧ inflight w !! rid = Some (KAddItems b)
     ∧ batch_results B !! rid = None) →
  (∀ rid, rid ∈ batch_requests B →
     rid ∈ rs.*1 ∨ ∃ d, batch_results B !! rid = Some d ∧ P rid d) →
  (∀ rid r, (rid, r) ∈ rs → ∃ d, settle r = inl d ∧ P rid d) →
  let w' := run (create_replies rs) w in
  ∃ rows,
    Forall2 P (batch_requests B) rows
    ∧ items (st w') = items (st w) ++ rows
    ∧ loading (st w') = false
    ∧ log w' = log w ++ [ERequest (next_id w) (request_interceptor (storage w))
                           (GetStats (batch_tab B))].
Proof.
  induction rs as [|[rid r] rs IH]; intros w B Hb Hs Hne Hnd Hin Hcov Hok; [done|].
  cbn zeta. cbn [create_replies map fst snd]. rewrite run_cons. fold (create_replies rs).
  cbn in Hnd. apply NoDup_cons in Hnd as [Hnotin Hnd].
  destruct (Hin rid) as (Hreq & Hfl & Hres); [cbn; apply list_elem_of_here|].
  destruct (Hok rid r) as (data & Hset & HP); [apply list_elem_of_here|].
  assert (Hother : ∀ rid', rid' ∈ rs.*1 → rid' ≠ rid) by (intros ? ? ->; done).
  destruct rs as [|[rf r'] rs'].
  - (* the last reply *)
    assert (Hall : Forall (fun i => ∃ d, <[rid := data]> (batch_results B) !! i = Some d
                                         ∧ P i d) (batch_requests B)).
    { apply Forall_forall. intros i Hi.
      destruct (decide (i = rid)) as [->|Hi'].
      - exists data. by rewrite lookup_insert_eq.
      - rewrite lookup_insert_ne by done.
        destruct (Hcov i Hi) as [Hel | Hd]; [|done].
        cbn in Hel. apply list_elem_of_singleton in Hel. done. }
    assert (Hm : is_Some (mapM (fun i => <[rid := data]> (batch_results B) !! i)
                            (batch_requests B))).
    { apply mapM_is_Some. eapply Forall_impl; [exact Hall|].
      intros i (d & Hd & _). cbn. by rewrite Hd. }
    destruct Hm as [rows Hm].
    destruct (create_reply_completes w rid b B r data rows) as (H1 & H2 & H3); try done.
    exists rows. split; [|done].
    apply mapM_Some_1 in Hm.
    clear -Hm Hall. induction Hm as [|i row l rows' Hi Hm IHm]; [constructor|].
    apply Forall_cons in Hall as [(d & Hd & HPd) Hall].
    constructor; [congruence | by apply IHm].
  - (* more replies to come *)
    assert (Hrf : rf ∈ ((rf, r') :: rs').*1) by (cbn; apply list_elem_of_here).
    destruct (Hin rf) as (Hrfreq & _ & Hrfres); [cbn; by apply list_elem_of_further|].
    destruct (create_reply_waits w rid b B r data rf)
      as (H1 & H2 & H3 & H4); try done; [by apply Hother|].
    destruct (create_reply_waits_fields w rid b B r data rf)
      as (H5 & H6); try done; [by apply Hother|].
    remember (step (EvCreateReply rid r) w) as w1 eqn:Hw1; clear Hw1.
    destruct (IH w1 (mkBatch (batch_tab B) (batch_requests B)
                       (<[rid := data]> (batch_results B)) false))
      as (rows & I1 & I2 & I3 & I4); try done.
    { rewrite H4. apply lookup_insert_eq. }
    { intros rid' Hel'. pose proof (Hother rid' Hel') as Hne'.
      destruct (Hin rid') as (? & ? & ?); [cbn; by apply list_elem_of_further|].
      cbn. rewrite H3, !lookup_delete_ne, lookup_insert_ne by done. done. }
    { cbn. intros i Hi. destruct (decide (i = rid)) as [->|Hi'].
      - right. exists data. by rewrite lookup_insert_eq.
      - rewrite lookup_insert_ne by done.
        destruct (Hcov i Hi) as [Hel | Hd]; [|by right].
        cbn in Hel. apply elem_of_cons in Hel as [?|Hel]; [done|]. by left. }
    { intros rid' r'' Hel. apply Hok. by apply list_elem_of_further. }
    exists rows. cbn [batch_requests batch_tab] in I1, I4.
    by rewrite I2, I3, I4, H1, H2, H5, H6.
Qed.

End BatchCompletes.

(** X6.  The replies in [rs] answer every request of one pending
    [Promise.all] of [addItems], each once and all with success, in any
    order of arrival.  After them the list has grown by one row per
    request, in the order in which the requests were sent, each row being
    the one its reply carried; one stats request for the tab of the click
    has left and [loading] is false. *)
Theorem addItems_all_succeed_in_request_order w b B rs :
  batches w !! b = Some B →
  batch_settled B = false →
  rs ≠ [] →
  NoDup rs.*1 →
  rs.*1 ≡ₚ batch_requests B →
  (∀ rid, rid ∈ rs.*1 →
     inflight w !! rid = Some (KAddItems b) ∧ batch_results B !! rid = None) →
  (∀ rid r, (rid, r) ∈ rs → succeeded r = true) →
  let w' := run (create_replies rs) w in
  ∃ rows,
    Forall2 (fun rid row => ∃ r, (rid, r) ∈ rs ∧ settle r = inl row)
      (batch_requests B) rows
    ∧ items (st w') = items (st w) ++ rows
    ∧ loading (st w') = false
    ∧ log_since w w'
      = [ERequest (next_id w) (request_interceptor (storage w)) (GetStats (batch_tab B))].
Proof.
  intros Hb Hs Hne Hnd Hperm Hin Hok w'.
  destruct (replies_all_succeed b
              (fun rid row => ∃ r, (rid, r) ∈ rs ∧ settle r = inl row) rs w B)
    as (rows & H1 & H2 & H3 & H4); try done.
  - intros rid Hel. destruct (Hin rid Hel) as [? ?].
    split; [|done]. by rewrite <- Hperm.
  - intros rid Hel. left. by rewrite Hperm.
  - intros rid r Hel. pose proof (Hok rid r Hel) as Hr. unfold succeeded in Hr.
    destruct (settle r) as [d|] eqn:Hd; [|discriminate].
    exists d. split; [done|]. exists r. done.
  - exists rows. repeat (split; [done|]). fold w' in H4. by apply log_since_app.
Qed.

Lemma addItems_all_succeed_in_request_order_witness :
  let rs := [(3%nat, Response 201 (new_row 11)); (2%nat, Response 201 (new_row 10));
             (4%nat, Response 201 (new_row 12))] in
  let B := mkBatch "yangi" [2; 3; 4]%nat ∅ false in
  let w := adding_three in
  let w' := run (create_replies rs) w in
  ∃ rows,
    Forall2 (fun rid row => ∃ r, (rid, r) ∈ rs ∧ settle r = inl row)
      (batch_requests B) rows
    ∧ items (st w') = items (st w) ++ rows
    ∧ loading (st w') = false
    ∧ log_since w w'
      = [ERequest (next_id w) (request_interceptor (storage w)) (GetStats (batch_tab B))].
Proof.
  apply (addItems_all_succeed_in_request_order adding_three 2
           (mkBatch "yangi" [2; 3; 4]%nat ∅ false)).
  - vm_compute. reflexivity.
  - reflexivity.
  - discriminate.
  - apply (bool_decide_unpack _). vm_compute. reflexivity.
  - cbn. apply perm_swap.
  - intros rid Hel. cbn in Hel.
    rewrite !elem_of_cons in Hel.
    destruct Hel as [-> | [-> | [-> | Hel]]]; [| | |by apply elem_of_nil in Hel].
    all: split; vm_compute; reflexivity.
  - intros rid r Hel.
    rewrite !elem_of_cons in Hel.
    destruct Hel as [Heq | [Heq | [Heq | Hel]]]; [| | |by apply elem_of_nil in Hel].
    all: injection Heq as -> ->; reflexivity.
Defined.

(** ** The first render (App.jsx 28, 45-90) *)

(** Whether or not a render ends with a new observer, the rest of the
    world is the same. *)
Lemma observer_branch_fields (c : bool) s a :
  let w := if c then a else effect_observer s a in
  st w = st a ∧ inflight w = inflight a ∧ log w = log a ∧ timer w = timer a
  ∧ storage w = storage a ∧ next_id w = next_id a ∧ batches w = batches a
  ∧ clock w = clock a.
Proof. by destruct c. Qed.

Lemma request_interceptor_token ls t :
  getItem "token" ls = Some t → t ≠ "" →
  request_interceptor ls = Some ("Bearer " +:+ t).
Proof.
  intros H Hne. unfold request_interceptor, truthy. rewrite H. cbn.
  by rewrite bool_decide_eq_false_2.
Qed.

Lemma mount_logged_out ls :
  truthy (getItem "token" ls) = false →
  mount ls = mkWorld (initial_state ls) ls 0%nat None None ∅ ∅ 0%nat [].
Proof. intros H. unfold mount, initial_state. rewrite H. reflexivity. Qed.

(** The world after the first render of a logged-in page. *)
Lemma mount_token_spec ls t :
  getItem "token" ls = Some t → t ≠ "" →
  let w := mount ls in
  view (st w) = MainView
  ∧ log w = [ERequest 0 (Some ("Bearer " +:+ t)) (GetItems "yangi" 500 0 "");
             ERequest 1 (Some ("Bearer " +:+ t)) (GetStats "yangi")]
  ∧ inflight w !! 0%nat = Some (KFetchItems true)
  ∧ inflight w !! 1%nat = Some KFetchStats
  ∧ st w = setLoading true (initial_state ls)
  ∧ loading (st w) = true
  ∧ timer w = Some (debounce_ms, initial_state ls)
  ∧ loading (initial_state ls) = false.
Proof.
  intros H Hne w.
  pose proof (request_interceptor_token ls t H Hne) as Hh.
  assert (Ht : truthy (getItem "token" ls) = true).
  { unfold truthy. rewrite H. by rewrite bool_decide_eq_false_2. }
  assert (Hinit : initial_state ls
                  = mkState true "" "" "" "yangi" [] ∅ "" false 0%nat true).
  { unfold initial_state. by rewrite Ht. }
  unfold w, mount. rewrite Hinit.
  unfold effect_page, effect_observer, effect_search, effect_tab, fetchItems, fetchStats.
  cbn -[request_interceptor commit].
  rewrite commit_observer_only by quiet_deps.
  match goal with
  | |- context [if ?c then ?a else effect_observer ?s ?a] =>
      destruct (observer_branch_fields c s a) as (-> & -> & -> & -> & _)
  end.
  unfold axios. cbn -[request_interceptor]. rewrite Hh.
  split; [reflexivity|]. split; [reflexivity|].
  split; [by rewrite lookup_insert_ne, lookup_insert_eq|].
  split; [by rewrite lookup_insert_eq|].
  repeat split.
Qed.

(** X7.  A page that starts with a non-empty token in localStorage shows
    the main view and its first render sends exactly two requests, both
    with the header [Bearer <token>]: page 0 of tab "yangi" with an empty
    search text, then the stats of "yangi".  [loading] is set, and the
    debounce timer is armed for 500 ms with the closure of that first
    render, in which [loading] is still false. *)
Theorem mount_with_token ls t :
  getItem "token" ls = Some t → t ≠ "" →
  let w := mount ls in
  view (st w) = MainView
  ∧ log w = [ERequest 0 (Some ("Bearer " +:+ t)) (GetItems "yangi" 500 0 "");
             ERequest 1 (Some ("Bearer " +:+ t)) (GetStats "yangi")]
  ∧ inflight w !! 0%nat = Some (KFetchItems true)
  ∧ inflight w !! 1%nat = Some KFetchStats
  ∧ st w = setLoading true (initial_state ls)
  ∧ loading (st w) = true
  ∧ timer w = Some (debounce_ms, initial_state ls)
  ∧ loading (initial_state ls) = false.
Proof. exact (mount_token_spec ls t). Qed.

Lemma mount_with_token_witness :
  let w := mount logged_in_storage in
  view (st w) = MainView
  ∧ log w = [ERequest 0 (Some ("Bearer " +:+ "t0k3n")) (GetItems "yangi" 500 0 "");
             ERequest 1 (Some ("Bearer " +:+ "t0k3n")) (GetStats "yangi")]
  ∧ inflight w !! 0%nat = Some (KFetchItems true)
  ∧ inflight w !! 1%nat = Some KFetchStats
  ∧ st w = setLoading true (initial_state logged_in_storage)
  ∧ loading (st w) = true
  ∧ timer w = Some (debounce_ms, initial_state logged_in_storage)
  ∧ loading (initial_state logged_in_storage) = false.
Proof.
  apply (mount_with_token logged_in_storage "t0k3n");
    [vm_compute; reflexivity | discriminate].
Defined.

(** ** Logging out (App.jsx 243-248) *)

(** X8.  [handleLogout] removes the token and the login flag, logs the
    component out, reloads and sends nothing.  The page that comes up on
    the storage it leaves shows the login view and is inert: its first
    render sends no request, arms no timer and creates no observer. *)
Theorem logout_leaves_an_inert_page w :
  let w' := step EvLogout w in
  getItem "token" (storage w') = None
  ∧ getItem "isLoggedIn" (storage w') = None
  ∧ isLoggedIn (st w') = false
  ∧ log_since w w' = [EReload]
  ∧ mount (storage w')
    = mkWorld (initial_state (storage w')) (storage w') 0%nat None None ∅ ∅ 0%nat []
  ∧ view (st (mount (storage w'))) = LoginView.
Proof.
  intros w'.
  assert (Hsto : storage w' = removeItem "isLoggedIn" (removeItem "token" (storage w))).
  { unfold w', step. by rewrite storage_commit. }
  assert (Htok : getItem "token" (storage w') = None).
  { rewrite Hsto. unfold getItem, removeItem.
    rewrite lookup_delete_ne by done. apply lookup_delete_eq. }
  destruct (commit_quiet (st w) (handle EvLogout w)) as [Hs Hl];
    [by right | quiet_deps |].
  split; [exact Htok|]. split; [rewrite Hsto; apply lookup_delete_eq|].
  split; [unfold w', step; by rewrite Hs|].
  split; [apply log_since_app; unfold w', step; by rewrite Hl|].
  split; [apply mount_logged_out; by rewrite Htok|].
  by apply view_mount_logged_out.
Qed.

(** ** Logging in (App.jsx 92-112) *)

(** No effect touches the login state, the form, the tab, the search
    text or the stats. *)
Lemma commit_frame prev w :
  isLoggedIn (st (commit prev w)) = isLoggedIn (st w)
  ∧ username (st (commit prev w)) = username (st w)
  ∧ password (st (commit prev w)) = password (st w)
  ∧ loginError (st (commit prev w)) = loginError (st w)
  ∧ activeTab (st (commit prev w)) = activeTab (st w)
  ∧ search (st (commit prev w)) = search (st w)
  ∧ stats (st (commit prev w)) = stats (st w).
Proof.
  rewrite commit_unfold. autounfold with effects.
  repeat case_match; cbn; done.
Qed.

Lemma step_form_input w u p :
  let w1 := run [EvUsername u; EvPassword p] w in
  w1 = setState (setPassword p) (setState (setUsername u) w).
Proof.
  cbn zeta. unfold run. cbn [fold_left]. unfold step. cbn [handle].
  rewrite (commit_same (st w)) by same_deps.
  by rewrite commit_same by same_deps.
Qed.

Lemma step_submitLogin w :
  step EvSubmitLogin w = handleLogin (st w) w.
Proof. unfold step. apply commit_same. same_deps. Qed.

(** X9.  Submitting the form posts the user name and password typed last.
    When that request succeeds, the token it returned and the flag "true"
    are stored, the component is logged in, the error text is cleared and
    the page reloads.  With a non-empty token the reloaded page shows the
    main view and fetches with [Bearer <token>]; with an empty token it
    shows the login view again. *)
Theorem login_round_trip :
  (∀ w u p,
     let w' := run [EvUsername u; EvPassword p; EvSubmitLogin] w in
     requests_since w w'
     = [ERequest (next_id w) (request_interceptor (storage w)) (PostLogin u p)]
     ∧ inflight w' !! next_id w = Some KLogin)
  ∧ (∀ w rid (r : HttpResult string) token,
       inflight w !! rid = Some KLogin →
       settle r = inl token →
       let w' := step (EvLoginReply rid r) w in
       getItem "token" (storage w') = Some token
       ∧ getItem "isLoggedIn" (storage w') = Some "true"
       ∧ isLoggedIn (st w') = true
       ∧ loginError (st w') = ""
       ∧ EReload ∈ log_since w w'
       ∧ (token ≠ "" →
          view (st (mount (storage w'))) = MainView
          ∧ log (mount (storage w'))
            = [ERequest 0 (Some ("Bearer " +:+ token)) (GetItems "yangi" 500 0 "");
               ERequest 1 (Some ("Bearer " +:+ token)) (GetStats "yangi")])
       ∧ (token = "" → view (st (mount (storage w'))) = LoginView)).
Proof.
  split.
  - intros w u p w'. unfold w'.
    change (run [EvUsername u; EvPassword p; EvSubmitLogin] w)
      with (step EvSubmitLogin (run [EvUsername u; EvPassword p] w)).
    pose proof (step_form_input w u p) as Hf. cbn zeta in Hf. rewrite Hf.
    rewrite step_submitLogin. unfold handleLogin, requests_since. cbn.
    split; [|apply lookup_insert_eq].
    by since [ERequest (next_id w) (request_interceptor (storage w)) (PostLogin u p)].
  - intros w rid r token Hin Hset w'.
    assert (Hh : handle (EvLoginReply rid r) w
                 = handleLogin_then (inl token) (settled rid (inl token) w)).
    { cbn [handle]. by rewrite Hin, Hset. }
    assert (Hsto : storage w'
                   = setItem "isLoggedIn" "true" (setItem "token" token (storage w))).
    { unfold w', step. by rewrite storage_commit, Hh. }
    assert (Htok : getItem "token" (storage w') = Some token).
    { rewrite Hsto. unfold getItem, setItem.
      rewrite lookup_insert_ne by done. apply lookup_insert_eq. }
    destruct (commit_frame (st w) (handle (EvLoginReply rid r) w))
      as (Hl & _ & _ & He & _).
    split; [exact Htok|]. split; [rewrite Hsto; apply lookup_insert_eq|].
    split; [unfold w', step; by rewrite Hl, Hh|].
    split; [unfold w', step; by rewrite He, Hh|].
    split; [|split].
    + unfold w', step.
      destruct (log_commit_prefix (st w) (handle (EvLoginReply rid r) w)) as [l Hlog].
      rewrite (log_since_app _ _ (EReload :: l)); [apply list_elem_of_here|].
      rewrite Hlog, Hh, settled_inl. cbn. by rewrite <- app_assoc.
    + intros Hne.
      destruct (mount_token_spec (storage w') token Htok Hne) as (H1 & H2 & _).
      done.
    + intros ->.
      assert (Hf : truthy (getItem "token" (storage w')) = false)
        by (by rewrite Htok).
      rewrite mount_logged_out by exact Hf.
      unfold view, initial_state. cbn [st isLoggedIn]. by rewrite Hf.
Qed.

Lemma login_round_trip_witness :
  let w := run [EvLogout; EvUsername "admin"; EvPassword "secret"; EvSubmitLogin]
             one_row_world in
  let w' := step (EvLoginReply 2 (Response 200 "abc")) w in
  getItem "token" (storage w') = Some "abc"
  ∧ getItem "isLoggedIn" (storage w') = Some "true"
  ∧ isLoggedIn (st w') = true
  ∧ loginError (st w') = ""
  ∧ EReload ∈ log_since w w'
  ∧ ("abc" ≠ "" →
     view (st (mount (storage w'))) = MainView
     ∧ log (mount (storage w'))
       = [ERequest 0 (Some ("Bearer " +:+ "abc")) (GetItems "yangi" 500 0 "");
          ERequest 1 (Some ("Bearer " +:+ "abc")) (GetStats "yangi")])
  ∧ ("abc" = "" → view (st (mount (storage w'))) = LoginView).
Proof.
  apply (proj2 login_round_trip _ 2%nat (Response 200 "abc") "abc");
    vm_compute; reflexivity.
Defined.

(** X10.  When the login request fails, whatever the cause, the fixed error
    text is shown and no other state cell changes; nothing is sent, and a
    storage without a token still has none. *)
Theorem failed_login_shows_error w rid (r : HttpResult string) :
  inflight w !! rid = Some KLogin →
  succeeded r = false →
  let w' := step (EvLoginReply rid r) w in
  st w' = setLoginError "Login yoki parol noto'g'ri!" (st w)
  ∧ requests_since w w' = []
  ∧ (getItem "token" (storage w) = None → getItem "token" (storage w') = None).
Proof.
  intros Hin Hr w'. unfold succeeded in Hr.
  destruct (settle r) as [|e] eqn:Hset; [discriminate|].
  assert (Hh : handle (EvLoginReply rid r) w
               = handleLogin_then (inr e) (settled rid (@inr string _ e) w)).
  { cbn [handle]. by rewrite Hin, Hset. }
  destruct (settled_spec rid (@inr string _ e) w) as (S1 & S2 & S3 & S4).
  assert (Hst : st (handle (EvLoginReply rid r) w)
                = setLoginError "Login yoki parol noto'g'ri!" (st w)).
  { rewrite Hh. unfold handleLogin_then. cbn -[settled]. by rewrite S1. }
  assert (Hstep : w' = handle (EvLoginReply rid r) w).
  { unfold w', step. apply commit_same. rewrite Hst. same_deps. }
  rewrite Hstep. split; [exact Hst|]. split.
  - unfold requests_since, log_since. rewrite Hh. unfold handleLogin_then.
    cbn -[settled reload_log]. rewrite S2, <- app_assoc, drop_app_length.
    rewrite List.filter_app. unfold reload_log. by repeat case_match.
  - intros Hnone. rewrite Hh. unfold handleLogin_then, settled, intercept.
    cbn. destruct (response_interceptor e (storage w)) as [ls b] eqn:Hri.
    assert (Hls : getItem "token" ls = None).
    { unfold response_interceptor in Hri.
      repeat case_match; injection Hri as <- <-; try done.
      unfold getItem, removeItem. rewrite lookup_delete_ne by done.
      apply lookup_delete_eq. }
    by destruct b.
Qed.

Lemma failed_login_shows_error_witness :
  let w := run [EvLogout; EvSubmitLogin] one_row_world in
  let w' := step (EvLoginReply 2 (Response 400 "")) w in
  st w' = setLoginError "Login yoki parol noto'g'ri!" (st w)
  ∧ requests_since w w' = []
  ∧ (getItem "token" (storage w) = None → getItem "token" (storage w') = None).
Proof.
  apply (failed_login_shows_error _ 2%nat (Response 400 ""));
    vm_compute; reflexivity.
Defined.

(** ** Infinite scroll (App.jsx 72-90) *)

Lemma step_page_increment w :
  isLoggedIn (st w) = true →
  loading (st w) = false →
  let snap := setPage (fun prev => S prev) (st w) in
  let w1 := fetchItems snap (page snap) false (setState (setPage (fun prev => S prev)) w) in
  commit (st w) (setState (setPage (fun prev => S prev)) w)
  = effect_observer (st w1) w1.
Proof.
  intros Hin Hl snap w1. rewrite commit_unfold. cbn [st setState]. fold snap.
  assert (Hp : page_deps_same (st w) snap = false).
  { unfold page_deps_same, snap. cbn. rewrite bool_decide_eq_false_2; [done|lia]. }
  assert (Ht : tab_deps_same (st w) snap = true).
  { unfold tab_deps_same. cbn. by rewrite !bool_decide_eq_true_2. }
  assert (Hs : search_deps_same (st w) snap = true).
  { unfold search_deps_same. cbn. by rewrite bool_decide_eq_true_2. }
  assert (Ho : observer_deps_same (st w) snap = true).
  { apply observer_deps_same_true. done. }
  unfold deps_same, run_effects. rewrite Hp, Ht, Hs, Ho. cbn [andb]. cbn zeta.
  unfold effect_page.
  assert (Hgo : (0 <? page snap)%nat && isLoggedIn snap = true).
  { unfold snap. cbn. exact Hin. }
  rewrite Hgo. fold w1.
  assert (Ho' : observer_deps_same snap (st w1) = false).
  { unfold w1, fetchItems. replace (loading snap) with false by (symmetry; exact Hl).
    unfold observer_deps_same. cbn. rewrite Hl.
    rewrite (bool_decide_eq_false_2 (false = true)) by done.
    by rewrite andb_false_r. }
  by rewrite Ho'.
Qed.

(** X11.  On a logged-in page the observer callback acts on the current
    [hasMore] and [loading].  If the loader row intersects, [hasMore] is
    true and [loading] is false, the page grows by one, [loading] is set
    and one list request leaves, for the current tab and search text at
    offset 500 times the new page; the rows it brings are appended to the
    list.  In every other case the callback changes nothing. *)
Theorem scroll_fetches_next_page w b :
  reachable w →
  isLoggedIn (st w) = true →
  let w' := step (EvIntersection b) w in
  if b && hasMore (st w) && negb (loading (st w))
  then
    st w' = setLoading true (setPage (fun prev => S prev) (st w))
    ∧ log_since w w'
      = [ERequest (next_id w) (request_interceptor (storage w))
           (GetItems (activeTab (st w)) limit (S (page (st w)) * limit) (search (st w)))]
    ∧ inflight w' !! next_id w = Some (KFetchItems false)
    ∧ ∀ (r : HttpResult (list Item)) rows,
        settle r = inl rows →
        items (st (step (EvItemsReply (next_id w) r) w')) = items (st w) ++ rows
  else w' = w.
Proof.
  intros Hr Hin w'.
  pose proof (reachable_fresh w Hr) as Hf.
  unfold observer_fresh, observer_matches in Hf.
  destruct (observer w) as [o|] eqn:Hobs; [|congruence].
  destruct Hf as (_ & Hm & Hl).
  assert (Hh : handle (EvIntersection b) w
               = if b && hasMore (st w) && negb (loading (st w))
                 then setState (setPage (fun prev => S prev)) w else w).
  { cbn [handle]. rewrite Hobs. unfold observer_callback. by rewrite Hm, Hl. }
  unfold w', step. rewrite Hh.
  destruct (b && hasMore (st w) && negb (loading (st w))) eqn:Hc;
    [|apply commit_same, deps_same_refl].
  apply andb_true_iff in Hc as [Hc Hnl]. apply negb_true_iff in Hnl.
  rewrite (step_page_increment w Hin Hnl).
  unfold fetchItems. cbn [loading setPage]. rewrite Hnl.
  set (w1 := axios _ _ _).
  assert (Hfl : inflight (effect_observer (st w1) w1) !! next_id w
                = Some (KFetchItems false)).
  { unfold w1. cbn. apply lookup_insert_eq. }
  assert (Hst : st (effect_observer (st w1) w1)
                = setLoading true (setPage (fun prev => S prev) (st w)))
    by reflexivity.
  assert (Hlog : log (effect_observer (st w1) w1)
                 = log w ++ [ERequest (next_id w) (request_interceptor (storage w))
                               (GetItems (activeTab (st w)) limit
                                  (S (page (st w)) * limit) (search (st w)))])
    by reflexivity.
  generalize dependent (effect_observer (st w1) w1). clear w1.
  intros w2 Hfl Hst Hlog.
  split; [exact Hst|]. split; [by apply log_since_app|]. split; [exact Hfl|].
  intros r rows Hset.
  pose proof (step_items_reply w2 (next_id w) false r Hfl) as Hstep.
  cbn zeta in Hstep. unfold step in Hstep. rewrite Hstep, Hset, settled_inl.
  match goal with
  | |- context [if ?c then ?a else effect_observer ?s ?a] =>
      destruct (observer_branch_fields c s a) as (-> & _)
  end.
  unfold fetchItems_then.
  destruct (length rows <? limit)%nat; cbn; by rewrite Hst.
Qed.

Lemma scroll_fetches_next_page_witness :
  let w := step (EvItemsReply 0 (@NetworkError (list Item)))
             (mount logged_in_storage) in
  let w' := step (EvIntersection true) w in
  if true && hasMore (st w) && negb (loading (st w))
  then
    st w' = setLoading true (setPage (fun prev => S prev) (st w))
    ∧ log_since w w'
      = [ERequest (next_id w) (request_interceptor (storage w))
           (GetItems (activeTab (st w)) limit (S (page (st w)) * limit) (search (st w)))]
    ∧ inflight w' !! next_id w = Some (KFetchItems false)
    ∧ ∀ (r : HttpResult (list Item)) rows,
        settle r = inl rows →
        items (st (step (EvItemsReply (next_id w) r) w')) = items (st w) ++ rows
  else w' = w.
Proof.
  apply (scroll_fetches_next_page _ true).
  - exists logged_in_storage, [EvItemsReply 0 (@NetworkError (list Item))].
    reflexivity.
  - vm_compute. reflexivity.
Defined.

(** ** Who writes the stats (App.jsx 134-139) *)

Lemma stats_handle e w :
  is_stats_reply e = false → stats (st (handle e w)) = stats (st w).
Proof.
  intros He. destruct e; try discriminate He; cbn [handle]; try reflexivity;
    autounfold with handlers;
    repeat case_match; rewrite ?st_addItems_try; cbn; reflexivity.
Qed.

Lemma step_stats_reply w rid r :
  inflight w !! rid = Some KFetchStats →
  step (EvStatsReply rid r) w = fetchStats_then (settle r) (settled rid (settle r) w).
Proof.
  intros H. unfold step. cbn [handle]. rewrite H.
  apply commit_same.
  unfold fetchStats_then, settled, intercept.
  repeat case_match; same_deps.
Qed.

(** X12.  The stats snapshot changes in one place only: no event other
    than a reply to a stats request touches it, whatever rows are added,
    edited or removed meanwhile.  A successful stats reply replaces the
    snapshot by its payload as a whole and leaves the list alone; a failed
    one leaves the old snapshot in place. *)
Theorem stats_change_only_by_stats_reply :
  (∀ e w, is_stats_reply e = false → stats (st (step e w)) = stats (st w))
  ∧ (∀ w rid (r : HttpResult Stats),
       inflight w !! rid = Some KFetchStats →
       let w' := step (EvStatsReply rid r) w in
       stats (st w') = match settle r with
                       | inl data => data
                       | inr _ => stats (st w)
                       end
       ∧ items (st w') = items (st w)
       ∧ loading (st w') = loading (st w)
       ∧ requests_since w w' = []).
Proof.
  split.
  - intros e w He. unfold step.
    destruct (commit_frame (st w) (handle e w)) as (_ & _ & _ & _ & _ & _ & ->).
    by apply stats_handle.
  - intros w rid r Hin w'. unfold w'. rewrite (step_stats_reply _ _ _ Hin).
    destruct (settled_spec rid (settle r) w) as (S1 & S2 & S3 & S4).
    unfold fetchStats_then, requests_since, log_since.
    destruct (settle r) as [data|e]; cbn -[settled reload_log]; rewrite S1, S2.
    + cbn. rewrite app_nil_r, drop_all. done.
    + repeat (split; [done|]).
      rewrite <- app_assoc, drop_app_length, List.filter_app.
      unfold reload_log. by repeat case_match.
Qed.

Lemma stats_change_only_by_stats_reply_witness :
  let w := mount logged_in_storage in
  let r := Response 200 ({[ "total_rows_count" := JNum 7 ]} : Stats) in
  let w' := step (EvStatsReply 1 r) w in
  stats (st w') = match settle r with
                  | inl data => data
                  | inr _ => stats (st w)
                  end
  ∧ items (st w') = items (st w)
  ∧ loading (st w') = loading (st w)
  ∧ requests_since w w' = [].
Proof.
  apply (proj2 stats_change_only_by_stats_reply (mount logged_in_storage) 1%nat).
  vm_compute. reflexivity.
Defined.

(** ** Who writes localStorage (App.jsx 17-24, 100-101, 244-245) *)

Lemma response_interceptor_other {A} (r : HttpResult A) e ls :
  unauthorized r = false → settle r = inr e →
  response_interceptor e ls = (ls, false).
Proof.
  intros Hu Hs. destruct r as [|status data]; cbn in *.
  - by injection Hs as <-.
  - destruct (validateStatus status); [discriminate|]. injection Hs as <-.
    unfold response_interceptor. cbn. by rewrite Hu.
Qed.

Lemma settled_other {A} rid (r : HttpResult A) w :
  unauthorized r = false →
  settled rid (settle r) w = set_inflight (delete rid (inflight w)) w.
Proof.
  intros Hu. unfold settled, intercept. destruct (settle r) as [a|e] eqn:Hs; [done|].
  by rewrite (response_interceptor_other r e _ Hu Hs).
Qed.

Lemma commit_reloads prev w : reloads (commit prev w) = reloads w.
Proof.
  rewrite commit_unfold. autounfold with effects. unfold reloads.
  repeat case_match; cbn; rewrite ?List.filter_app; cbn; rewrite ?app_nil_r; reflexivity.
Qed.

Lemma storage_addItems_try snap count w :
  storage (addItems_try snap count w) = storage w.
Proof. by destruct (addItems_try_spec snap count w) as (_ & -> & _). Qed.

Lemma reloads_addItems_try snap count w :
  reloads (addItems_try snap count w) = reloads w.
Proof.
  unfold reloads.
  destruct (addItems_try_spec snap count w) as (_ & _ & _ & _ & _ & _ & _ & ->).
  rewrite !List.filter_app, filter_post_requests by done.
  destruct (loop_throws count); cbn; by rewrite app_nil_r.
Qed.

Lemma handle_credentials e w :
  touches_credentials e = false →
  storage (handle e w) = storage w ∧ reloads (handle e w) = reloads w.
Proof.
  intros He. destruct e; try discriminate He; cbn [handle touches_credentials] in *.
  all: try (apply orb_false_iff in He as [Hok He]).
  all: try rewrite (settled_other _ _ _ He).
  all: try (unfold succeeded in Hok; destruct (settle r) eqn:Hs; [discriminate|]).
  all: autounfold with handlers.
  all: repeat case_match;
    rewrite ?storage_addItems_try, ?reloads_addItems_try; unfold reloads; cbn;
    rewrite ?List.filter_app; cbn; rewrite ?app_nil_r; done.
Qed.

(** X13.  localStorage is written, and a reload requested, only by a
    logout, a successful login and a reply with status 401 or 403.  After
    any other event, a failure with another status or without a response
    included, the stored token and flag are what they were and no reload
    has been requested. *)
Theorem credentials_survive_other_events e w :
  touches_credentials e = false →
  storage (step e w) = storage w ∧ reloads (step e w) = reloads w.
Proof.
  intros He. unfold step. rewrite storage_commit, commit_reloads.
  by apply handle_credentials.
Qed.

Lemma credentials_survive_other_events_witness :
  let e := EvItemsReply 0 (Response 500 []) in
  let w := mount logged_in_storage in
  storage (step e w) = storage w ∧ reloads (step e w) = reloads w.
Proof.
  apply (credentials_survive_other_events (EvItemsReply 0 (Response 500 []))).
  reflexivity.
Defined.

(** ** A keystroke in the search box (App.jsx 57-67, 276) *)

(** X14.  On a logged-in page a keystroke that changes the search text
    sends nothing and leaves the list, the page and [hasMore] as they are:
    it only stores the text and replaces the pending timer by one due 500
    ms from now, whose closure holds the new text.  Setting the text it
    already has changes nothing at all: the pending timer keeps its due
    time. *)
Theorem keystroke_only_rearms_timer w text :
  isLoggedIn (st w) = true →
  let w' := step (EvSetSearch text) w in
  if bool_decide (text = search (st w))
  then w' = w
  else
    st w' = setSearch text (st w)
    ∧ log w' = log w
    ∧ inflight w' = inflight w
    ∧ timer w' = Some ((clock w + debounce_ms)%nat, setSearch text (st w)).
Proof.
  intros Hin w'. case_bool_decide as Ht.
  - assert (Hw : setState (setSearch text) w = w).
    { destruct w as [s ? ? ? ? ? ? ? ?]. destruct s. cbn in *. by subst text. }
    unfold w', step. cbn [handle]. rewrite Hw. apply commit_same, deps_same_refl.
  - unfold w'. by rewrite (step_setSearch w text Hin Ht).
Qed.

Lemma keystroke_only_rearms_timer_witness :
  let w := step (EvTick 120) one_row_world in
  let w' := step (EvSetSearch "sam") w in
  if bool_decide ("sam" = search (st w))
  then w' = w
  else
    st w' = setSearch "sam" (st w)
    ∧ log w' = log w
    ∧ inflight w' = inflight w
    ∧ timer w' = Some ((clock w + debounce_ms)%nat, setSearch "sam" (st w)).
Proof.
  apply (keystroke_only_rearms_timer (step (EvTick 120) one_row_world) "sam").
  vm_compute. reflexivity.
Defined.

(** ** [loading] is never left set (App.jsx 114-132, 158-177) *)

Lemma bookkeeping_ext w w' :
  (loading (st w') = true → loading (st w) = true) →
  inflight w' = inflight w → batches w' = batches w → next_id w' = next_id w →
  bookkeeping w → bookkeeping w'.
Proof.
  intros Hl Hi Hb Hn [I1 I2 I3 I4].
  split; unfold list_fetch_pending in *; rewrite ?Hi, ?Hb, ?Hn; auto.
Qed.

(** A request sent: nothing pending is lost. *)
Lemma bookkeeping_axios req k w :
  bookkeeping w → bookkeeping (axios req k w).
Proof.
  intros [I1 I2 I3 I4].
  split; unfold list_fetch_pending in *; unfold axios; cbn [inflight batches next_id st].
  - intros rid k' H. destruct (decide (rid = next_id w)) as [->|Hne]; [lia|].
    rewrite lookup_insert_ne in H by done. apply I1 in H. lia.
  - intros b B rid Hb Hs Hr Hn. pose proof (I2 b B rid Hb Hs Hr Hn) as H.
    pose proof (I1 _ _ H). by rewrite lookup_insert_ne by lia.
  - exact I3.
  - intros H. destruct (I4 H) as [(rid & reset & Hp)|Hp]; [left|by right].
    exists rid, reset. pose proof (I1 _ _ Hp). by rewrite lookup_insert_ne by lia.
Qed.

Lemma bookkeeping_fetchItems snap pageNum reset w :
  bookkeeping w → bookkeeping (fetchItems snap pageNum reset w).
Proof.
  intros Hw. unfold fetchItems. destruct (loading snap); [done|].
  pose proof (bookkeeping_axios
    (GetItems (activeTab snap) limit (pageNum * limit) (search snap))
    (KFetchItems reset) w Hw) as [I1 I2 I3 I4].
  split; [exact I1 | exact I2 | exact I3 |].
  intros _. left. unfold list_fetch_pending. exists (next_id w), reset.
  unfold axios, setState.
  cbn [inflight next_id]. apply lookup_insert_eq.
Qed.

Lemma bookkeeping_fetchStats tab w :
  bookkeeping w → bookkeeping (fetchStats tab w).
Proof. apply bookkeeping_axios. Qed.

(** Closes [bookkeeping w'] when [w'] differs from a world with
    bookkeeping in cells the bookkeeping does not read. *)
Ltac keep_books H :=
  match type of H with
  | bookkeeping ?w0 =>
      apply (bookkeeping_ext w0);
      [intros x; exact x | reflexivity | reflexivity | reflexivity | exact H]
  end.

Lemma bookkeeping_effect_tab snap w : bookkeeping w → bookkeeping (effect_tab snap w).
Proof.
  intros Hw. unfold effect_tab. destruct (isLoggedIn snap); [|done].
  apply bookkeeping_fetchStats, bookkeeping_fetchItems. keep_books Hw.
Qed.

Lemma bookkeeping_effect_search snap w :
  bookkeeping w → bookkeeping (effect_search snap w).
Proof.
  intros Hw. unfold effect_search. destruct (isLoggedIn snap); keep_books Hw.
Qed.

Lemma bookkeeping_effect_observer snap w :
  bookkeeping w → bookkeeping (effect_observer snap w).
Proof. intros Hw. unfold effect_observer. keep_books Hw. Qed.

Lemma bookkeeping_effect_page snap w :
  bookkeeping w → bookkeeping (effect_page snap w).
Proof.
  intros Hw. unfold effect_page.
  destruct ((0 <? page snap)%nat && isLoggedIn snap); [|done].
  by apply bookkeeping_fetchItems.
Qed.

Lemma bookkeeping_effects prev snap w :
  bookkeeping w → bookkeeping (run_effects prev snap w).
Proof.
  intros Hw. unfold run_effects.
  destruct (page_deps_same prev snap); [|apply bookkeeping_effect_page];
    (destruct (observer_deps_same prev snap); [|apply bookkeeping_effect_observer]);
    (destruct (search_deps_same prev snap); [|apply bookkeeping_effect_search]);
    (destruct (tab_deps_same prev snap); [|apply bookkeeping_effect_tab]);
    exact Hw.
Qed.

Lemma bookkeeping_commit prev w :
  bookkeeping w → bookkeeping (commit prev w).
Proof.
  intros Hw. rewrite commit_unfold. destruct (deps_same prev (st w)); [done|].
  cbn zeta. pose proof (bookkeeping_effects prev (st w) w Hw) as H1.
  destruct (observer_deps_same _ _); [done|]. by apply bookkeeping_effect_observer.
Qed.

Lemma bookkeeping_mount ls : bookkeeping (mount ls).
Proof.
  unfold mount. apply bookkeeping_commit, bookkeeping_effect_page,
    bookkeeping_effect_observer, bookkeeping_effect_search, bookkeeping_effect_tab.
  split; cbn [inflight batches st loading initial_state next_id].
  - intros rid k H. by rewrite lookup_empty in H.
  - intros b B rid H. by rewrite lookup_empty in H.
  - intros b B H. by rewrite lookup_empty in H.
  - discriminate.
Qed.

(** A request that is neither a list request nor a POST of a pending
    batch leaves the pending set. *)
Lemma bookkeeping_delete w w' rid k :
  inflight w !! rid = Some k →
  is_list_kont k = false →
  (∀ b B, k = KAddItems b → batches w !! b = Some B → batch_settled B = true) →
  (loading (st w') = true → loading (st w) = true) →
  inflight w' = delete rid (inflight w) →
  batches w' = batches w → next_id w' = next_id w →
  bookkeeping w → bookkeeping w'.
Proof.
  intros Hin Hk Hb Hl Hi Hbs Hn [I1 I2 I3 I4].
  split; unfold list_fetch_pending in *; rewrite ?Hi, ?Hbs, ?Hn.
  - intros r k' H. apply lookup_delete_Some in H as [_ H]. eauto.
  - intros b B r HB Hs Hr Hres. pose proof (I2 b B r HB Hs Hr Hres) as H.
    rewrite lookup_delete_ne; [done|]. intros ->.
    rewrite Hin in H. injection H as ->.
    rewrite (Hb b B eq_refl HB) in Hs. discriminate.
  - exact I3.
  - intros H. destruct (I4 (Hl H)) as [(r & reset & Hp)|Hp]; [left|by right].
    exists r, reset. rewrite lookup_delete_ne; [done|]. intros ->.
    rewrite Hin in Hp. injection Hp as ->. discriminate.
Qed.

(** A list request leaves the pending set and [loading] is cleared. *)
Lemma bookkeeping_unload w w' rid reset :
  inflight w !! rid = Some (KFetchItems reset) →
  loading (st w') = false →
  inflight w' = delete rid (inflight w) →
  batches w' = batches w → next_id w' = next_id w →
  bookkeeping w → bookkeeping w'.
Proof.
  intros Hin Hl Hi Hbs Hn [I1 I2 I3 I4].
  split; rewrite ?Hi, ?Hbs, ?Hn.
  - intros r k' H. apply lookup_delete_Some in H as [_ H]. eauto.
  - intros b B r HB Hs Hr Hres. pose proof (I2 b B r HB Hs Hr Hres) as H.
    rewrite lookup_delete_ne; [done|]. intros ->. congruence.
  - exact I3.
  - congruence.
Qed.

(** A POST of a pending batch is answered and the batch settles. *)
Lemma bookkeeping_batch_settles w w' rid b B' :
  inflight w !! rid = Some (KAddItems b) →
  batch_settled B' = true →
  loading (st w') = false →
  inflight w' = delete rid (inflight w) →
  batches w' = <[b := B']> (batches w) → next_id w' = next_id w →
  bookkeeping w → bookkeeping w'.
Proof.
  intros Hin HB' Hl Hi Hbs Hn [I1 I2 I3 I4].
  split; rewrite ?Hi, ?Hbs, ?Hn.
  - intros r k' H. apply lookup_delete_Some in H as [_ H]. eauto.
  - intros b0 B r HB Hs Hr Hres.
    destruct (decide (b0 = b)) as [->|Hne].
    { rewrite lookup_insert_eq in HB. injection HB as <-. congruence. }
    rewrite lookup_insert_ne in HB by done.
    pose proof (I2 b0 B r HB Hs Hr Hres) as H.
    rewrite lookup_delete_ne; [done|]. intros ->. congruence.
  - intros b0 B HB Hs.
    destruct (decide (b0 = b)) as [->|Hne].
    { rewrite lookup_insert_eq in HB. injection HB as <-. congruence. }
    rewrite lookup_insert_ne in HB by done. eauto.
  - congruence.
Qed.

(** A POST of a pending batch is answered with a row and the batch keeps
    waiting for another one. *)
Lemma bookkeeping_batch_waits w w' rid b B data :
  inflight w !! rid = Some (KAddItems b) →
  batches w !! b = Some B →
  batch_settled B = false →
  mapM (fun i => <[rid := data]> (batch_results B) !! i) (batch_requests B) = None →
  (loading (st w') = true → loading (st w) = true) →
  inflight w' = delete rid (inflight w) →
  batches w' = <[b := mkBatch (batch_tab B) (batch_requests B)
                        (<[rid := data]> (batch_results B)) false]> (batches w) →
  next_id w' = next_id w →
  bookkeeping w → bookkeeping w'.
Proof.
  intros Hin HB HBs Hm Hl Hi Hbs Hn [I1 I2 I3 I4].
  split; unfold list_fetch_pending in *; rewrite ?Hi, ?Hbs, ?Hn.
  - intros r k' H. apply lookup_delete_Some in H as [_ H]. eauto.
  - intros b0 B0 r HB0 Hs Hr Hres.
    destruct (decide (b0 = b)) as [->|Hne].
    + rewrite lookup_insert_eq in HB0. injection HB0 as <-. cbn in *.
      destruct (decide (r = rid)) as [->|Hr'].
      { by rewrite lookup_insert_eq in Hres. }
      rewrite lookup_insert_ne in Hres by done.
      rewrite lookup_delete_ne by done. eauto.
    + rewrite lookup_insert_ne in HB0 by done.
      pose proof (I2 b0 B0 r HB0 Hs Hr Hres) as H.
      rewrite lookup_delete_ne; [done|]. intros ->. congruence.
  - intros b0 B0 HB0 Hs.
    destruct (decide (b0 = b)) as [->|Hne].
    + rewrite lookup_insert_eq in HB0. injection HB0 as <-. cbn.
      destruct (decide (Forall (fun i => is_Some (<[rid := data]> (batch_results B) !! i))
                          (batch_requests B))) as [Hall|Hnot].
      { apply (mapM_is_Some (fun i => <[rid := data]> (batch_results B) !! i)) in Hall.
        rewrite Hm in Hall. by destruct Hall. }
      apply not_Forall_Exists in Hnot; [|intros i; apply _].
      apply Exists_exists in Hnot as (i & Hi' & Hnone).
      exists i. split; [done|]. by apply eq_None_not_Some.
    + rewrite lookup_insert_ne in HB0 by done. eauto.
  - intros H. destruct (I4 (Hl H)) as [(r & reset & Hp)|(b0 & B0 & HB0 & Hs0)].
    + left. exists r, reset. rewrite lookup_delete_ne; [done|]. intros ->. congruence.
    + right. destruct (decide (b0 = b)) as [->|Hne].
      * eexists b, _. by rewrite lookup_insert_eq.
      * exists b0, B0. by rewrite lookup_insert_ne.
Qed.

Lemma post_items_ids_fresh tab b count : ∀ w,
  (∀ rid k, inflight w !! rid = Some k → (rid < next_id w)%nat) →
  ∀ rid k, inflight (post_items tab b count w) !! rid = Some k →
           (rid < next_id w + count)%nat.
Proof.
  induction count as [|n IH]; intros w Hw rid k H.
  - apply Hw in H. lia.
  - cbn [post_items] in H. apply IH in H; [cbn in H; lia|].
    intros r k' Hr. cbn in Hr. cbn.
    destruct (decide (r = next_id w)) as [->|Hne]; [lia|].
    rewrite lookup_insert_ne in Hr by done. apply Hw in Hr. lia.
Qed.

(** [addItems] starts a batch of [count] POSTs, [count] positive. *)
Lemma bookkeeping_start tab count w :
  (0 < count)%nat →
  bookkeeping w →
  bookkeeping
    (post_items tab (next_id w) count
       (set_batches (<[next_id w := mkBatch tab (seq (next_id w) count) ∅ false]>
                       (batches w))
          (setState (setLoading true) w))).
Proof.
  intros Hc [I1 I2 I3 I4].
  set (w0 := set_batches _ (setState (setLoading true) w)).
  destruct (post_items_spec tab (next_id w) count w0)
    as (_ & _ & Hb & _ & _ & _ & Hn & _).
  split; unfold list_fetch_pending; rewrite ?Hb, ?Hn; cbn [w0 set_batches batches next_id setState].
  - apply (post_items_ids_fresh tab (next_id w) count w0). exact I1.
  - intros b B rid HB Hs Hr Hres.
    destruct (decide (b = next_id w)) as [->|Hne].
    + rewrite lookup_insert_eq in HB. injection HB as <-. cbn in Hr.
      apply elem_of_seq in Hr. apply post_items_inflight. cbn. lia.
    + rewrite lookup_insert_ne in HB by done.
      pose proof (I2 b B rid HB Hs Hr Hres) as H.
      rewrite post_items_keeps; [exact H|]. cbn. by apply I1 in H.
  - intros b B HB Hs.
    destruct (decide (b = next_id w)) as [->|Hne].
    + rewrite lookup_insert_eq in HB. injection HB as <-. cbn.
      exists (next_id w). split; [|apply lookup_empty].
      apply elem_of_seq. lia.
    + rewrite lookup_insert_ne in HB by done. eauto.
  - intros _. right. eexists (next_id w), _. by rewrite lookup_insert_eq.
Qed.

Lemma bookkeeping_settled_other {A} rid (res : A + AxiosError) k w :
  inflight w !! rid = Some k →
  is_list_kont k = false →
  (∀ b B, k = KAddItems b → batches w !! b = Some B → batch_settled B = true) →
  bookkeeping w → bookkeeping (settled rid res w).
Proof.
  intros Hin Hk Hb Hw.
  destruct (settled_spec rid res w) as (S1 & _ & S3 & S4).
  apply (bookkeeping_delete w _ rid k Hin Hk Hb); try done.
  - by rewrite S1.
  - apply next_id_settled.
Qed.

(** The array of [addItems] overflows: its POSTs are in flight, no batch
    waits for them and [loading] is cleared. *)
Lemma bookkeeping_overflow tab count w :
  bookkeeping w →
  bookkeeping
    (setState (setLoading false)
       (emit (EAlert failure_message)
          (emit EConsoleError
             (post_items tab (next_id w) count
                (set_batches (<[next_id w := mkBatch tab (seq (next_id w) count) ∅ true]>
                                (batches w))
                   (setState (setLoading true) w)))))).
Proof.
  intros [I1 I2 I3 I4].
  set (w0 := set_batches _ (setState (setLoading true) w)).
  destruct (post_items_spec tab (next_id w) count w0)
    as (_ & _ & Hb & _ & _ & _ & Hn & _).
  split; unfold list_fetch_pending;
    cbn [inflight batches next_id st setState emit loading setLoading];
    rewrite ?Hb, ?Hn; cbn [w0 set_batches batches next_id setState].
  - apply (post_items_ids_fresh tab (next_id w) count w0). exact I1.
  - intros b B rid HB Hs Hr Hres.
    destruct (decide (b = next_id w)) as [->|Hne].
    + rewrite lookup_insert_eq in HB. injection HB as <-. discriminate Hs.
    + rewrite lookup_insert_ne in HB by done.
      pose proof (I2 b B rid HB Hs Hr Hres) as H.
      rewrite post_items_keeps; [exact H|]. cbn. by apply I1 in H.
  - intros b B HB Hs.
    destruct (decide (b = next_id w)) as [->|Hne].
    + rewrite lookup_insert_eq in HB. injection HB as <-. discriminate Hs.
    + rewrite lookup_insert_ne in HB by done. eauto.
  - discriminate.
Qed.

(** A count that passes the validation makes the loop turn at least
    once. *)
Lemma loop_posts_pos count :
  isNaN count || Number_leb count (Finite 0) = false → (0 < loop_posts count)%nat.
Proof.
  unfold loop_posts. change max_array_length with 4294967295.
  destruct count as [|z|[|]]; cbn [isNaN Number_leb Number_ltb orb negb];
    try discriminate; [|lia].
  intros H. apply negb_false_iff, Z.ltb_lt in H. lia.
Qed.

Lemma bookkeeping_addItems_try snap count w :
  (0 < loop_posts count)%nat →
  bookkeeping w → bookkeeping (addItems_try snap count w).
Proof.
  intros Hc Hw. unfold addItems_try. cbn zeta. destruct (loop_throws count).
  - apply (bookkeeping_overflow (activeTab snap) (loop_posts count) w Hw).
  - apply (bookkeeping_start (activeTab snap) (loop_posts count) w Hc Hw).
Qed.

Lemma bookkeeping_addItems snap answer ok w :
  bookkeeping w → bookkeeping (addItems snap answer ok w).
Proof.
  intros Hw. unfold addItems.
  destruct answer as [countStr|]; [|keep_books Hw].
  destruct (isNaN (parseInt countStr) || Number_leb (parseInt countStr) (Finite 0))
    eqn:Hpos; [keep_books Hw|].
  apply loop_posts_pos in Hpos.
  destruct (Number_ltb (Finite 100) (parseInt countStr));
    [destruct ok; [|keep_books Hw]|];
    apply bookkeeping_addItems_try; [done | keep_books Hw | done | keep_books Hw].
Qed.

Lemma bookkeeping_create_reply b rid (res : Item + AxiosError) w :
  inflight w !! rid = Some (KAddItems b) →
  bookkeeping w → bookkeeping (addItems_then b rid res (settled rid res w)).
Proof.
  intros Hin Hw.
  destruct (settled_spec rid res w) as (S1 & _ & S3 & S4).
  pose proof (next_id_settled rid res w) as S5.
  unfold addItems_then. rewrite S4.
  destruct (batches w !! b) as [B|] eqn:HB.
  - destruct (batch_settled B) eqn:HBs.
    + apply (bookkeeping_settled_other rid res (KAddItems b) w Hin eq_refl); [|done].
      intros b0 B0 [= <-] HB0. congruence.
    + destruct res as [data|e].
      * destruct (mapM _ (batch_requests B)) as [rows|] eqn:Hm.
        -- apply (bookkeeping_ext
                    (axios (GetStats (batch_tab B)) KFetchStats
                       (setState (setLoading false)
                          (set_batches
                             (<[b := mkBatch (batch_tab B) (batch_requests B)
                                       (<[rid := data]> (batch_results B)) true]>
                                (batches w)) (settled rid (inl data) w)))));
             try reflexivity; [done|].
           apply bookkeeping_axios.
           apply (bookkeeping_batch_settles w _ rid b
                    (mkBatch (batch_tab B) (batch_requests B)
                       (<[rid := data]> (batch_results B)) true) Hin); try done.
        -- apply (bookkeeping_batch_waits w _ rid b B data Hin HB HBs Hm); try done.
           all: cbn; by rewrite S1.
      * apply (bookkeeping_batch_settles w _ rid b
                 (mkBatch (batch_tab B) (batch_requests B) (batch_results B) true) Hin);
          try done.
  - apply (bookkeeping_settled_other rid res (KAddItems b) w Hin eq_refl); [|done].
    intros b0 B0 [= <-] HB0. congruence.
Qed.

Lemma bookkeeping_handle e w : bookkeeping w → bookkeeping (handle e w).
Proof.
  intros Hw. destruct e; cbn [handle].
  - keep_books Hw.
  - keep_books Hw.
  - keep_books Hw.
  - by apply bookkeeping_axios.
  - keep_books Hw.
  - keep_books Hw.
  - keep_books Hw.
  - destruct (observer w); [|done]. unfold observer_callback.
    destruct (_ && _); [keep_books Hw | done].
  - destruct (timer w) as [[due tsnap]|]; [|done].
    destruct (due <=? clock w)%nat; [|done].
    unfold debounce_callback. apply bookkeeping_fetchItems. keep_books Hw.
  - by apply bookkeeping_addItems.
  - unfold updateItem. apply bookkeeping_axios. keep_books Hw.
  - unfold deleteItem. destruct ok; [apply bookkeeping_axios|]; keep_books Hw.
  - unfold returnItem. destruct ok; [apply bookkeeping_axios|]; keep_books Hw.
  - destruct (inflight w !! rid) as [[]|] eqn:Hin; try done.
    pose proof (bookkeeping_settled_other rid (settle r) _ w Hin eq_refl
                  ltac:(discriminate) Hw) as H1.
    unfold handleLogin_then. destruct (settle r); keep_books H1.
  - destruct (inflight w !! rid) as [[]|] eqn:Hin; try done.
    destruct (settled_spec rid (settle r) w) as (S1 & _ & S3 & S4).
    pose proof (next_id_settled rid (settle r) w) as S5.
    apply (bookkeeping_unload w _ rid reset Hin); try done;
      unfold fetchItems_then; repeat case_match; done.
  - destruct (inflight w !! rid) as [[]|] eqn:Hin; try done.
    pose proof (bookkeeping_settled_other rid (settle r) _ w Hin eq_refl
                  ltac:(discriminate) Hw) as H1.
    unfold fetchStats_then. destruct (settle r); keep_books H1.
  - destruct (inflight w !! rid) as [[]|] eqn:Hin; try done.
    by apply bookkeeping_create_reply.
  - destruct (inflight w !! rid) as [[]|] eqn:Hin; try done.
    pose proof (bookkeeping_settled_other rid (settle r) _ w Hin eq_refl
                  ltac:(discriminate) Hw) as H1.
    unfold updateItem_then. destruct (settle r); [|keep_books H1].
    case_bool_decide; [by apply bookkeeping_fetchStats | done].
  - destruct (inflight w !! rid) as [[]|] eqn:Hin; try done.
    pose proof (bookkeeping_settled_other rid (settle r) _ w Hin eq_refl
                  ltac:(discriminate) Hw) as H1.
    unfold deleteItem_then. destruct (settle r); [|keep_books H1].
    apply bookkeeping_fetchStats. keep_books H1.
  - destruct (inflight w !! rid) as [[]|] eqn:Hin; try done.
    pose proof (bookkeeping_settled_other rid (settle r) _ w Hin eq_refl
                  ltac:(discriminate) Hw) as H1.
    unfold returnItem_then. destruct (settle r); [|keep_books H1].
    apply bookkeeping_fetchStats. keep_books H1.
Qed.

Lemma bookkeeping_reachable w : reachable w → bookkeeping w.
Proof.
  intros (ls & es & ->). generalize (bookkeeping_mount ls). generalize (mount ls).
  induction es as [|e es IH]; intros w Hw; [done|].
  cbn. apply IH. unfold step. by apply bookkeeping_commit, bookkeeping_handle.
Qed.

(** X15.  On any page reached from its first render by any sequence of
    events, [loading] is set only while something that will clear it is
    still pending: a list request in flight, or a [Promise.all] of
    [addItems] that has not settled and one of whose POSTs is in flight
    and unanswered.  As soon as no such request is left, [loading] is
    false. *)
Theorem loading_means_pending w :
  reachable w →
  loading (st w) = true →
  list_fetch_pending w ∨ batch_waiting w.
Proof.
  intros Hr Hl. destruct (bookkeeping_reachable w Hr) as [I1 I2 I3 I4].
  destruct (I4 Hl) as [Hp|(b & B & HB & Hs)]; [by left|right].
  destruct (I3 b B HB Hs) as (rid & Hel & Hres).
  exists b, B, rid. eauto 10.
Qed.

Lemma loading_means_pending_witness :
  let w := run [EvItemsReply 0 (Response 200 [one_row]);
                EvAddItems (Some (code_units "3")) true] (mount logged_in_storage) in
  list_fetch_pending w ∨ batch_waiting w.
Proof.
  apply (loading_means_pending
           (run [EvItemsReply 0 (Response 200 [one_row]);
                 EvAddItems (Some (code_units "3")) true] (mount logged_in_storage))).
  - exists logged_in_storage,
      [EvItemsReply 0 (Response 200 [one_row]);
       EvAddItems (Some (code_units "3")) true].
    reflexivity.
  - vm_compute. reflexivity.
Defined.

(** ** No cancellation (App.jsx 45-54, 114-132) *)

(** X16.  A list request that is pending when the tab changes is never
    cancelled: it stays in flight, and when it is the next to be answered
    its rows become the list shown under the new tab, whether it asked for
    page 0 or for a further page.  The tab change empties the list; it
    sends a list request of its own for the new tab when [loading] is
    false at that moment, and none when [loading] is true (the guard
    drops it). *)
Theorem pending_fetch_survives_tab_change w rid reset tab
    (r : HttpResult (list Item)) rows :
  reachable w →
  isLoggedIn (st w) = true →
  tab ≠ activeTab (st w) →
  inflight w !! rid = Some (KFetchItems reset) →
  settle r = inl rows →
  let w1 := step (EvSetActiveTab tab) w in
  let w2 := step (EvItemsReply rid r) w1 in
  items (st w1) = []
  ∧ list_requests w1
    = list_requests w
      ++ (if loading (st w) then []
          else [ERequest (next_id w) (request_interceptor (storage w))
                  (GetItems tab limit 0 (search (st w)))])
  ∧ inflight w1 !! rid = Some (KFetchItems reset)
  ∧ activeTab (st w2) = tab
  ∧ items (st w2) = rows
  ∧ loading (st w2) = false.
Proof.
  intros Hr Hin Hne Hfl Hset w1 w2.
  destruct (bookkeeping_reachable w Hr) as [I1 _ _ _].
  pose proof (I1 _ _ Hfl) as Hlt.
  assert (H1 : activeTab (st w1) = tab ∧ items (st w1) = []
               ∧ list_requests w1
                 = list_requests w
                   ++ (if loading (st w) then []
                       else [ERequest (next_id w) (request_interceptor (storage w))
                               (GetItems tab limit 0 (search (st w)))])
               ∧ inflight w1 !! rid = Some (KFetchItems reset)).
  { unfold w1. rewrite (step_setActiveTab _ _ Hin Hne). unfold list_requests.
    match goal with
    | |- context [if ?c then ?a else effect_observer ?s ?a] =>
        destruct (observer_branch_fields c s a) as (-> & -> & -> & _)
    end.
    unfold effect_tab, fetchItems, fetchStats.
    cbn [isLoggedIn loading setActiveTab]. rewrite Hin.
    destruct (loading (st w));
      cbn [st items activeTab log inflight next_id storage search axios setState
           setItems setPage setHasMore setLoading setActiveTab Nat.mul];
      rewrite ?List.filter_app; cbn [List.filter is_list_request app];
      rewrite ?app_nil_r; repeat (split; [reflexivity|]);
      rewrite !lookup_insert_ne by lia; exact Hfl. }
  destruct H1 as (Htab & Hit & Hlist & Hfl').
  assert (H2 : st w2 = setLoading false
                 (setItems (fun prev => if reset then rows else prev ++ rows)
                    (if (length rows <? limit)%nat then setHasMore false (st w1)
                     else st w1))).
  { unfold w2. rewrite (step_items_reply _ _ _ _ Hfl'). rewrite Hset, settled_inl.
    match goal with
    | |- context [if ?c then ?a else effect_observer ?s ?a] =>
        destruct (observer_branch_fields c s a) as (-> & _)
    end.
    unfold fetchItems_then. by destruct (length rows <? limit)%nat. }
  clearbody w1 w2.
  split; [exact Hit|]. split; [exact Hlist|]. split; [exact Hfl'|].
  rewrite H2.
  destruct (length rows <? limit)%nat, reset;
    cbn [activeTab items loading setLoading setItems setHasMore];
    rewrite ?Hit; done.
Qed.

Lemma pending_fetch_survives_tab_change_witness :
  let w := run [EvAddItems (Some (code_units "1")) true;
                EvCreateReply 2 (Response 500 ∅)] (mount logged_in_storage) in
  let w1 := step (EvSetActiveTab "koreyskiy") w in
  let w2 := step (EvItemsReply 0 (Response 200 [one_row])) w1 in
  items (st w1) = []
  ∧ list_requests w1
    = list_requests w
      ++ (if loading (st w) then []
          else [ERequest (next_id w) (request_interceptor (storage w))
                  (GetItems "koreyskiy" limit 0 (search (st w)))])
  ∧ inflight w1 !! 0%nat = Some (KFetchItems true)
  ∧ activeTab (st w2) = "koreyskiy"
  ∧ items (st w2) = [one_row]
  ∧ loading (st w2) = false.
Proof.
  apply (pending_fetch_survives_tab_change
           (run [EvAddItems (Some (code_units "1")) true;
                 EvCreateReply 2 (Response 500 ∅)] (mount logged_in_storage))
           0 true "koreyskiy" (Response 200 [one_row]) [one_row]).
  - exists logged_in_storage,
      [EvAddItems (Some (code_units "1")) true; EvCreateReply 2 (Response 500 ∅)].
    reflexivity.
  - vm_compute. reflexivity.
  - vm_compute. discriminate.
  - vm_compute. reflexivity.
  - reflexivity.
Defined.

(** While the first list request is pending the tab change sends none;
    once a failed [addItems] has cleared [loading], with that request
    still pending, it sends one, and the answer to the old request is
    shown under the new tab all the same. *)
Example tab_change_with_fetch_pending :
  let w := mount logged_in_storage in
  let w' := run [EvAddItems (Some (code_units "1")) true;
                 EvCreateReply 2 (Response 500 ∅)] w in
  (loading (st w) = true
   ∧ requests_since w (step (EvSetActiveTab "koreyskiy") w)
     = [ERequest 2 (Some "Bearer t0k3n") (GetStats "koreyskiy")])
  ∧ (loading (st w') = false
     ∧ inflight w' !! 0%nat = Some (KFetchItems true)
     ∧ requests_since w' (step (EvSetActiveTab "koreyskiy") w')
       = [ERequest 3 (Some "Bearer t0k3n") (GetItems "koreyskiy" 500 0 "");
          ERequest 4 (Some "Bearer t0k3n") (GetStats "koreyskiy")]
     ∧ items (st (run [EvSetActiveTab "koreyskiy";
                       EvItemsReply 0 (Response 200 [one_row])] w')) = [one_row]).
Proof. repeat split; vm_compute; reflexivity. Qed.
